(** * PBX-System: a shallow embedding of the telephone-unit state machine,
      the PBX registry, the client session dispatcher and the command line.

    Source files embedded here:
    - the TU module, the source file without a name ([tu_init], [tu_ref],
      [tu_unref], [tu_fileno], [tu_extension], [send_to_client],
      [tu_set_extension], [tu_dial], [tu_pickup], [tu_hangup], [tu_chat]),
    - [src/pbx.c]   ([pbx_init], [pbx_register], [pbx_unregister], [pbx_dial]),
    - [src/server.c] (the command dispatch of [pbx_client_service]),
    - [src/main.c]  (the command-line parsing of [main]).

    Conventions.
    - A [TU *] is [option positive]: [None] is [NULL], [Some a] is the address
      [a].  Pointer comparison [tu < target] is comparison of addresses.
    - The heap maps live addresses to TU structures; [free] deletes the
      address, and any later access to it is [Undefined].
    - [int] fields are [Z]; signed overflow of [+= 1] / [-= 1] is [Undefined].
    - A semaphore is its counter.  The model runs one thread: [sem_wait] on a
      counter that is [0] never returns ([Blocked]).
    - Every [sem_wait], [sem_post], [write] and [fprintf(stderr, ..)] is
      appended to the trace of the world, in program order.
    - A semaphore call that returns, returns [0]: the error branches after
      [sem_wait] and [sem_post] are not taken.  The [debug] macro prints
      nothing, and signal masks are not modelled.
    - [long] has 64 bits and [int] 32; the conversion of a [long] to [int]
      reduces modulo [2^32]. *)

From stdpp Require Import gmap strings list fin_maps pretty.
From Stdlib Require Import ZArith Ascii String Lia ZifyBool.

Open Scope Z_scope.

(** ** Declarations of [pbx.h] *)

(** Modelled from the spec: [pbx.h] is not among the sources.  The TU states
    are the seven variants of the data model, in the order in which the
    notification table lists them. *)
Inductive TU_STATE : Type :=
| TU_ON_HOOK
| TU_RINGING
| TU_DIAL_TONE
| TU_RING_BACK
| TU_BUSY_SIGNAL
| TU_CONNECTED
| TU_ERROR.

(** The enumeration constants, and [==] on states. *)
Definition state_code (s : TU_STATE) : Z :=
  match s with
  | TU_ON_HOOK => 0
  | TU_RINGING => 1
  | TU_DIAL_TONE => 2
  | TU_RING_BACK => 3
  | TU_BUSY_SIGNAL => 4
  | TU_CONNECTED => 5
  | TU_ERROR => 6
  end.

Definition state_eqb (x y : TU_STATE) : bool := state_code x =? state_code y.

(** [p == NULL] and [p == q] on pointers. *)
Definition is_null (p : option positive) : bool :=
  match p with None => true | Some _ => false end.

Definition ptr_eqb (p q : option positive) : bool :=
  match p, q with
  | None, None => true
  | Some a, Some b => (a =? b)%positive
  | _, _ => false
  end.

(** Modelled from the spec: the table [tu_state_names] of [pbx.h], with the
    wire forms of the notification format. *)
Definition tu_state_names (s : TU_STATE) : string :=
  match s with
  | TU_ON_HOOK => "ON HOOK"
  | TU_RINGING => "RINGING"
  | TU_DIAL_TONE => "DIAL TONE"
  | TU_RING_BACK => "RING BACK"
  | TU_BUSY_SIGNAL => "BUSY SIGNAL"
  | TU_CONNECTED => "CONNECTED"
  | TU_ERROR => "ERROR"
  end.

(** Modelled from the spec: the constant [PBX_MAX_EXTENSIONS] of [pbx.h]
    (the size of the registry table, 1024). *)
Definition PBX_MAX_EXTENSIONS : Z := 1024.

Definition INT_MAX : Z := 2147483647.
Definition INT_MIN : Z := -2147483648.

(** [#define BUFFER 8192] *)
Definition BUFFER : Z := 8192.

Definition LF : string := String "010"%char EmptyString.

(** ** Data model *)

(** [typedef struct tu { sem_t tu_mutex; TU_STATE state; int references;
    int ext; int fd; TU *peer; } TU;] *)
Record TU : Type := mkTU {
  tu_mutex : Z;
  state : TU_STATE;
  references : Z;
  ext : Z;
  fd : Z;
  peer : option positive
}.

(** [typedef struct pbx { int num_entries; sem_t entries_mutex;
    sem_t pbx_mutex; TU **pbx_entries; } PBX;]
    The table is the list of its slots, index [i] holding [pbx_entries[i]]. *)
Record PBX : Type := mkPBX {
  num_entries : Z;
  entries_mutex : Z;
  pbx_mutex : Z;
  pbx_entries : list (option positive)
}.

Inductive lock : Type :=
| TuLock (a : positive)
| PbxMutex
| EntriesMutex.

Inductive event : Type :=
| EWait (l : lock)                          (* sem_wait called on l *)
| EPost (l : lock)                          (* sem_post called on l *)
| EWrite (fd : Z) (buf : string) (ok : bool) (* write(fd, buf, strlen buf) *)
| EStderr (msg : string).                   (* fprintf(stderr, msg) *)

(** The process state: the heap of TUs, the global [pbx] ([None] while it is
    [NULL]), the events so far, and the descriptors on which [write] fails
    (a peer that closed its socket). *)
Record world : Type := mkWorld {
  heap : gmap positive TU;
  pbx : option PBX;
  trace : list event;
  broken : list Z
}.

Inductive outcome (A : Type) : Type :=
| Ret (a : A) (w : world)
| Blocked (w : world)
| Undefined.
Arguments Ret {A} a w.
Arguments Blocked {A} w.
Arguments Undefined {A}.

Definition M (A : Type) : Type := world -> outcome A.

Definition ret {A} (a : A) : M A := fun w => Ret a w.

Definition bind {A B} (m : M A) (k : A -> M B) : M B :=
  fun w =>
    match m w with
    | Ret a w' => k a w'
    | Blocked w' => Blocked w'
    | Undefined => Undefined
    end.

Notation "'let*' x ':=' m 'in' k" := (bind m (fun x => k))
  (at level 10, x name, m at level 100, k at level 200).
Notation "m ';;;' k" := (bind m (fun _ => k))
  (at level 100, k at level 200, right associativity).

Definition undefined {A} : M A := fun _ => Undefined.

Definition emit (e : event) : M unit :=
  fun w => Ret tt (mkWorld (heap w) (pbx w) (trace w ++ [e]) (broken w)).

Definition fprintf_stderr (msg : string) : M unit := emit (EStderr msg).

(** Reading [*p]: [NULL] and freed addresses are undefined. *)
Definition load (p : option positive) : M TU :=
  fun w =>
    match p with
    | None => Undefined
    | Some a =>
        match heap w !! a with
        | Some t => Ret t w
        | None => Undefined
        end
    end.

Definition store (a : positive) (t : TU) : M unit :=
  fun w =>
    match heap w !! a with
    | Some _ => Ret tt (mkWorld (<[a := t]> (heap w)) (pbx w) (trace w) (broken w))
    | None => Undefined
    end.

Definition set_tu_mutex (v : Z) (t : TU) : TU :=
  mkTU v (state t) (references t) (ext t) (fd t) (peer t).
Definition set_state (s : TU_STATE) (t : TU) : TU :=
  mkTU (tu_mutex t) s (references t) (ext t) (fd t) (peer t).
Definition set_references (r : Z) (t : TU) : TU :=
  mkTU (tu_mutex t) (state t) r (ext t) (fd t) (peer t).
Definition set_ext (e : Z) (t : TU) : TU :=
  mkTU (tu_mutex t) (state t) (references t) e (fd t) (peer t).
Definition set_peer (p : option positive) (t : TU) : TU :=
  mkTU (tu_mutex t) (state t) (references t) (ext t) (fd t) p.

(** [p->field = v] *)
Definition modify (p : option positive) (f : TU -> TU) : M unit :=
  let* t := load p in
  match p with
  | Some a => store a (f t)
  | None => undefined
  end.

(** [sem_wait(&p->tu_mutex)]; the call returns [0] when it returns. *)
Definition sem_wait_tu (p : option positive) : M Z :=
  let* t := load p in
  match p with
  | None => undefined
  | Some a =>
      emit (EWait (TuLock a)) ;;;
      if 0 <? tu_mutex t
      then store a (set_tu_mutex (tu_mutex t - 1) t) ;;; ret 0
      else fun w => Blocked w
  end.

(** [sem_post(&p->tu_mutex)] *)
Definition sem_post_tu (p : option positive) : M Z :=
  let* t := load p in
  match p with
  | None => undefined
  | Some a =>
      emit (EPost (TuLock a)) ;;;
      store a (set_tu_mutex (tu_mutex t + 1) t) ;;; ret 0
  end.

(** ** The TU module *)

(** [calloc] returns [alloc]: [None] when it fails, else an address that is
    not in use. *)
Definition tu_init (alloc : option positive) (fd0 : Z) : M (option positive) :=
  match alloc with
  | None =>
      fprintf_stderr
        ("Could not dynamically allocate memory for telephone unit." +:+ LF) ;;;
      ret None
  | Some a =>
      fun w =>
        match heap w !! a with
        | Some _ => Undefined
        | None =>
            Ret (Some a)
              (mkWorld (<[a := mkTU 1 TU_ON_HOOK 0 (-1) fd0 None]> (heap w))
                 (pbx w) (trace w) (broken w))
        end
  end.

Definition tu_ref (tu : option positive) : M unit :=
  (if is_null tu
   then fprintf_stderr ("Not a valid telephone unit." +:+ LF)
   else ret tt) ;;;
  let* t := load tu in
  if references t + 1 <=? INT_MAX
  then modify tu (set_references (references t + 1))
  else undefined.

Definition free (p : option positive) : M unit :=
  fun w =>
    match p with
    | None => Ret tt w
    | Some a =>
        match heap w !! a with
        | Some _ => Ret tt (mkWorld (delete a (heap w)) (pbx w) (trace w) (broken w))
        | None => Undefined
        end
    end.

Definition tu_unref (tu : option positive) : M unit :=
  (if is_null tu
   then fprintf_stderr ("Not a valid telephone unit." +:+ LF)
   else ret tt) ;;;
  let* t := load tu in
  if INT_MIN <=? references t - 1
  then
    modify tu (set_references (references t - 1)) ;;;
    let* t' := load tu in
    if references t' =? 0 then free tu else ret tt
  else undefined.

Definition null_tu_err : string := "Not a valid telephone unit." +:+ LF.

Definition tu_extension (tu : option positive) : M Z :=
  if is_null tu
  then fprintf_stderr null_tu_err ;;; ret (-1)
  else
    sem_wait_tu tu ;;;
    let* t := load tu in
    if 0 <=? ext t
    then sem_post_tu tu ;;; ret (ext t)
    else
      sem_post_tu tu ;;;
      fprintf_stderr ("Invalid extension detected: " +:+ pretty (ext t) +:+ LF) ;;;
      ret (-1).

(** [tu_fileno]: the descriptor of the unit, or [-1] with a diagnostic when
    the unit is [NULL] or its descriptor is negative.  The descriptor is
    read again after the semaphore is released, as in the source. *)
Definition tu_fileno (tu : option positive) : M Z :=
  if is_null tu
  then fprintf_stderr null_tu_err ;;; ret (-1)
  else
    sem_wait_tu tu ;;;
    let* t := load tu in
    if 0 <=? fd t
    then sem_post_tu tu ;;; let* t' := load tu in ret (fd t')
    else
      sem_post_tu tu ;;;
      let* t' := load tu in
      fprintf_stderr ("Invalid file descriptor detected: " +:+ pretty (fd t') +:+ LF) ;;;
      ret (-1).

(** Whether a [write] to the descriptor [f] succeeds. *)
Definition write_ok (br : list Z) (f : Z) : bool := negb (existsb (Z.eqb f) br).

(** [write(fd, buffer, strlen(buffer))]: fails on a broken descriptor,
    otherwise writes the whole buffer. *)
Definition write (fd0 : Z) (buffer : string) : M bool :=
  fun w =>
    let ok := write_ok (broken w) fd0 in
    Ret ok (mkWorld (heap w) (pbx w) (trace w ++ [EWrite fd0 buffer ok]) (broken w)).

(** [static int send_to_client(TU *target, TU_STATE state, char *msg)].
    The state lines are at most 25 bytes; a chat line [msg] needs
    [strlen(msg) + 2] bytes of the 8192-byte buffer. *)
Definition send_to_client (target : option positive) (st : TU_STATE)
    (msg : option string) : M Z :=
  let state_string := tu_state_names st in
  let* t := load target in
  if fd t <? 0
  then
    fprintf_stderr ("Telephone unit has invalid file descriptor number." +:+ LF) ;;;
    ret (-1)
  else
    let* buffer :=
      (if state_eqb st TU_CONNECTED
       then
         match msg with
         | None =>
             let* p := load (peer t) in
             ret (state_string +:+ " " +:+ pretty (ext p) +:+ LF)
         | Some m =>
             if Z.of_nat (String.length m) + 2 <=? BUFFER
             then ret (m +:+ LF)
             else undefined
         end
       else if state_eqb st TU_ON_HOOK
       then ret (state_string +:+ " " +:+ pretty (ext t) +:+ LF)
       else ret (state_string +:+ LF)) in
    let* ok := write (fd t) buffer in
    ret (if ok then 0 else -1).

Definition tu_set_extension (tu : option positive) (e : Z) : M Z :=
  if is_null tu
  then fprintf_stderr null_tu_err ;;; ret (-1)
  else if (e <? 0) || (PBX_MAX_EXTENSIONS - 1 <? e)
  then
    fprintf_stderr ("Not a valid extension, must be between 0 and "
                    +:+ pretty PBX_MAX_EXTENSIONS +:+ "." +:+ LF) ;;;
    ret (-1)
  else
    sem_wait_tu tu ;;;
    modify tu (set_ext e) ;;;
    modify tu (set_state TU_ON_HOOK) ;;;
    let* t := load tu in
    send_to_client tu (state t) None ;;;
    sem_post_tu tu ;;;
    ret 0.

(** [if (ret) return -1; else return 0;] *)
Definition status (r : Z) : Z := if r =? 0 then 0 else -1.
Definition status2 (r1 r2 : Z) : Z :=
  if (r1 =? 0) && (r2 =? 0) then 0 else -1.

Definition get_state (p : option positive) : M TU_STATE :=
  let* t := load p in ret (state t).
Definition get_peer (p : option positive) : M (option positive) :=
  let* t := load p in ret (peer t).

(** [tu < target] on two addresses *)
Definition ptr_lt (p q : option positive) : bool :=
  match p, q with
  | Some a, Some b => (a <? b)%positive
  | None, Some _ => true
  | _, _ => false
  end.

(** [tu_dial], the acquisition of both locks after the self lock was
    released: [if (tu < target) { .. } else { .. }]. *)
Definition tu_dial_locks (tu target : option positive) : M unit :=
  if ptr_lt tu target
  then sem_wait_tu tu ;;; sem_wait_tu target ;;; ret tt
  else sem_wait_tu target ;;; sem_wait_tu tu ;;; ret tt.

(** [tu_dial], from the second test of the target, made under both locks,
    to the end of the function. *)
Definition tu_dial_commit (tu target : option positive) : M Z :=
  let* p := get_peer tu in
  let* ts := get_state target in
  if negb (is_null p) || negb (state_eqb ts TU_ON_HOOK)
  then
    modify tu (set_state TU_BUSY_SIGNAL) ;;;
    let* s := get_state tu in
    let* r := send_to_client tu s None in
    sem_post_tu target ;;;
    sem_post_tu tu ;;;
    ret (status r)
  else
    modify tu (set_peer target) ;;;
    modify target (set_peer tu) ;;;
    modify tu (set_state TU_RING_BACK) ;;;
    modify target (set_state TU_RINGING) ;;;
    tu_ref tu ;;;
    tu_ref target ;;;
    let* s1 := get_state tu in
    let* ret1 := send_to_client tu s1 None in
    let* s2 := get_state target in
    let* ret2 := send_to_client target s2 None in
    sem_post_tu target ;;;
    sem_post_tu tu ;;;
    ret (status2 ret1 ret2).

Definition tu_dial (tu target : option positive) : M Z :=
  if is_null tu && is_null target
  then fprintf_stderr ("Not valid telephone units." +:+ LF) ;;; ret (-1)
  else
    sem_wait_tu tu ;;;
    let* s := get_state tu in
    if negb (state_eqb s TU_DIAL_TONE)
    then
      let* r := send_to_client tu s None in
      sem_post_tu tu ;;;
      ret (status r)
    else if state_eqb s TU_DIAL_TONE && negb (is_null tu)
            && is_null target
    then
      modify tu (set_state TU_ERROR) ;;;
      let* s' := get_state tu in
      let* r := send_to_client tu s' None in
      sem_post_tu tu ;;;
      ret (status r)
    else if ptr_eqb tu target
    then
      modify tu (set_state TU_BUSY_SIGNAL) ;;;
      let* s' := get_state tu in
      let* r := send_to_client tu s' None in
      sem_post_tu tu ;;;
      ret (status r)
    else
      sem_post_tu tu ;;;
      tu_dial_locks tu target ;;;
      tu_dial_commit tu target.

Definition tu_pickup (tu : option positive) : M Z :=
  if is_null tu
  then fprintf_stderr null_tu_err ;;; ret (-1)
  else
    sem_wait_tu tu ;;;
    let* s := get_state tu in
    if negb (state_eqb s TU_ON_HOOK) && negb (state_eqb s TU_RINGING)
    then
      let* r := send_to_client tu s None in
      sem_post_tu tu ;;;
      ret (status r)
    else if state_eqb s TU_ON_HOOK
    then
      modify tu (set_state TU_DIAL_TONE) ;;;
      let* s' := get_state tu in
      let* r := send_to_client tu s' None in
      sem_post_tu tu ;;;
      ret (status r)
    else if state_eqb s TU_RINGING
    then
      (let* p := get_peer tu in sem_wait_tu p) ;;;
      modify tu (set_state TU_CONNECTED) ;;;
      (let* p := get_peer tu in modify p (set_state TU_CONNECTED)) ;;;
      let* s1 := get_state tu in
      let* ret1 := send_to_client tu s1 None in
      let* p := get_peer tu in
      let* s2 := get_state p in
      let* ret2 := send_to_client p s2 None in
      sem_post_tu tu ;;;
      (let* p := get_peer tu in sem_post_tu p) ;;;
      ret (status2 ret1 ret2)
    else
      let* r := send_to_client tu s None in
      sem_post_tu tu ;;;
      ret (status r).

Definition tu_hangup (tu : option positive) : M Z :=
  if is_null tu
  then fprintf_stderr null_tu_err ;;; ret (-1)
  else
    sem_wait_tu tu ;;;
    let* s := get_state tu in
    if state_eqb s TU_CONNECTED || state_eqb s TU_RINGING
    then
      (let* p := get_peer tu in sem_wait_tu p) ;;;
      modify tu (set_state TU_ON_HOOK) ;;;
      (let* p := get_peer tu in modify p (set_state TU_DIAL_TONE)) ;;;
      tu_unref tu ;;;
      (let* p := get_peer tu in tu_unref p) ;;;
      let* s1 := get_state tu in
      let* ret1 := send_to_client tu s1 None in
      let* p := get_peer tu in
      let* s2 := get_state p in
      let* ret2 := send_to_client p s2 None in
      (let* p := get_peer tu in modify p (set_peer None)) ;;;
      (let* p := get_peer tu in sem_post_tu p) ;;;
      modify tu (set_peer None) ;;;
      sem_post_tu tu ;;;
      ret (status2 ret1 ret2)
    else if state_eqb s TU_RING_BACK
    then
      (let* p := get_peer tu in sem_wait_tu p) ;;;
      modify tu (set_state TU_ON_HOOK) ;;;
      (let* p := get_peer tu in modify p (set_state TU_ON_HOOK)) ;;;
      let* s1 := get_state tu in
      let* ret1 := send_to_client tu s1 None in
      let* p := get_peer tu in
      let* s2 := get_state p in
      let* ret2 := send_to_client p s2 None in
      sem_post_tu tu ;;;
      (let* p := get_peer tu in sem_post_tu p) ;;;
      ret (status2 ret1 ret2)
    else if state_eqb s TU_DIAL_TONE || state_eqb s TU_BUSY_SIGNAL
            || state_eqb s TU_ERROR
    then
      modify tu (set_state TU_ON_HOOK) ;;;
      let* s' := get_state tu in
      let* r := send_to_client tu s' None in
      sem_post_tu tu ;;;
      ret (status r)
    else
      let* r := send_to_client tu s None in
      sem_post_tu tu ;;;
      ret (status r).

(** [tu_chat]; the first branch returns with [tu->tu_mutex] still taken. *)
Definition tu_chat (tu : option positive) (msg : option string) : M Z :=
  if is_null tu
  then fprintf_stderr null_tu_err ;;; ret (-1)
  else
    sem_wait_tu tu ;;;
    let* s := get_state tu in
    if negb (state_eqb s TU_CONNECTED)
    then ret (-1)
    else
      (let* p := get_peer tu in sem_wait_tu p) ;;;
      let* s1 := get_state tu in
      let* ret1 := send_to_client tu s1 None in
      let* p := get_peer tu in
      let* s2 := get_state p in
      let* ret2 := send_to_client p s2 msg in
      sem_post_tu tu ;;;
      (let* p := get_peer tu in sem_post_tu p) ;;;
      ret (status2 ret1 ret2).

(** ** The PBX module ([src/pbx.c]) *)

(** [*pbx], for the global [pbx]. *)
Definition load_pbx : M PBX :=
  fun w => match pbx w with Some p => Ret p w | None => Undefined end.

Definition store_pbx (p : PBX) : M unit :=
  fun w => Ret tt (mkWorld (heap w) (Some p) (trace w) (broken w)).

Definition pbx_is_null : M bool :=
  fun w => Ret (match pbx w with None => true | Some _ => false end) w.

Definition set_num_entries (n : Z) (p : PBX) : PBX :=
  mkPBX n (entries_mutex p) (pbx_mutex p) (pbx_entries p).
Definition set_entries_mutex (v : Z) (p : PBX) : PBX :=
  mkPBX (num_entries p) v (pbx_mutex p) (pbx_entries p).
Definition set_pbx_mutex (v : Z) (p : PBX) : PBX :=
  mkPBX (num_entries p) (entries_mutex p) v (pbx_entries p).
Definition set_pbx_entries (l : list (option positive)) (p : PBX) : PBX :=
  mkPBX (num_entries p) (entries_mutex p) (pbx_mutex p) l.

(** [sem_wait(&pbx->pbx_mutex)] *)
Definition sem_wait_pbx_mutex : M Z :=
  let* p := load_pbx in
  emit (EWait PbxMutex) ;;;
  if 0 <? pbx_mutex p
  then store_pbx (set_pbx_mutex (pbx_mutex p - 1) p) ;;; ret 0
  else fun w => Blocked w.

Definition sem_post_pbx_mutex : M Z :=
  let* p := load_pbx in
  emit (EPost PbxMutex) ;;;
  store_pbx (set_pbx_mutex (pbx_mutex p + 1) p) ;;; ret 0.

(** [sem_wait(&pbx->entries_mutex)] *)
Definition sem_wait_entries_mutex : M Z :=
  let* p := load_pbx in
  emit (EWait EntriesMutex) ;;;
  if 0 <? entries_mutex p
  then store_pbx (set_entries_mutex (entries_mutex p - 1) p) ;;; ret 0
  else fun w => Blocked w.

Definition sem_post_entries_mutex : M Z :=
  let* p := load_pbx in
  emit (EPost EntriesMutex) ;;;
  store_pbx (set_entries_mutex (entries_mutex p + 1) p) ;;; ret 0.

(** [pbx->pbx_entries[i]]; an index outside the table is an out-of-bounds
    read. *)
Definition read_entry (i : Z) : M (option positive) :=
  let* p := load_pbx in
  if (0 <=? i) && (i <? Z.of_nat (List.length (pbx_entries p)))
  then
    match pbx_entries p !! Z.to_nat i with
    | Some e => ret e
    | None => undefined
    end
  else undefined.

(** [pbx->pbx_entries[i] = e] *)
Definition write_entry (i : Z) (e : option positive) : M unit :=
  let* p := load_pbx in
  if (0 <=? i) && (i <? Z.of_nat (List.length (pbx_entries p)))
  then store_pbx (set_pbx_entries (<[Z.to_nat i := e]> (pbx_entries p)) p)
  else undefined.

Definition null_pbx_err : string := "Not a valid pbx." +:+ LF.

(** [pbx_init]; [calloc_ok] tells whether both allocations succeed. *)
Definition pbx_init (calloc_ok : bool) : M unit :=
  if calloc_ok
  then
    store_pbx
      (mkPBX 0 1 1 (replicate (Z.to_nat PBX_MAX_EXTENSIONS) None))
  else
    fprintf_stderr ("Could not dynamically allocate memory for pbx." +:+ LF).

Definition pbx_register (tu : option positive) (e : Z) : M Z :=
  let* null := pbx_is_null in
  if null
  then fprintf_stderr null_pbx_err ;;; ret (-1)
  else if (e <? 0) || (PBX_MAX_EXTENSIONS - 1 <? e)
  then
    fprintf_stderr ("Not a valid extension, must be between 0 and "
                    +:+ pretty PBX_MAX_EXTENSIONS +:+ "." +:+ LF) ;;;
    ret (-1)
  else if is_null tu
  then fprintf_stderr null_tu_err ;;; ret (-1)
  else
    sem_wait_pbx_mutex ;;;
    sem_wait_entries_mutex ;;;
    let* slot := read_entry e in
    if negb (is_null slot)
    then
      fprintf_stderr ("There is already a telephone unit registered at extension "
                      +:+ pretty e +:+ "." +:+ LF) ;;;
      sem_post_entries_mutex ;;;
      sem_post_pbx_mutex ;;;
      ret (-1)
    else
      write_entry e tu ;;;
      tu_set_extension tu e ;;;
      (let* p := load_pbx in
       if num_entries p + 1 <=? INT_MAX
       then store_pbx (set_num_entries (num_entries p + 1) p)
       else undefined) ;;;
      tu_ref tu ;;;
      sem_post_entries_mutex ;;;
      sem_post_pbx_mutex ;;;
      ret 0.

Definition pbx_unregister (tu : option positive) : M Z :=
  let* null := pbx_is_null in
  if null
  then fprintf_stderr null_pbx_err ;;; ret (-1)
  else if is_null tu
  then fprintf_stderr null_tu_err ;;; ret (-1)
  else
    sem_wait_pbx_mutex ;;;
    sem_wait_entries_mutex ;;;
    let* e := tu_extension tu in
    if e =? -1
    then
      fprintf_stderr ("There is no valid extension for this telephone unit"
                      +:+ pretty e +:+ "." +:+ LF) ;;;
      sem_post_entries_mutex ;;;
      sem_post_pbx_mutex ;;;
      ret (-1)
    else
      let* slot := read_entry e in
      if is_null slot
      then
        fprintf_stderr ("There is no telephone unit registered at extension "
                        +:+ pretty e +:+ "." +:+ LF) ;;;
        sem_post_entries_mutex ;;;
        sem_post_pbx_mutex ;;;
        ret (-1)
      else
        write_entry e None ;;;
        (let* p := load_pbx in
         if INT_MIN <=? num_entries p - 1
         then store_pbx (set_num_entries (num_entries p - 1) p)
         else undefined) ;;;
        tu_unref tu ;;;
        sem_post_entries_mutex ;;;
        sem_post_pbx_mutex ;;;
        ret 0.

Definition pbx_dial (tu : option positive) (e : Z) : M Z :=
  let* null := pbx_is_null in
  if null
  then fprintf_stderr null_pbx_err ;;; ret (-1)
  else if PBX_MAX_EXTENSIONS - 1 <? e
  then ret (-1)
  else if is_null tu
  then fprintf_stderr null_tu_err ;;; ret (-1)
  else
    sem_wait_pbx_mutex ;;;
    let* recipient :=
      (if negb (e =? -1)
       then
         let* slot := read_entry e in
         if negb (is_null slot) then read_entry e else ret None
       else ret None) in
    let* r := tu_dial tu recipient in
    if negb (r =? 0)
    then sem_post_pbx_mutex ;;; ret (-1)
    else sem_post_pbx_mutex ;;; ret 0.

(** ** C strings *)

Definition NUL : ascii := "000"%char.
Definition SP : ascii := " "%char.
Definition CRc : ascii := "013"%char.
Definition LFc : ascii := "010"%char.

Definition bytes (s : string) : list ascii := list_ascii_of_string s.
Definition crlf : list ascii := [CRc; LFc].

(** [isspace] and [isdigit] of the C locale *)
Definition isspace (c : ascii) : bool :=
  let n := N_of_ascii c in ((n =? 32) || ((9 <=? n) && (n <=? 13)))%N.
Definition isdigit (c : ascii) : bool :=
  let n := N_of_ascii c in ((48 <=? n) && (n <=? 57))%N.
Definition digit_val (c : ascii) : Z := Z.of_N (N_of_ascii c) - 48.

(** The number of leading elements that satisfy [f]. *)
Fixpoint span (f : ascii -> bool) (l : list ascii) : nat :=
  match l with
  | c :: l' => if f c then S (span f l') else O
  | [] => O
  end.

Definition not_nul (c : ascii) : bool := negb (Ascii.eqb c NUL).

(** The string that starts at [l]: the bytes before the first NUL. *)
Definition cstr (l : list ascii) : list ascii :=
  take (span not_nul l) l.

Definition LONG_MAX : Z := 9223372036854775807.
Definition LONG_MIN : Z := -9223372036854775808.

Definition decimal (ds : list ascii) : Z :=
  fold_left (fun acc c => acc * 10 + digit_val c) ds 0.

(** [strtol(s, &end, 10)] on the string at [s], for a 64-bit [long]: the
    value and the offset of [end] from [s].  Without digits nothing is
    converted and [end] is [s]; a value out of range is clamped. *)
Definition strtol (s : list ascii) : Z * nat :=
  let s := cstr s in
  let ws := span isspace s in
  let s1 := drop ws s in
  let '(neg, sg) :=
    match s1 with
    | c :: _ =>
        if Ascii.eqb c "-" then (true, 1%nat)
        else if Ascii.eqb c "+" then (false, 1%nat)
        else (false, O)
    | [] => (false, O)
    end in
  let s2 := drop sg s1 in
  let nd := span isdigit s2 in
  match nd with
  | O => (0, O)
  | _ =>
      let v := decimal (take nd s2) in
      let v := if neg then - v else v in
      (Z.max LONG_MIN (Z.min LONG_MAX v), (ws + sg + nd)%nat)
  end.

(** The conversion of a [long] to [int]: reduction modulo [2^32] into the
    range of [int]. *)
Definition to_int (z : Z) : Z := (z + 2147483648) mod 4294967296 - 2147483648.

(** A byte that [strtok(.., " ")] keeps inside a token: neither the
    delimiter nor the terminator. *)
Definition token_char (c : ascii) : bool :=
  negb (Ascii.eqb c SP) && negb (Ascii.eqb c NUL).

(** [strtok(.., " ")], scanning the buffer [buf] from offset [from] (the
    buffer start on the first call, the saved position after it).  Returns
    the offset of the token ([None] for a [NULL] result), the buffer after the
    terminator was written, and the position saved for the next call.
    [None] as a whole: the scan left the modelled bytes. *)
Definition strtok (buf : list ascii) (from : nat)
    : option (option nat * list ascii * nat) :=
  let p := (from + span (Ascii.eqb SP) (drop from buf))%nat in
  match buf !! p with
  | None => None
  | Some c =>
      if Ascii.eqb c NUL then Some (None, buf, p)
      else
        let e := (p + span token_char (drop p buf))%nat in
        match buf !! e with
        | None => None
        | Some d =>
            if Ascii.eqb d SP
            then Some (Some p, <[e := NUL]> buf, S e)
            else Some (Some p, buf, e)
        end
  end.

(** Modelled from the spec: the enumeration of commands of [pbx.h], one per
    command of the wire protocol. *)
Inductive TU_COMMAND : Type :=
| TU_PICKUP_CMD
| TU_HANGUP_CMD
| TU_DIAL_CMD
| TU_CHAT_CMD.

(** Modelled from the spec: the table [tu_command_names] of [pbx.h], the
    command keywords of the wire protocol, which are case-sensitive. *)
Definition tu_command_names (c : TU_COMMAND) : list ascii :=
  match c with
  | TU_PICKUP_CMD => bytes "pickup"
  | TU_HANGUP_CMD => bytes "hangup"
  | TU_DIAL_CMD => bytes "dial"
  | TU_CHAT_CMD => bytes "chat"
  end.

Definition list_ascii_eqb (x y : list ascii) : bool :=
  String.eqb (string_of_list_ascii x) (string_of_list_ascii y).

(** [!strncmp(s, name, n)] where [name] has [n] bytes, none of them NUL *)
Definition strncmp_eq (s name : list ascii) : bool :=
  list_ascii_eqb (take (List.length name) (cstr s)) name.

(** [!strcmp(s, name)] *)
Definition strcmp_eq (s name : list ascii) : bool :=
  list_ascii_eqb (cstr s) name.

(** ** The client session ([src/server.c]) *)

(** What one pass through the body of the [while (client_status)] loop does
    with the bytes of one [read]. *)
Inductive command : Type :=
| CmdNone                                   (* [continue], or "invalid command" *)
| CmdPickup                                 (* [tu_pickup(teleunit)] *)
| CmdHangup                                 (* [tu_hangup(teleunit)] *)
| CmdDial (ext_num : Z)                     (* [pbx_dial(pbx, teleunit, ext_num)] *)
| CmdChat (msg : list ascii) (last_read : bool). (* [tu_chat(teleunit, buffer)] *)

(** [buf[i]] for a signed index; outside the modelled bytes it is [None]. *)
Definition at_index (buf : list ascii) (i : Z) : option ascii :=
  if i <? 0 then None else buf !! Z.to_nat i.

(** [buf[i] == '\r' && buf[i + 1] == '\n']; the second byte is read only
    when the first one is a carriage return. *)
Definition crlf_at (buf : list ascii) (i : Z) : option bool :=
  match at_index buf i with
  | None => None
  | Some c0 =>
      if Ascii.eqb c0 CRc
      then
        match at_index buf (i + 1) with
        | None => None
        | Some c1 => Some (Ascii.eqb c1 LFc)
        end
      else Some false
  end.

(** The dial branch, entered with the buffer and saved position that the
    first [strtok] left. *)
Definition parse_dial (buffer : list ascii) (saved : nat) : option command :=
  match strtok buffer saved with
  | None => None
  | Some (None, _, _) => None               (* [*ext] with [ext == NULL] *)
  | Some (Some ext, buffer, _) =>
      match crlf_at buffer (Z.of_nat ext) with
      | None => None
      | Some true => Some CmdNone
      | Some false =>
          let '(v, endoff) := strtol (drop ext buffer) in
          let ext_num := to_int v in
          if ext_num =? 0
          then
            match at_index buffer (Z.of_nat ext + Z.of_nat endoff - 1) with
            | None => None
            | Some before =>
                if negb (Ascii.eqb before "0")
                then Some (CmdDial (-1))
                else Some (CmdDial ext_num)
            end
          else Some (CmdDial ext_num)
      end
  end.

Definition toupper (c : ascii) : ascii :=
  let n := N_of_ascii c in
  if ((97 <=? n) && (n <=? 122))%N then ascii_of_N (n - 32) else c.

(** The chat branch and the final "invalid command".  [temp_buffer] is the
    copy that [strcpy] made of the bytes before the first NUL.  The message
    is what [sprintf(buffer, "%s %s", command, temp)] leaves in [buffer]. *)
Definition parse_chat (bytes_read : Z) (buffer temp_buffer : list ascii)
    (cmd : nat) : option command :=
  let command_len := Z.of_nat (List.length (cstr (drop cmd buffer))) in
  match crlf_at buffer (Z.of_nat cmd + command_len - 2) with
  | None => None
  | Some strip =>
      let buffer :=
        if strip
        then <[Z.to_nat (Z.of_nat cmd + command_len - 2) := NUL]> buffer
        else buffer in
      let command_len := if strip then command_len - 2 else command_len in
      if (command_len =? Z.of_nat (List.length (tu_command_names TU_CHAT_CMD)))
         && strcmp_eq (drop cmd buffer) (tu_command_names TU_CHAT_CMD)
      then
        match crlf_at temp_buffer (bytes_read - 2) with
        | None => None
        | Some last_read =>
            let temp_buffer :=
              if last_read
              then <[Z.to_nat (bytes_read - 2) := NUL]> temp_buffer
              else temp_buffer in
            let command := map toupper (cstr (drop cmd buffer)) in
            let temp := drop 4 temp_buffer in
            let temp := drop (span (Ascii.eqb SP) temp) temp in
            Some (CmdChat (command ++ [SP] ++ cstr temp) last_read)
        end
      else Some CmdNone
  end.

(** The loop body from [buffer[bytes_read] = 0] on, for the [bytes_read > 0]
    bytes [input] that [read] returned. *)
Definition parse_command (input : list ascii) : option command :=
  let bytes_read := Z.of_nat (List.length input) in
  let buffer := input ++ [NUL] in
  let temp_buffer := cstr buffer ++ [NUL] in
  match strtok buffer 0 with
  | None => None
  | Some (None, _, _) => Some CmdNone
  | Some (Some cmd, buffer, saved) =>
      let command := drop cmd buffer in
      let command_len := Z.of_nat (List.length (cstr command)) in
      if (command_len - 2 =? Z.of_nat (List.length (tu_command_names TU_PICKUP_CMD)))
         && strncmp_eq command (tu_command_names TU_PICKUP_CMD)
      then Some CmdPickup
      else if (command_len - 2 =? Z.of_nat (List.length (tu_command_names TU_HANGUP_CMD)))
              && strncmp_eq command (tu_command_names TU_HANGUP_CMD)
      then Some CmdHangup
      else if (command_len =? Z.of_nat (List.length (tu_command_names TU_DIAL_CMD)))
              && strcmp_eq command (tu_command_names TU_DIAL_CMD)
      then parse_dial buffer saved
      else parse_chat bytes_read buffer temp_buffer cmd
  end.

(** One iteration of the service loop on the bytes of a successful [read]:
    [true] when the loop goes on to read the rest of a chat. *)
Definition service_iteration (teleunit : option positive) (input : list ascii)
    : M bool :=
  match parse_command input with
  | None => undefined
  | Some CmdNone => ret false
  | Some CmdPickup => tu_pickup teleunit ;;; ret false
  | Some CmdHangup => tu_hangup teleunit ;;; ret false
  | Some (CmdDial ext_num) => pbx_dial teleunit ext_num ;;; ret false
  | Some (CmdChat msg last_read) =>
      tu_chat teleunit (Some (string_of_list_ascii msg)) ;;; ret (negb last_read)
  end.

(** One pass of the inner [while (!last_read)] loop on the bytes of the next
    [read]: [true] when one more pass follows. *)
Definition chat_continuation (teleunit : option positive) (input : list ascii)
    : M bool :=
  let bytes_read := Z.of_nat (List.length input) in
  match crlf_at input (bytes_read - 2) with
  | None => undefined
  | Some last_read =>
      let buffer :=
        if last_read
        then <[Z.to_nat (bytes_read - 2) := NUL]> input
        else input ++ [NUL] in
      tu_chat teleunit (Some (string_of_list_ascii (cstr buffer))) ;;;
      ret (negb last_read)
  end.

(** [read] returned [0] or an error: the session hangs up, leaves the loop
    and unregisters. *)
Definition service_eof (teleunit : option positive) : M Z :=
  tu_hangup teleunit ;;;
  pbx_unregister teleunit.

(** ** The command line ([src/main.c]) *)

Definition EXIT_FAILURE : Z := 1.

Inductive main_result : Type :=
| Exit (status : Z) (stderr : string)  (* [exit(status)] after the diagnostic *)
| Serve (port : string).               (* goes on to [open_listenfd(port)] *)

(** [main], up to the choice of the port; [argv] holds [argc] strings. *)
Definition main (argv : list string) : main_result :=
  let argc := Z.of_nat (List.length argv) in
  if negb (argc =? 1) && negb (argc =? 3)
  then
    Exit EXIT_FAILURE
      ("Invalid number of command-line arguments.  Got: " +:+ pretty argc
       +:+ ", Exp: 1 or 3" +:+ LF)
  else
    match argv with
    | [_; flag; arg] =>
        if negb (String.eqb "-p" flag)
        then
          Exit EXIT_FAILURE
            ("Invalid flag detected.  Got: " +:+ flag +:+ ", Exp: -p" +:+ LF)
        else
          let '(v, endoff) := strtol (bytes arg) in
          let port_num := to_int v in
          if negb (Nat.eqb endoff (String.length arg)) || (port_num <? 1024)
          then
            Exit EXIT_FAILURE
              ("Invalid port argument or number (must be >= 1024): Got: "
               +:+ arg +:+ LF)
          else Serve arg
    | _ => Serve "3000"
    end.

(** ** Numerals *)

(** A leading [-] or [+], and what follows it. *)
Definition strip_sign (l : list ascii) : bool * list ascii :=
  match l with
  | c :: r =>
      if Ascii.eqb c "-" then (true, r)
      else if Ascii.eqb c "+" then (false, r)
      else (false, l)
  | [] => (false, [])
  end.


(** The integer that a numeral denotes. *)
Definition numeral_value (l : list ascii) : Z :=
  let '(neg, ds) := strip_sign (drop (span isspace l) l) in
  if neg then - decimal ds else decimal ds.


(** The [int] that [main] holds for the numeral [arg]: the value, clamped to
    [long] by [strtol] and then converted to [int]. *)
Definition port_number (arg : string) : Z :=
  to_int (Z.max LONG_MIN (Z.min LONG_MAX (numeral_value (bytes arg)))).


(** ** Sessions and reachable worlds *)

(** The start of [pbx_client_service] for the connection [connfd], up to the
    service loop: the TU is created and registered on the extension
    [connfd].  [alloc] is what [calloc] returns in [tu_init]. *)
Definition connect (alloc : option positive) (connfd : Z) : M Z :=
  let* teleunit := tu_init alloc connfd in
  if is_null teleunit
  then
    fprintf_stderr
      ("Failed to successfully create telephone unit. Client ID:"
       +:+ pretty connfd +:+ LF) ;;;
    ret (-1)
  else
    let* r := pbx_register teleunit connfd in
    if negb (r =? 0)
    then
      fprintf_stderr
        ("Failed to successfully regester telephone unit on PBX.  Client ID:"
         +:+ pretty connfd +:+ LF) ;;;
      ret (-1)
    else ret 0.

(** A new connection, and the calls a session makes on behalf of its
    client. *)
Inductive session_op : Type :=
| OpConnect (tu : positive) (connfd : Z)
| OpPickup (tu : positive)
| OpHangup (tu : positive)
| OpDial (tu : positive) (ext_num : Z)
| OpChat (tu : positive) (msg : string).

Definition exec (o : session_op) : M Z :=
  match o with
  | OpConnect a connfd => connect (Some a) connfd
  | OpPickup a => tu_pickup (Some a)
  | OpHangup a => tu_hangup (Some a)
  | OpDial a e => pbx_dial (Some a) e
  | OpChat a m => tu_chat (Some a) (Some m)
  end.

Fixpoint run_ops (ops : list session_op) (w : world) : option world :=
  match ops with
  | [] => Some w
  | o :: ops' =>
      match exec o w with
      | Ret _ w' => run_ops ops' w'
      | _ => None
      end
  end.

Definition world0 : world := mkWorld ∅ None [] [].

(** The worlds that the server reaches from start-up by completed calls. *)
Inductive reachable : world -> Prop :=
| reach_boot w :
    pbx_init true world0 = Ret tt w -> reachable w
| reach_op w o r w' :
    reachable w -> exec o w = Ret r w' -> reachable w'.

(** No semaphore is taken. *)
Definition quiescent (w : world) : Prop :=
  (forall a t, heap w !! a = Some t -> tu_mutex t = 1) /\
  (forall p, pbx w = Some p -> pbx_mutex p = 1 /\ entries_mutex p = 1).

Definition in_call (s : TU_STATE) : bool :=
  match s with
  | TU_RINGING | TU_RING_BACK | TU_CONNECTED => true
  | _ => false
  end.

(** [peer] is non-null exactly in the states RINGING, RING_BACK, CONNECTED. *)
Definition peer_consistent (w : world) : Prop :=
  forall a t, heap w !! a = Some t ->
    (peer t <> None <-> in_call (state t) = true).

(** If [A.peer = B] then [B.peer = A]. *)
Definition peer_symmetric (w : world) : Prop :=
  forall a b ta, heap w !! a = Some ta -> peer ta = Some b ->
    exists tb, heap w !! b = Some tb /\ peer tb = Some a.

(** ** Lock discipline on a trace *)

Definition lock_eqb (x y : lock) : bool :=
  match x, y with
  | TuLock a, TuLock b => (a =? b)%positive
  | PbxMutex, PbxMutex => true
  | EntriesMutex, EntriesMutex => true
  | _, _ => false
  end.

Fixpoint release (l : lock) (held : list lock) : list lock :=
  match held with
  | [] => []
  | h :: held' => if lock_eqb l h then held' else h :: release l held'
  end.

(** Every TU lock in [held] has a lower address than [a]. *)
Definition lower_first (held : list lock) (a : positive) : bool :=
  forallb (fun l => match l with TuLock b => (b <? a)%positive | _ => true end)
    held.

Definition registry_held (held : list lock) : bool :=
  existsb (lock_eqb PbxMutex) held.

(** The locks held after the events [evs], starting from [held]. *)
Fixpoint held_after (held : list lock) (evs : list event) : list lock :=
  match evs with
  | [] => held
  | EWait l :: evs' => held_after (l :: held) evs'
  | EPost l :: evs' => held_after (release l held) evs'
  | _ :: evs' => held_after held evs'
  end.

(** Each TU lock is requested while only lower TU locks are held. *)
Fixpoint tu_order_ok (held : list lock) (evs : list event) : bool :=
  match evs with
  | [] => true
  | EWait (TuLock a) :: evs' =>
      lower_first held a && tu_order_ok (TuLock a :: held) evs'
  | EWait l :: evs' => tu_order_ok (l :: held) evs'
  | EPost l :: evs' => tu_order_ok (release l held) evs'
  | _ :: evs' => tu_order_ok held evs'
  end.

(** No TU lock is requested while the registry lock [pbx_mutex] is held. *)
Fixpoint leaf_lock_ok (held : list lock) (evs : list event) : bool :=
  match evs with
  | [] => true
  | EWait (TuLock a) :: evs' =>
      negb (registry_held held) && leaf_lock_ok (TuLock a :: held) evs'
  | EWait l :: evs' => leaf_lock_ok (l :: held) evs'
  | EPost l :: evs' => leaf_lock_ok (release l held) evs'
  | _ :: evs' => leaf_lock_ok held evs'
  end.

(** The events that a call appended to the trace [tr]; a call that blocks has
    events too, an undefined one has none to speak of. *)
Definition new_events {A} (tr : list event) (o : outcome A) : option (list event) :=
  match o with
  | Ret _ w' => Some (drop (List.length tr) (trace w'))
  | Blocked w' => Some (drop (List.length tr) (trace w'))
  | Undefined => None
  end.

(** The call [m] only appends events; the events keep the order of the TU
    locks when the locks [held] are held at its start; and when [m] returns,
    the locks held are [held']. *)
Definition keeps_order {A} (held : list lock) (m : M A) (held' : list lock)
    : Prop :=
  forall w,
    match m w with
    | Ret _ w' =>
        exists evs, trace w' = trace w ++ evs /\
                    tu_order_ok held evs = true /\
                    held_after held evs = held'
    | Blocked w' =>
        exists evs, trace w' = trace w ++ evs /\ tu_order_ok held evs = true
    | Undefined => True
    end.

(** The lines written to descriptor [f], in order. *)
Definition lines_to (f : Z) (evs : list event) : list string :=
  omap (fun e => match e with
                 | EWrite f' buf _ => if f' =? f then Some buf else None
                 | _ => None
                 end) evs.

(** The order in which [tu_dial] requests the two locks. *)
Definition dial_lock_events (a b : positive) : list event :=
  if (a <? b)%positive
  then [EWait (TuLock a); EWait (TuLock b)]
  else [EWait (TuLock b); EWait (TuLock a)].

(** ** Weakest preconditions for terminating calls *)

Definition wp {A} (m : M A) (w : world) (Q : A -> world -> Prop) : Prop :=
  match m w with
  | Ret a w' => Q a w'
  | _ => False
  end.

(** ** Example worlds *)

Definition A1 : positive := 1%positive.
Definition A2 : positive := 2%positive.
Definition A3 : positive := 3%positive.

(** The world in which a call leaves the server, whether it returned or
    blocked. *)
Definition after {A} (m : M A) (w : world) : world :=
  match m w with
  | Ret _ w' => w'
  | Blocked w' => w'
  | Undefined => w
  end.

(** The server after [pbx_init], before any connection. *)
Definition boot_world : world := after (pbx_init true) world0.

(** Three clients on descriptors 4, 5 and 6, with their units at [A1], [A2]
    and [A3], registered and on hook. *)
Definition three_clients : world :=
  after (connect (Some A1) 4 ;;; connect (Some A2) 5 ;;; connect (Some A3) 6)
    boot_world.

(** Client 1 picked up and hears the dial tone. *)
Definition dial_tone_world : world :=
  after (tu_pickup (Some A1)) three_clients.

(** Client 2 picked up and dialled extension 4: unit [A1] rings, unit [A2]
    hears the ring-back tone. *)
Definition ringing_world : world :=
  after (tu_pickup (Some A2) ;;; pbx_dial (Some A2) 4) three_clients.

(** Client 1 picked up and dialled extension 5: unit [A2] rings, and its
    peer [A1] has the lower address. *)
Definition incoming_call_world : world :=
  after (tu_pickup (Some A1) ;;; pbx_dial (Some A1) 5) three_clients.

(** The call of [incoming_call_world], answered. *)
Definition connected_world : world :=
  after (tu_pickup (Some A2)) incoming_call_world.

(** The call of [incoming_call_world], given up by the caller before it was
    answered. *)
Definition abandoned_call_world : world :=
  after (tu_hangup (Some A1)) incoming_call_world.

(** The same world as a run of session calls from [boot_world]. *)
Definition abandoned_call : list session_op :=
  [OpConnect A1 4; OpConnect A2 5; OpConnect A3 6;
   OpPickup A1; OpDial A1 5; OpHangup A1].

(** After the abandoned call, client 3 picked up. *)
Definition stale_peer_world : world :=
  after (tu_pickup (Some A3)) abandoned_call_world.

(** And then client 3 dialled extension 5. *)
Definition asymmetric_world : world :=
  after (pbx_dial (Some A3) 5) stale_peer_world.

(** ** Notification lines *)

(** The line that [send_to_client] formats for the state of the unit [t]
    when it is given no chat message: the state name, followed by the unit's
    extension when it is ON HOOK and by the peer's extension when it is
    CONNECTED.  [None]: the unit is CONNECTED and has no live peer. *)
Definition notification (h : gmap positive TU) (t : TU) : option string :=
  match state t with
  | TU_CONNECTED =>
      match peer t with
      | Some b =>
          match h !! b with
          | Some tb => Some ("CONNECTED " +:+ pretty (ext tb) +:+ LF)
          | None => None
          end
      | None => None
      end
  | TU_ON_HOOK => Some ("ON HOOK " +:+ pretty (ext t) +:+ LF)
  | s => Some (tu_state_names s +:+ LF)
  end.

(** The world [w] after the diagnostics [msgs] went to standard error and
    nothing else happened. *)
Definition stderr_only (w : world) (msgs : list string) : world :=
  mkWorld (heap w) (pbx w) (trace w ++ map EStderr msgs) (broken w).

(** ** Runs of session calls *)

(** Every call of the run returns, and [Q] holds of the last world. *)
Fixpoint wp_ops (ops : list session_op) (w : world) (Q : world -> Prop) : Prop :=
  match ops with
  | [] => Q w
  | o :: ops' => wp (exec o) w (fun _ w1 => wp_ops ops' w1 Q)
  end.

(** ** Tokens of a command line *)

(** The bytes [rest] that follow a token end it: the input ends there, or a
    space or a NUL follows. *)
Definition token_end (rest : list ascii) : bool :=
  match rest with
  | [] => true
  | c :: _ => negb (token_char c)
  end.

(** A minus sign, or nothing. *)
Definition sign_bytes (neg : bool) : list ascii :=
  if neg then ["-"%char] else [].

(** The token starts with one of the four command keywords. *)
Definition keyword_prefix (tok : list ascii) : bool :=
  existsb (fun c => list_ascii_eqb (take (List.length (tu_command_names c)) tok)
                      (tu_command_names c))
    [TU_PICKUP_CMD; TU_HANGUP_CMD; TU_DIAL_CMD; TU_CHAT_CMD].

(** ** The calls of the server *)





(** ** Invariants *)











(** ** Partial correctness *)

(** If the call [m] returns from [w], then [Q] holds of its result. *)
Definition wpp {A} (m : M A) (w : world) (Q : A -> world -> Prop) : Prop :=
  match m w with
  | Ret a w' => Q a w'
  | _ => True
  end.

(** ** More example worlds *)

(** The registry after start-up, and the registry of [three_clients]. *)
Definition boot_registry : PBX :=
  mkPBX 0 1 1 (replicate (Z.to_nat PBX_MAX_EXTENSIONS) None).

Definition three_registry : PBX :=
  mkPBX 3 1 1
    (<[6%nat := Some A3]> (<[5%nat := Some A2]> (<[4%nat := Some A1]>
       (replicate (Z.to_nat PBX_MAX_EXTENSIONS) None)))).

(** A unit for descriptor 4 that [tu_init] made and nobody registered. *)
Definition unplugged_world : world :=
  after (tu_init (Some A1) 4) boot_world.

(** The most that one [read] of the service loop returns, [BUFFER - 1] bytes,
    here without a line end. *)
Definition full_chunk : list ascii :=
  replicate (Z.to_nat (BUFFER - 3)) "x"%char ++ ["x"%char; "x"%char].


(** * Symbolic execution *)


Lemma wp_elim {A} (m : M A) w Q :
  wp m w Q -> exists a w', m w = Ret a w' /\ Q a w'.
Proof. unfold wp. destruct (m w); [eauto | tauto | tauto]. Qed.

Lemma wp_bind {A B} (m : M A) (k : A -> M B) w Q :
  wp m w (fun a w' => wp (k a) w' Q) -> wp (bind m k) w Q.
Proof. unfold wp, bind. destruct (m w); tauto. Qed.

Lemma wp_ret {A} (a : A) w (Q : A -> world -> Prop) : Q a w -> wp (ret a) w Q.
Proof. exact id. Qed.

Lemma wp_emit e h p tr br (Q : unit -> world -> Prop) :
  Q tt (mkWorld h p (tr ++ [e]) br) -> wp (emit e) (mkWorld h p tr br) Q.
Proof. exact id. Qed.

Lemma wp_load a t h p tr br (Q : TU -> world -> Prop) :
  h !! a = Some t -> Q t (mkWorld h p tr br) ->
  wp (load (Some a)) (mkWorld h p tr br) Q.
Proof. intros H HQ. unfold wp, load. simpl. rewrite H. exact HQ. Qed.

Lemma wp_store a t' h p tr br (Q : unit -> world -> Prop) :
  is_Some (h !! a) -> Q tt (mkWorld (<[a := t']> h) p tr br) ->
  wp (store a t') (mkWorld h p tr br) Q.
Proof. intros [t H] HQ. unfold wp, store. simpl. rewrite H. exact HQ. Qed.

Lemma wp_write f buf h p tr br (Q : bool -> world -> Prop) :
  Q (write_ok br f)
    (mkWorld h p (tr ++ [EWrite f buf (write_ok br f)]) br) ->
  wp (write f buf) (mkWorld h p tr br) Q.
Proof. exact id. Qed.

Lemma wp_load_pbx x h tr br (Q : PBX -> world -> Prop) :
  Q x (mkWorld h (Some x) tr br) -> wp load_pbx (mkWorld h (Some x) tr br) Q.
Proof. exact id. Qed.

Lemma wp_store_pbx x h p tr br (Q : unit -> world -> Prop) :
  Q tt (mkWorld h (Some x) tr br) -> wp (store_pbx x) (mkWorld h p tr br) Q.
Proof. exact id. Qed.

Lemma wp_pbx_is_null h p tr br (Q : bool -> world -> Prop) :
  Q (match p with None => true | Some _ => false end) (mkWorld h p tr br) ->
  wp pbx_is_null (mkWorld h p tr br) Q.
Proof. exact id. Qed.

Lemma wp_conseq {A} (m : M A) w (Q Q' : A -> world -> Prop) :
  wp m w Q -> (forall a w', Q a w' -> Q' a w') -> wp m w Q'.
Proof. unfold wp. destruct (m w); auto. Qed.

Lemma wp_read_entry e slot x h tr br (Q : option positive -> world -> Prop) :
  0 <= e ->
  pbx_entries x !! Z.to_nat e = Some slot ->
  Q slot (mkWorld h (Some x) tr br) ->
  wp (read_entry e) (mkWorld h (Some x) tr br) Q.
Proof.
  intros He Hslot HQ. unfold read_entry.
  apply wp_bind, wp_load_pbx.
  pose proof (lookup_lt_Some _ _ _ Hslot) as Hlt.
  replace ((0 <=? e) && (e <? Z.of_nat (List.length (pbx_entries x)))) with true
    by lia.
  rewrite Hslot. exact HQ.
Qed.

(** Lookups in a heap built from inserts at known addresses. *)
Ltac lk :=
  repeat first
    [ rewrite lookup_insert_eq
    | rewrite lookup_insert_ne
        by (first [assumption | apply not_eq_sym; assumption | discriminate]) ];
  first [eassumption | reflexivity | eexists; eassumption | eexists; reflexivity].

Ltac tu_simpl :=
  cbn [state fd ext peer references tu_mutex set_state set_peer set_references
       set_ext set_tu_mutex is_null negb andb orb
       num_entries entries_mutex pbx_mutex pbx_entries set_num_entries
       set_entries_mutex set_pbx_mutex set_pbx_entries];
  repeat match goal with
  | |- context [state_eqb ?x ?y] =>
      let v := eval vm_compute in (state_eqb x y) in
      lazymatch v with
      | true => change (state_eqb x y) with true
      | false => change (state_eqb x y) with false
      end
  end;
  cbn [negb andb orb].

Ltac wp_if :=
  lazymatch goal with
  | |- wp (if ?c then _ else _) _ _ =>
      first [ replace c with true
                by (unfold INT_MAX, INT_MIN, BUFFER, PBX_MAX_EXTENSIONS in *; lia)
            | replace c with false
                by (unfold INT_MAX, INT_MIN, BUFFER, PBX_MAX_EXTENSIONS in *; lia) ]
  end.

Ltac wp_step :=
  lazymatch goal with
  | |- wp (bind _ _) _ _ => apply wp_bind
  | |- wp (ret _) _ _ => apply wp_ret
  | |- wp (emit _) _ _ => apply wp_emit
  | |- wp (fprintf_stderr _) _ _ => apply wp_emit
  | |- wp (load (Some _)) _ _ => eapply wp_load; [lk |]
  | |- wp (store _ _) _ _ => eapply wp_store; [lk |]
  | |- wp (write _ _) _ _ => apply wp_write
  | |- wp load_pbx _ _ => apply wp_load_pbx
  | |- wp (store_pbx _) _ _ => apply wp_store_pbx
  | |- wp pbx_is_null _ _ => apply wp_pbx_is_null
  | |- wp (modify _ _) _ _ => unfold modify
  | |- wp (get_state _) _ _ => unfold get_state
  | |- wp (get_peer _) _ _ => unfold get_peer
  | |- wp (sem_wait_tu _) _ _ => unfold sem_wait_tu
  | |- wp (sem_post_tu _) _ _ => unfold sem_post_tu
  | |- wp sem_wait_pbx_mutex _ _ => unfold sem_wait_pbx_mutex
  | |- wp sem_post_pbx_mutex _ _ => unfold sem_post_pbx_mutex
  | |- wp sem_wait_entries_mutex _ _ => unfold sem_wait_entries_mutex
  | |- wp sem_post_entries_mutex _ _ => unfold sem_post_entries_mutex
  | |- wp (send_to_client _ _ _) _ _ => unfold send_to_client
  | |- wp (tu_ref _) _ _ => unfold tu_ref
  | |- wp (tu_unref _) _ _ => unfold tu_unref
  | |- wp (read_entry _) _ _ => eapply wp_read_entry; [lia | eassumption |]
  | |- wp (write_entry _ _) _ _ => unfold write_entry
  | |- wp (tu_set_extension _ _) _ _ => unfold tu_set_extension
  | |- wp (if _ then _ else _) _ _ => wp_if
  end.

Ltac wp_run := repeat (wp_step; tu_simpl).

(** Bring a world and the TUs named in the hypotheses into constructor
    form. *)
Ltac fields :=
  cbn [heap pbx trace broken state fd ext peer references tu_mutex
       num_entries entries_mutex pbx_mutex pbx_entries] in *.

(** * The call state machine *)

Lemma mutex_restored (m : Z) : m - 1 + 1 = m.
Proof. lia. Qed.

(** C7: two pickups in a row on an ON_HOOK unit: both return, the first moves
    the unit to DIAL_TONE, the second leaves the whole heap as it is, and the
    client is sent exactly the two lines DIAL TONE, DIAL TONE. *)
Theorem C7_pickup_twice (w : world) (a : positive) (t : TU) :
  heap w !! a = Some t ->
  state t = TU_ON_HOOK ->
  0 < tu_mutex t ->
  0 <= fd t ->
  exists w1 w2,
    tu_pickup (Some a) w
      = Ret (if write_ok (broken w) (fd t) then 0 else -1) w1 /\
    tu_pickup (Some a) w1
      = Ret (if write_ok (broken w) (fd t) then 0 else -1) w2 /\
    heap w1 = <[a := set_state TU_DIAL_TONE t]> (heap w) /\
    heap w2 = heap w1 /\
    trace w2 = trace w ++
      [EWait (TuLock a);
       EWrite (fd t) ("DIAL TONE" +:+ LF) (write_ok (broken w) (fd t));
       EPost (TuLock a);
       EWait (TuLock a);
       EWrite (fd t) ("DIAL TONE" +:+ LF) (write_ok (broken w) (fd t));
       EPost (TuLock a)] /\
    lines_to (fd t) (drop (List.length (trace w)) (trace w2))
      = ["DIAL TONE" +:+ LF; "DIAL TONE" +:+ LF].
Proof.
  intros Ha Hs Hm Hf.
  destruct w as [h p tr br], t as [m s r e f pe].
  fields. subst s.
  set (ok := write_ok br f).
  set (line := EWrite f ("DIAL TONE" +:+ LF) ok).
  set (h1 := <[a := mkTU m TU_DIAL_TONE r e f pe]> h).
  assert (H1 : wp (tu_pickup (Some a)) (mkWorld h p tr br)
            (fun r1 w1 =>
               r1 = (if ok then 0 else -1) /\
               w1 = mkWorld h1 p (tr ++ [EWait (TuLock a); line; EPost (TuLock a)]) br)).
  { unfold tu_pickup. tu_simpl. wp_run.
    rewrite mutex_restored, !insert_insert_eq, <- !app_assoc.
    split; [fold ok; destruct ok|]; reflexivity. }
  apply wp_elim in H1 as (r1 & w1 & E1 & -> & ->).
  assert (H2 : wp (tu_pickup (Some a))
                 (mkWorld h1 p (tr ++ [EWait (TuLock a); line; EPost (TuLock a)]) br)
            (fun r2 w2 =>
               r2 = (if ok then 0 else -1) /\
               w2 = mkWorld h1 p
                      ((tr ++ [EWait (TuLock a); line; EPost (TuLock a)])
                       ++ [EWait (TuLock a); line; EPost (TuLock a)]) br)).
  { unfold tu_pickup, h1. tu_simpl. wp_run.
    rewrite mutex_restored, !insert_insert_eq, <- !app_assoc.
    split; [fold ok; destruct ok|]; reflexivity. }
  apply wp_elim in H2 as (r2 & w2 & E2 & -> & ->).
  do 2 eexists. rewrite E1. split; [reflexivity|]. rewrite E2.
  split; [reflexivity|]. cbn [heap trace].
  repeat split.
  - rewrite <- app_assoc. reflexivity.
  - rewrite <- app_assoc, drop_app_length. cbn.
    rewrite Z.eqb_refl. reflexivity.
Qed.

Lemma C7_pickup_twice_witness :
  exists w1 w2,
    tu_pickup (Some A1) three_clients = Ret 0 w1 /\
    tu_pickup (Some A1) w1 = Ret 0 w2 /\
    heap w1 = <[A1 := set_state TU_DIAL_TONE (mkTU 1 TU_ON_HOOK 1 4 4 None)]>
                (heap three_clients) /\
    heap w2 = heap w1 /\
    trace w2 = trace three_clients ++
      [EWait (TuLock A1); EWrite 4 ("DIAL TONE" +:+ LF) true; EPost (TuLock A1);
       EWait (TuLock A1); EWrite 4 ("DIAL TONE" +:+ LF) true; EPost (TuLock A1)] /\
    lines_to 4 (drop (List.length (trace three_clients)) (trace w2))
      = ["DIAL TONE" +:+ LF; "DIAL TONE" +:+ LF].
Proof.
  apply (C7_pickup_twice three_clients A1 (mkTU 1 TU_ON_HOOK 1 4 4 None));
    try (vm_compute; reflexivity); cbn; lia.
Defined.

(** Equality of two heaps that differ from a common heap at the addresses
    [a] and [b]. *)
Ltac heap_eq a b :=
  cbv [set_state set_peer set_references set_ext set_tu_mutex];
  cbn [state fd ext peer references tu_mutex];
  apply map_eq; intros ?k;
  destruct (decide (k = a)) as [-> | ?];
  [ | destruct (decide (k = b)) as [-> | ?] ];
  repeat first
    [ rewrite lookup_insert_eq
    | rewrite lookup_insert_ne by congruence ];
  repeat match goal with
  | H : ?h !! ?k = Some _ |- context [?h !! ?k] => rewrite H
  end;
  try reflexivity;
  repeat f_equal; lia.

Lemma hangup_with_peer (h : gmap positive TU) p tr br (a b : positive)
    ma sa ra ea fa mb sb rb eb fb pb :
  h !! a = Some (mkTU ma sa ra ea fa (Some b)) ->
  h !! b = Some (mkTU mb sb rb eb fb pb) ->
  a <> b ->
  sa = TU_RINGING \/ sa = TU_CONNECTED ->
  0 < ma -> 0 < mb -> 1 < ra -> 1 < rb -> 0 <= fa -> 0 <= fb ->
  wp (tu_hangup (Some a)) (mkWorld h p tr br)
    (fun r w' =>
       r = status2 (if write_ok br fa then 0 else -1)
                   (if write_ok br fb then 0 else -1) /\
       w' = mkWorld
              (<[a := mkTU ma TU_ON_HOOK (ra - 1) ea fa None]>
                 (<[b := mkTU mb TU_DIAL_TONE (rb - 1) eb fb None]> h))
              p
              (tr ++ [EWait (TuLock a); EWait (TuLock b);
                      EWrite fa ("ON HOOK " +:+ pretty ea +:+ LF)
                        (write_ok br fa);
                      EWrite fb ("DIAL TONE" +:+ LF)
                        (write_ok br fb);
                      EPost (TuLock b); EPost (TuLock a)])
              br).
Proof.
  intros Ha Hb Hab Hs Hma Hmb Hra Hrb Hfa Hfb.
  unfold tu_hangup. tu_simpl.
  destruct Hs as [-> | ->]; wp_run.
  all: split; [reflexivity|].
  all: f_equal; [heap_eq a b | rewrite <- !app_assoc; reflexivity].
Qed.

(** C1 (amended): hanging up a RINGING unit puts it ON_HOOK and puts its peer
    in DIAL_TONE, the same as hanging up a CONNECTED unit; the peering is
    dissolved and each client is sent its new state. *)
Theorem C1_hangup_ringing_peer_dial_tone (w : world) (a b : positive) (ta tb : TU) :
  heap w !! a = Some ta ->
  heap w !! b = Some tb ->
  a <> b ->
  state ta = TU_RINGING ->
  peer ta = Some b ->
  state tb = TU_RING_BACK ->
  0 < tu_mutex ta -> 0 < tu_mutex tb ->
  1 < references ta -> 1 < references tb ->
  0 <= fd ta -> 0 <= fd tb ->
  exists w',
    tu_hangup (Some a) w
      = Ret (status2 (if write_ok (broken w) (fd ta) then 0 else -1)
                     (if write_ok (broken w) (fd tb) then 0 else -1)) w' /\
    heap w' !! a =
      Some (set_peer None
              (set_references (references ta - 1) (set_state TU_ON_HOOK ta))) /\
    heap w' !! b =
      Some (set_peer None
              (set_references (references tb - 1) (set_state TU_DIAL_TONE tb))) /\
    trace w' = trace w ++
      [EWait (TuLock a); EWait (TuLock b);
       EWrite (fd ta) ("ON HOOK " +:+ pretty (ext ta) +:+ LF)
         (write_ok (broken w) (fd ta));
       EWrite (fd tb) ("DIAL TONE" +:+ LF) (write_ok (broken w) (fd tb));
       EPost (TuLock b); EPost (TuLock a)].
Proof.
  intros Ha Hb Hab Hsa Hpa Hsb Hma Hmb Hra Hrb Hfa Hfb.
  destruct w as [h p tr br], ta as [ma sa ra ea fa pa], tb as [mb sb rb eb fb pb].
  fields. subst sa pa sb.
  destruct (wp_elim _ _ _
    (hangup_with_peer h p tr br a b _ _ _ _ _ _ _ _ _ _ _
       Ha Hb Hab (or_introl eq_refl) Hma Hmb Hra Hrb Hfa Hfb))
    as (r1 & w' & E & -> & ->).
  eexists. split; [exact E|]. cbn [heap trace].
  split; [lk|]. split; [lk|]. reflexivity.
Qed.

Lemma C1_hangup_ringing_peer_dial_tone_witness :
  exists w',
    tu_hangup (Some A1) ringing_world = Ret 0 w' /\
    heap w' !! A1 = Some (mkTU 1 TU_ON_HOOK 1 4 4 None) /\
    heap w' !! A2 = Some (mkTU 1 TU_DIAL_TONE 1 5 5 None) /\
    trace w' = trace ringing_world ++
      [EWait (TuLock A1); EWait (TuLock A2);
       EWrite 4 ("ON HOOK " +:+ pretty 4 +:+ LF) true;
       EWrite 5 ("DIAL TONE" +:+ LF) true;
       EPost (TuLock A2); EPost (TuLock A1)].
Proof.
  apply (C1_hangup_ringing_peer_dial_tone ringing_world A1 A2
           (mkTU 1 TU_RINGING 2 4 4 (Some A2))
           (mkTU 1 TU_RING_BACK 2 5 5 (Some A1)));
    try (vm_compute; reflexivity); try (cbn; lia); discriminate.
Defined.

(** C1, as stated, fails: in [ringing_world] unit [A1] is RINGING and its
    peer [A2] is in RING_BACK; after [A1] hangs up, [A2] is in DIAL_TONE, not
    ON_HOOK. *)
Lemma C1_counterexample :
  (state <$> heap ringing_world !! A1) = Some TU_RINGING /\
  (peer <$> heap ringing_world !! A1) = Some (Some A2) /\
  (state <$> heap ringing_world !! A2) = Some TU_RING_BACK /\
  exists r w',
    tu_hangup (Some A1) ringing_world = Ret r w' /\
    (state <$> heap w' !! A1) = Some TU_ON_HOOK /\
    (state <$> heap w' !! A2) = Some TU_DIAL_TONE /\
    (state <$> heap w' !! A2) <> Some TU_ON_HOOK.
Proof.
  repeat split; try (vm_compute; reflexivity).
  eexists _, _. split; [vm_compute; reflexivity|].
  repeat split; try (vm_compute; reflexivity).
  vm_compute. discriminate.
Qed.

Lemma hangup_ring_back (h : gmap positive TU) p tr br (a b : positive)
    ma ra ea fa mb sb rb eb fb pb :
  h !! a = Some (mkTU ma TU_RING_BACK ra ea fa (Some b)) ->
  h !! b = Some (mkTU mb sb rb eb fb pb) ->
  a <> b ->
  0 < ma -> 0 < mb -> 0 <= fa -> 0 <= fb ->
  wp (tu_hangup (Some a)) (mkWorld h p tr br)
    (fun _ w' =>
       heap w' = <[a := mkTU ma TU_ON_HOOK ra ea fa (Some b)]>
                   (<[b := mkTU mb TU_ON_HOOK rb eb fb pb]> h)).
Proof.
  intros Ha Hb Hab Hma Hmb Hfa Hfb.
  unfold tu_hangup. tu_simpl. wp_run. cbn [heap]. heap_eq a b.
Qed.

(** C2: the RING_BACK branch of [tu_hangup] puts both units ON_HOOK and sends
    both notifications, but it leaves both reference counts and both [peer]
    fields as they were: the peering is not dissolved. *)
Theorem C2_hangup_ring_back_keeps_refs_and_peers
    (w : world) (a b : positive) (ta tb : TU) :
  heap w !! a = Some ta ->
  heap w !! b = Some tb ->
  a <> b ->
  state ta = TU_RING_BACK ->
  peer ta = Some b ->
  0 < tu_mutex ta -> 0 < tu_mutex tb ->
  0 <= fd ta -> 0 <= fd tb ->
  exists r w',
    tu_hangup (Some a) w = Ret r w' /\
    heap w' = <[a := set_state TU_ON_HOOK ta]>
                (<[b := set_state TU_ON_HOOK tb]> (heap w)) /\
    (references <$> heap w' !! a) = Some (references ta) /\
    (references <$> heap w' !! b) = Some (references tb) /\
    (peer <$> heap w' !! a) = Some (Some b) /\
    (peer <$> heap w' !! b) = Some (peer tb).
Proof.
  intros Ha Hb Hab Hsa Hpa Hma Hmb Hfa Hfb.
  destruct w as [h p tr br], ta as [ma sa ra ea fa pa], tb as [mb sb rb eb fb pb].
  fields. subst sa pa.
  destruct (wp_elim _ _ _
    (hangup_ring_back h p tr br a b _ _ _ _ _ _ _ _ _ _
       Ha Hb Hab Hma Hmb Hfa Hfb)) as (r1 & w' & E & Hh).
  exists r1, w'. split; [exact E|]. rewrite Hh. cbn.
  split; [reflexivity|].
  rewrite lookup_insert_eq, (lookup_insert_ne _ a b) by exact Hab.
  rewrite lookup_insert_eq. cbn. auto.
Qed.

Lemma C2_hangup_ring_back_keeps_refs_and_peers_witness :
  exists r w',
    tu_hangup (Some A2) ringing_world = Ret r w' /\
    heap w' = <[A2 := set_state TU_ON_HOOK (mkTU 1 TU_RING_BACK 2 5 5 (Some A1))]>
                (<[A1 := set_state TU_ON_HOOK (mkTU 1 TU_RINGING 2 4 4 (Some A2))]>
                   (heap ringing_world)) /\
    (references <$> heap w' !! A2) = Some 2 /\
    (references <$> heap w' !! A1) = Some 2 /\
    (peer <$> heap w' !! A2) = Some (Some A1) /\
    (peer <$> heap w' !! A1) = Some (Some A2).
Proof.
  apply (C2_hangup_ring_back_keeps_refs_and_peers ringing_world A2 A1
           (mkTU 1 TU_RING_BACK 2 5 5 (Some A1))
           (mkTU 1 TU_RINGING 2 4 4 (Some A2)));
    try (vm_compute; reflexivity); try (cbn; lia); discriminate.
Defined.

(** C6: [tu_chat] on a unit that is not CONNECTED returns -1 and writes
    nothing, and it returns with the unit's semaphore still taken: the only
    event is the [sem_wait], and the counter stays decremented. *)
Theorem C6_chat_not_connected_keeps_lock
    (w : world) (a : positive) (t : TU) (msg : option string) :
  heap w !! a = Some t ->
  state t <> TU_CONNECTED ->
  0 < tu_mutex t ->
  tu_chat (Some a) msg w =
    Ret (-1)
      (mkWorld (<[a := set_tu_mutex (tu_mutex t - 1) t]> (heap w))
         (pbx w) (trace w ++ [EWait (TuLock a)]) (broken w)).
Proof.
  intros Ha Hs Hm.
  destruct w as [h p tr br], t as [m s r e f pe]. cbn in Ha, Hs, Hm |- *.
  assert (H : wp (tu_chat (Some a) msg) (mkWorld h p tr br)
            (fun r1 w' =>
               r1 = -1 /\
               w' = mkWorld (<[a := mkTU (m - 1) s r e f pe]> h) p
                      (tr ++ [EWait (TuLock a)]) br)).
  { unfold tu_chat. tu_simpl.
    destruct s; try congruence; wp_run; split; reflexivity. }
  apply wp_elim in H as (r1 & w' & E & -> & ->). exact E.
Qed.

Lemma C6_chat_not_connected_keeps_lock_witness :
  tu_chat (Some A1) (Some "CHAT hi"%string) three_clients =
    Ret (-1)
      (mkWorld (<[A1 := set_tu_mutex (1 - 1) (mkTU 1 TU_ON_HOOK 1 4 4 None)]>
                  (heap three_clients))
         (pbx three_clients) (trace three_clients ++ [EWait (TuLock A1)])
         (broken three_clients)).
Proof.
  apply (C6_chat_not_connected_keeps_lock three_clients A1
           (mkTU 1 TU_ON_HOOK 1 4 4 None));
    try (vm_compute; reflexivity); try (cbn; lia); discriminate.
Defined.

(** After such a chat the session's next call on its unit never returns. *)
Example chat_then_pickup_blocks :
  exists w1 w2,
    tu_chat (Some A1) (Some "CHAT hi"%string) three_clients = Ret (-1) w1 /\
    tu_pickup (Some A1) w1 = Blocked w2.
Proof. eexists _, _. split; vm_compute; reflexivity. Qed.

(** * Dialling *)

Lemma dial_null_target (h : gmap positive TU) p tr br (a : positive) m r e f pe :
  h !! a = Some (mkTU m TU_DIAL_TONE r e f pe) ->
  0 < m -> 0 <= f ->
  wp (tu_dial (Some a) None) (mkWorld h p tr br)
    (fun _ w' =>
       w' = mkWorld (<[a := mkTU m TU_ERROR r e f pe]> h) p
              (tr ++ [EWait (TuLock a);
                      EWrite f ("ERROR" +:+ LF) (write_ok br f);
                      EPost (TuLock a)])
              br).
Proof.
  intros Ha Hm Hf. unfold tu_dial. tu_simpl. wp_run.
  rewrite mutex_restored, !insert_insert_eq, <- !app_assoc. reflexivity.
Qed.

Lemma dial_other (h : gmap positive TU) p tr br (a b : positive)
    ma ra ea fa pa mb sb rb eb fb pb :
  h !! a = Some (mkTU ma TU_DIAL_TONE ra ea fa pa) ->
  h !! b = Some (mkTU mb sb rb eb fb pb) ->
  a <> b ->
  0 < ma -> 0 < mb -> ra < INT_MAX -> rb < INT_MAX -> 0 <= fa -> 0 <= fb ->
  wp (tu_dial (Some a) (Some b)) (mkWorld h p tr br)
    (fun _ w' =>
       pbx w' = p /\ broken w' = br /\
       if is_null pa && state_eqb sb TU_ON_HOOK
       then
         heap w' = <[a := mkTU ma TU_RING_BACK (ra + 1) ea fa (Some b)]>
                     (<[b := mkTU mb TU_RINGING (rb + 1) eb fb (Some a)]> h) /\
         trace w' = tr ++ [EWait (TuLock a); EPost (TuLock a)]
                       ++ dial_lock_events a b
                       ++ [EWrite fa ("RING BACK" +:+ LF) (write_ok br fa);
                           EWrite fb ("RINGING" +:+ LF) (write_ok br fb);
                           EPost (TuLock b); EPost (TuLock a)]
       else
         heap w' = <[a := mkTU ma TU_BUSY_SIGNAL ra ea fa pa]> h /\
         trace w' = tr ++ [EWait (TuLock a); EPost (TuLock a)]
                       ++ dial_lock_events a b
                       ++ [EWrite fa ("BUSY SIGNAL" +:+ LF) (write_ok br fa);
                           EPost (TuLock b); EPost (TuLock a)]).
Proof.
  intros Ha Hb Hab Hma Hmb Hra Hrb Hfa Hfb.
  assert (Hne : (a =? b)%positive = false) by (apply Pos.eqb_neq; exact Hab).
  unfold tu_dial, tu_dial_locks, tu_dial_commit, dial_lock_events.
  cbn [ptr_eqb ptr_lt]. rewrite Hne. tu_simpl.
  destruct (a <? b)%positive eqn:Hlt; destruct pa as [c|]; destruct sb;
    tu_simpl; wp_run; cbn [pbx broken heap trace];
    (split; [reflexivity|]); (split; [reflexivity|]);
    (split; [heap_eq a b | rewrite <- !app_assoc; reflexivity]).
Qed.

(** C4: under both locks [tu_dial] tests the caller's own [peer] field, not
    the target's.  The caller goes to BUSY_SIGNAL exactly when its own [peer]
    is non-null or the target is not ON_HOOK; otherwise the call is set up,
    whatever the target's [peer] field holds. *)
Theorem C4_dial_tests_own_peer (w : world) (a b : positive) (ta tb : TU) :
  heap w !! a = Some ta ->
  heap w !! b = Some tb ->
  a <> b ->
  state ta = TU_DIAL_TONE ->
  0 < tu_mutex ta -> 0 < tu_mutex tb ->
  references ta < INT_MAX -> references tb < INT_MAX ->
  0 <= fd ta -> 0 <= fd tb ->
  exists r w',
    tu_dial (Some a) (Some b) w = Ret r w' /\
    if is_null (peer ta) && state_eqb (state tb) TU_ON_HOOK
    then
      heap w' !! a =
        Some (set_peer (Some b)
                (set_references (references ta + 1) (set_state TU_RING_BACK ta))) /\
      heap w' !! b =
        Some (set_peer (Some a)
                (set_references (references tb + 1) (set_state TU_RINGING tb)))
    else
      heap w' !! a = Some (set_state TU_BUSY_SIGNAL ta) /\
      heap w' !! b = Some tb.
Proof.
  intros Ha Hb Hab Hsa Hma Hmb Hra Hrb Hfa Hfb.
  destruct w as [h p tr br], ta as [ma sa ra ea fa pa], tb as [mb sb rb eb fb pb].
  fields. subst sa.
  destruct (wp_elim _ _ _
    (dial_other h p tr br a b _ _ _ _ _ _ _ _ _ _ _
       Ha Hb Hab Hma Hmb Hra Hrb Hfa Hfb)) as (r1 & w' & E & _ & _ & H).
  exists r1, w'. split; [exact E|].
  destruct (is_null pa && state_eqb sb TU_ON_HOOK); destruct H as [-> _];
    split; lk.
Qed.

(** The target [A2] is ON_HOOK but still has the peer [A1]; the caller [A3]
    nevertheless gets the ring-back tone and [A2] is made to ring. *)
Lemma C4_dial_tests_own_peer_witness :
  (peer <$> heap stale_peer_world !! A2) = Some (Some A1) /\
  exists r w',
    tu_dial (Some A3) (Some A2) stale_peer_world = Ret r w' /\
    heap w' !! A3 = Some (mkTU 1 TU_RING_BACK 2 6 6 (Some A2)) /\
    heap w' !! A2 = Some (mkTU 1 TU_RINGING 3 5 5 (Some A3)).
Proof.
  split; [vm_compute; reflexivity|].
  apply (C4_dial_tests_own_peer stale_peer_world A3 A2
           (mkTU 1 TU_DIAL_TONE 1 6 6 None)
           (mkTU 1 TU_ON_HOOK 2 5 5 (Some A1)));
    try (vm_compute; reflexivity); try (cbn; lia); discriminate.
Defined.

(** * Dialling by extension *)

Lemma bind_eq {A B} (m : M A) (k : A -> M B) w a w' :
  m w = Ret a w' -> bind m k w = k a w'.
Proof. intros H. unfold bind. rewrite H. reflexivity. Qed.

Lemma bind_ext {A B} (m : M A) (k k' : A -> M B) w :
  (forall a w', k a w' = k' a w') -> bind m k w = bind m k' w.
Proof. intros H. unfold bind. destruct (m w); auto. Qed.

Lemma pbx_dial_out_of_range (w : world) (tu : option positive) (e : Z) :
  pbx w <> None ->
  PBX_MAX_EXTENSIONS - 1 < e ->
  pbx_dial tu e w = Ret (-1) w.
Proof.
  intros Hp He. unfold pbx_dial, bind, pbx_is_null.
  destruct (pbx w); [|congruence].
  replace (PBX_MAX_EXTENSIONS - 1 <? e) with true by lia. reflexivity.
Qed.

Lemma sem_wait_pbx_mutex_eq h x tr br :
  0 < pbx_mutex x ->
  sem_wait_pbx_mutex (mkWorld h (Some x) tr br) =
    Ret 0 (mkWorld h (Some (set_pbx_mutex (pbx_mutex x - 1) x))
             (tr ++ [EWait PbxMutex]) br).
Proof.
  intros Hm. unfold sem_wait_pbx_mutex, bind, load_pbx, emit, store_pbx, ret.
  cbn [pbx heap trace broken].
  replace (0 <? pbx_mutex x) with true by lia. reflexivity.
Qed.

(** [pbx_dial] with an extension up to [PBX_MAX_EXTENSIONS - 1]: the target is
    the slot of the table, [NULL] for -1, and the call is [tu_dial]'s. *)
Lemma pbx_dial_delegates (w : world) (x : PBX) (a : positive) (e : Z)
    (target : option positive) :
  pbx w = Some x ->
  0 < pbx_mutex x ->
  e <= PBX_MAX_EXTENSIONS - 1 ->
  (e = -1 /\ target = None) \/
  (0 <= e /\ pbx_entries x !! Z.to_nat e = Some target) ->
  pbx_dial (Some a) e w =
    (sem_wait_pbx_mutex ;;;
     let* r := tu_dial (Some a) target in
     sem_post_pbx_mutex ;;;
     ret (status r)) w.
Proof.
  intros Hp Hm He Ht. destruct w as [h p tr br]. fields. subst p.
  unfold pbx_dial.
  rewrite (bind_eq pbx_is_null _ (mkWorld h (Some x) tr br) false _ eq_refl).
  cbn [is_null negb].
  replace (PBX_MAX_EXTENSIONS - 1 <? e) with false by lia.
  rewrite !(bind_eq _ _ _ _ _ (sem_wait_pbx_mutex_eq h x tr br Hm)).
  set (w1 := mkWorld h _ _ br).
  assert (Hrec :
    (if negb (e =? -1)
     then let* slot := read_entry e in
          if negb (is_null slot) then read_entry e else ret None
     else ret None) w1 = Ret target w1).
  { destruct Ht as [[-> ->] | [He0 Hslot]].
    - reflexivity.
    - replace (e =? -1) with false by lia. cbn [negb].
      pose proof (lookup_lt_Some _ _ _ Hslot) as Hlt.
      assert (Hread : read_entry e w1 = Ret target w1).
      { unfold read_entry, bind, load_pbx, w1. cbn [pbx pbx_entries set_pbx_mutex].
        replace ((0 <=? e) && (e <? Z.of_nat (List.length (pbx_entries x))))
          with true by lia.
        rewrite Hslot. reflexivity. }
      rewrite (bind_eq _ _ _ _ _ Hread).
      destruct target; [exact Hread | reflexivity]. }
  rewrite (bind_eq _ _ _ _ _ Hrec).
  apply bind_ext. intros r w'. unfold status.
  destruct (r =? 0); reflexivity.
Qed.

(** C5 (amended): [pbx_dial] returns -1 at once for an extension above
    [PBX_MAX_EXTENSIONS - 1]: no call to [tu_dial], no transition, nothing
    sent.  Up to that bound it resolves the extension to the registered unit,
    or to [NULL] for -1 and for a vacant slot, and hands over to [tu_dial];
    a caller in DIAL_TONE that dials -1 or a vacant slot goes to ERROR and is
    sent the line ERROR. *)
Theorem C5_dial_ext (w : world) (x : PBX) (a : positive) (t : TU) (e : Z) :
  pbx w = Some x ->
  0 < pbx_mutex x ->
  heap w !! a = Some t ->
  state t = TU_DIAL_TONE ->
  0 < tu_mutex t ->
  0 <= fd t ->
  (PBX_MAX_EXTENSIONS - 1 < e -> pbx_dial (Some a) e w = Ret (-1) w) /\
  (forall target,
     e <= PBX_MAX_EXTENSIONS - 1 ->
     (e = -1 /\ target = None) \/
     (0 <= e /\ pbx_entries x !! Z.to_nat e = Some target) ->
     pbx_dial (Some a) e w =
       (sem_wait_pbx_mutex ;;;
        let* r := tu_dial (Some a) target in
        sem_post_pbx_mutex ;;;
        ret (status r)) w) /\
  (e = -1 \/
   (0 <= e <= PBX_MAX_EXTENSIONS - 1 /\ pbx_entries x !! Z.to_nat e = Some None) ->
   exists r w',
     pbx_dial (Some a) e w = Ret r w' /\
     heap w' = <[a := set_state TU_ERROR t]> (heap w) /\
     trace w' = trace w ++
       [EWait PbxMutex; EWait (TuLock a);
        EWrite (fd t) ("ERROR" +:+ LF) (write_ok (broken w) (fd t));
        EPost (TuLock a); EPost PbxMutex]).
Proof.
  intros Hp Hm Ha Hs Hmt Hf. split; [|split].
  - intros He. apply pbx_dial_out_of_range; [congruence | exact He].
  - intros target He Ht. exact (pbx_dial_delegates w x a e target Hp Hm He Ht).
  - intros He.
    rewrite (pbx_dial_delegates w x a e None Hp Hm);
      [| unfold PBX_MAX_EXTENSIONS in *; lia
       | destruct He as [-> | [He Hslot]]; [left; auto | right; split; [lia | exact Hslot]]].
    destruct w as [h p tr br], t as [m s r e0 f pe]. fields. subst p s.
    rewrite !(bind_eq _ _ _ _ _ (sem_wait_pbx_mutex_eq h x tr br Hm)).
    apply wp_elim.
    apply wp_bind. eapply wp_conseq; [apply (dial_null_target _ _ _ _ a m r e0 f pe Ha Hmt Hf)|].
    intros r1 w' ->. wp_run. cbn [heap trace].
    split; [reflexivity|]. rewrite <- !app_assoc. reflexivity.
Qed.

Lemma C5_dial_ext_witness :
  (PBX_MAX_EXTENSIONS - 1 < 7 ->
   pbx_dial (Some A1) 7 dial_tone_world = Ret (-1) dial_tone_world) /\
  (forall target,
     7 <= PBX_MAX_EXTENSIONS - 1 ->
     (7 = -1 /\ target = None) \/
     (0 <= 7 /\
      (replicate 4 None ++ [Some A1; Some A2; Some A3]
         ++ replicate 1017 None) !! Z.to_nat 7 = Some target) ->
     pbx_dial (Some A1) 7 dial_tone_world =
       (sem_wait_pbx_mutex ;;;
        let* r := tu_dial (Some A1) target in
        sem_post_pbx_mutex ;;;
        ret (status r)) dial_tone_world) /\
  (7 = -1 \/
   (0 <= 7 <= PBX_MAX_EXTENSIONS - 1 /\
    (replicate 4 None ++ [Some A1; Some A2; Some A3]
       ++ replicate 1017 None) !! Z.to_nat 7 = Some None) ->
   exists r w',
     pbx_dial (Some A1) 7 dial_tone_world = Ret r w' /\
     heap w' = <[A1 := set_state TU_ERROR (mkTU 1 TU_DIAL_TONE 1 4 4 None)]>
                 (heap dial_tone_world) /\
     trace w' = trace dial_tone_world ++
       [EWait PbxMutex; EWait (TuLock A1);
        EWrite 4 ("ERROR" +:+ LF) true;
        EPost (TuLock A1); EPost PbxMutex]).
Proof.
  apply (C5_dial_ext dial_tone_world
           (mkPBX 3 1 1
              (replicate 4 None ++ [Some A1; Some A2; Some A3]
                 ++ replicate 1017 None))
           A1 (mkTU 1 TU_DIAL_TONE 1 4 4 None) 7);
    try (vm_compute; reflexivity); cbn; lia.
Defined.

(** C5, as stated, fails: client 1 is in DIAL_TONE and dials extension 1024,
    which is out of range; [pbx_dial] returns -1, the unit stays in
    DIAL_TONE and nothing is added to the trace. *)
Lemma C5_counterexample :
  (state <$> heap dial_tone_world !! A1) = Some TU_DIAL_TONE /\
  PBX_MAX_EXTENSIONS - 1 < 1024 /\
  pbx_dial (Some A1) 1024 dial_tone_world = Ret (-1) dial_tone_world /\
  (state <$> heap dial_tone_world !! A1) <> Some TU_ERROR.
Proof.
  repeat split; try (vm_compute; reflexivity).
  vm_compute. discriminate.
Qed.

(** * Reachable worlds and the peer invariant *)

Lemma reachable_run_ops (ops : list session_op) (w w' : world) :
  reachable w -> run_ops ops w = Some w' -> reachable w'.
Proof.
  revert w. induction ops as [|o ops IH]; intros w Hw H; cbn in H.
  - injection H as <-. exact Hw.
  - destruct (exec o w) as [r w1 | |] eqn:E; try discriminate.
    apply (IH w1); [exact (reach_op w o r w1 Hw E) | exact H].
Qed.

Lemma abandoned_call_world_reachable : reachable abandoned_call_world.
Proof.
  apply (reachable_run_ops abandoned_call boot_world).
  - apply reach_boot. reflexivity.
  - vm_compute. reflexivity.
Qed.

Lemma asymmetric_world_reachable : reachable asymmetric_world.
Proof.
  apply (reachable_run_ops [OpPickup A3; OpDial A3 5] abandoned_call_world).
  - exact abandoned_call_world_reachable.
  - vm_compute. reflexivity.
Qed.

(** The example worlds are states of a running server. *)
Lemma example_worlds_reachable :
  reachable three_clients /\
  reachable dial_tone_world /\
  reachable ringing_world /\
  reachable incoming_call_world /\
  reachable connected_world /\
  reachable stale_peer_world.
Proof.
  assert (H0 : reachable boot_world) by (apply reach_boot; reflexivity).
  assert (H3 : reachable three_clients).
  { apply (reachable_run_ops
             [OpConnect A1 4; OpConnect A2 5; OpConnect A3 6] boot_world);
      [exact H0 | vm_compute; reflexivity]. }
  repeat split.
  - exact H3.
  - apply (reachable_run_ops [OpPickup A1] three_clients);
      [exact H3 | vm_compute; reflexivity].
  - apply (reachable_run_ops [OpPickup A2; OpDial A2 4] three_clients);
      [exact H3 | vm_compute; reflexivity].
  - apply (reachable_run_ops [OpPickup A1; OpDial A1 5] three_clients);
      [exact H3 | vm_compute; reflexivity].
  - apply (reachable_run_ops [OpPickup A1; OpDial A1 5; OpPickup A2] three_clients);
      [exact H3 | vm_compute; reflexivity].
  - apply (reachable_run_ops [OpPickup A3] abandoned_call_world);
      [exact abandoned_call_world_reachable | vm_compute; reflexivity].
Qed.

Lemma quiescent_check (w : world) (x : PBX) :
  forallb (fun kt => tu_mutex (snd kt) =? 1) (map_to_list (heap w)) = true ->
  pbx w = Some x ->
  pbx_mutex x = 1 ->
  entries_mutex x = 1 ->
  quiescent w.
Proof.
  intros Hall Hp Hpm Hem. split.
  - intros a t Ha.
    rewrite forallb_forall in Hall.
    apply elem_of_map_to_list, list_elem_of_In in Ha.
    specialize (Hall _ Ha). cbn in Hall. lia.
  - intros p' Hp'. rewrite Hp in Hp'. injection Hp' as <-. auto.
Qed.

Lemma abandoned_call_world_quiescent : quiescent abandoned_call_world.
Proof.
  eapply quiescent_check; vm_compute; reflexivity.
Qed.

Lemma asymmetric_world_quiescent : quiescent asymmetric_world.
Proof.
  eapply quiescent_check; vm_compute; reflexivity.
Qed.

(** C3: the invariant does not survive a caller's hangup before the call is
    answered.  After connect, pickup, dial, hangup the world is reachable and
    quiescent, yet the caller is ON_HOOK with a non-null [peer]; when a third
    client then dials the callee, the caller's [peer] points to a unit whose
    [peer] is another one. *)
Theorem C3_peer_invariant_broken :
  (reachable abandoned_call_world /\
   quiescent abandoned_call_world /\
   heap abandoned_call_world !! A1 = Some (mkTU 1 TU_ON_HOOK 2 4 4 (Some A2)) /\
   ~ peer_consistent abandoned_call_world) /\
  (reachable asymmetric_world /\
   quiescent asymmetric_world /\
   heap asymmetric_world !! A1 = Some (mkTU 1 TU_ON_HOOK 2 4 4 (Some A2)) /\
   heap asymmetric_world !! A2 = Some (mkTU 1 TU_RINGING 3 5 5 (Some A3)) /\
   ~ peer_symmetric asymmetric_world).
Proof.
  assert (H1 : heap abandoned_call_world !! A1
               = Some (mkTU 1 TU_ON_HOOK 2 4 4 (Some A2)))
    by (vm_compute; reflexivity).
  assert (H2 : heap asymmetric_world !! A1
               = Some (mkTU 1 TU_ON_HOOK 2 4 4 (Some A2)))
    by (vm_compute; reflexivity).
  assert (H3 : heap asymmetric_world !! A2
               = Some (mkTU 1 TU_RINGING 3 5 5 (Some A3)))
    by (vm_compute; reflexivity).
  split; [split; [|split; [|split]] | split; [|split; [|split; [|split]]]].
  - exact abandoned_call_world_reachable.
  - exact abandoned_call_world_quiescent.
  - exact H1.
  - intros Hinv. destruct (Hinv A1 _ H1) as [Hpeer _].
    cbn in Hpeer. discriminate Hpeer. discriminate.
  - exact asymmetric_world_reachable.
  - exact asymmetric_world_quiescent.
  - exact H2.
  - exact H3.
  - intros Hsym. destruct (Hsym A1 A2 _ H2 eq_refl) as (tb & Hb & Hpb).
    rewrite H3 in Hb. injection Hb as <-. cbn in Hpb. discriminate Hpb.
Qed.

(** * The order of lock requests *)

Lemma held_after_app held e1 e2 :
  held_after held (e1 ++ e2) = held_after (held_after held e1) e2.
Proof.
  revert held. induction e1 as [|e e1 IH]; intros held; [reflexivity|].
  destruct e as [l | l | |]; cbn; apply IH.
Qed.

Lemma tu_order_ok_app held e1 e2 :
  tu_order_ok held (e1 ++ e2)
  = tu_order_ok held e1 && tu_order_ok (held_after held e1) e2.
Proof.
  revert held. induction e1 as [|e e1 IH]; intros held; [reflexivity|].
  destruct e as [[a | |] | l | |]; cbn; rewrite ?IH;
    try reflexivity.
  destruct (lower_first held a); reflexivity.
Qed.

Section KeepsOrder.
Context {A B : Type}.

Lemma keeps_ret held (a : A) : keeps_order held (ret a) held.
Proof. intros w. exists []. rewrite app_nil_r. auto. Qed.

Lemma keeps_undefined held held' : keeps_order held (@undefined A) held'.
Proof. intros w. exact I. Qed.

Lemma keeps_bind held held1 held2 (m : M A) (k : A -> M B) :
  keeps_order held m held1 ->
  (forall a, keeps_order held1 (k a) held2) ->
  keeps_order held (bind m k) held2.
Proof.
  intros Hm Hk w. unfold bind. specialize (Hm w).
  destruct (m w) as [a w1 | w1 |]; [| exact Hm | exact I].
  destruct Hm as (e1 & Ht1 & Ho1 & Hh1).
  specialize (Hk a w1).
  destruct (k a w1) as [b w2 | w2 |]; [| | exact I].
  - destruct Hk as (e2 & Ht2 & Ho2 & Hh2).
    exists (e1 ++ e2). rewrite Ht2, Ht1, app_assoc, tu_order_ok_app,
      held_after_app, Ho1, Hh1, Ho2, Hh2. auto.
  - destruct Hk as (e2 & Ht2 & Ho2).
    exists (e1 ++ e2). rewrite Ht2, Ht1, app_assoc, tu_order_ok_app,
      Ho1, Hh1, Ho2. auto.
Qed.
End KeepsOrder.

Lemma keeps_load held p : keeps_order held (load p) held.
Proof.
  intros w. unfold load. destruct p as [a|]; [|exact I].
  destruct (heap w !! a); [|exact I].
  exists []. rewrite app_nil_r. auto.
Qed.

Lemma keeps_store held a t : keeps_order held (store a t) held.
Proof.
  intros w. unfold store. destruct (heap w !! a); [|exact I].
  exists []. cbn. rewrite app_nil_r. auto.
Qed.

Lemma keeps_modify held p f : keeps_order held (modify p f) held.
Proof.
  unfold modify. eapply keeps_bind; [apply keeps_load|].
  intros t. destruct p; [apply keeps_store | apply keeps_undefined].
Qed.

Lemma keeps_stderr held msg : keeps_order held (fprintf_stderr msg) held.
Proof. intros w. exists [EStderr msg]. cbn. auto. Qed.

Lemma keeps_write held f buf : keeps_order held (write f buf) held.
Proof. intros w. eexists [_]. cbn. auto. Qed.

Lemma keeps_get_state held p : keeps_order held (get_state p) held.
Proof.
  unfold get_state. eapply keeps_bind; [apply keeps_load|].
  intros t. apply keeps_ret.
Qed.

Lemma keeps_get_peer held p : keeps_order held (get_peer p) held.
Proof.
  unfold get_peer. eapply keeps_bind; [apply keeps_load|].
  intros t. apply keeps_ret.
Qed.

Lemma keeps_send_to_client held p s msg :
  keeps_order held (send_to_client p s msg) held.
Proof.
  unfold send_to_client. eapply keeps_bind; [apply keeps_load|]. intros t.
  destruct (fd t <? 0).
  - eapply keeps_bind; [apply keeps_stderr|]. intros _. apply keeps_ret.
  - eapply keeps_bind.
    + destruct (state_eqb s TU_CONNECTED).
      * destruct msg as [m|].
        -- destruct (_ <=? _); [apply keeps_ret | apply keeps_undefined].
        -- eapply keeps_bind; [apply keeps_load|]. intros q. apply keeps_ret.
      * destruct (state_eqb s TU_ON_HOOK); apply keeps_ret.
    + intros buf. eapply keeps_bind; [apply keeps_write|].
      intros ok. apply keeps_ret.
Qed.

Lemma keeps_tu_ref held p : keeps_order held (tu_ref p) held.
Proof.
  unfold tu_ref. eapply keeps_bind.
  - destruct (is_null p); [apply keeps_stderr | apply keeps_ret].
  - intros _. eapply keeps_bind; [apply keeps_load|]. intros t.
    destruct (_ <=? _); [apply keeps_modify | apply keeps_undefined].
Qed.

Lemma keeps_sem_wait_tu held p :
  match p with Some a => lower_first held a = true | None => True end ->
  keeps_order held (sem_wait_tu p)
    (match p with Some a => TuLock a :: held | None => held end).
Proof.
  intros Hlow w. unfold sem_wait_tu, bind, load.
  destruct p as [a|]; [|exact I].
  destruct (heap w !! a) as [t|]; [|exact I].
  cbn. destruct (0 <? tu_mutex t).
  - unfold store. cbn. destruct (heap w !! a); [|exact I].
    exists [EWait (TuLock a)]. cbn. rewrite Hlow. auto.
  - exists [EWait (TuLock a)]. cbn. rewrite Hlow. auto.
Qed.

Lemma keeps_sem_post_tu held a :
  keeps_order held (sem_post_tu (Some a)) (release (TuLock a) held).
Proof.
  intros w. unfold sem_post_tu, bind, load.
  destruct (heap w !! a) as [t|]; [|exact I].
  cbn. unfold store. cbn. destruct (heap w !! a); [|exact I].
  exists [EPost (TuLock a)]. cbn. auto.
Qed.

Lemma release_tu_head a held : release (TuLock a) (TuLock a :: held) = held.
Proof. cbn. rewrite Pos.eqb_refl. reflexivity. Qed.

Lemma release_tu_skip a b held :
  a <> b ->
  release (TuLock a) (TuLock b :: held) = TuLock b :: release (TuLock a) held.
Proof.
  intros Hab. cbn.
  replace (a =? b)%positive with false by (symmetry; apply Pos.eqb_neq; exact Hab).
  reflexivity.
Qed.

Create HintDb keeps discriminated.

#[local] Hint Resolve keeps_load keeps_store keeps_modify keeps_stderr
  keeps_write keeps_get_state keeps_get_peer keeps_send_to_client keeps_tu_ref
  keeps_sem_post_tu : keeps.

(** A sequence of calls that take no lock. *)
Ltac keeps_seq :=
  repeat (eapply keeps_bind; [solve [eauto with keeps] | intros ?]).

(** The tail shared by the branches of [tu_dial] that hold the caller's lock
    only. *)
Lemma keeps_notify_and_post a (m : M unit) :
  keeps_order [TuLock a] m [TuLock a] ->
  keeps_order [TuLock a]
    (m ;;;
     let* s' := get_state (Some a) in
     let* r := send_to_client (Some a) s' None in
     sem_post_tu (Some a) ;;; ret (status r)) [].
Proof.
  intros Hm.
  eapply keeps_bind; [exact Hm|]. intros _.
  keeps_seq. rewrite release_tu_head. apply keeps_ret.
Qed.

Lemma keeps_dial_locks (a b : positive) :
  a <> b ->
  exists held,
    keeps_order [] (tu_dial_locks (Some a) (Some b)) held /\
    release (TuLock a) (release (TuLock b) held) = [].
Proof.
  intros Hab. unfold tu_dial_locks. cbn [ptr_lt].
  destruct (a <? b)%positive eqn:Hlt.
  - exists [TuLock b; TuLock a]. split.
    + eapply keeps_bind; [apply (keeps_sem_wait_tu [] (Some a)); reflexivity|].
      intros _.
      eapply keeps_bind;
        [apply (keeps_sem_wait_tu [TuLock a] (Some b)); cbn; rewrite Hlt; reflexivity|].
      intros _. apply keeps_ret.
    + rewrite !release_tu_head. reflexivity.
  - exists [TuLock a; TuLock b]. split.
    + eapply keeps_bind; [apply (keeps_sem_wait_tu [] (Some b)); reflexivity|].
      intros _.
      eapply keeps_bind; [apply (keeps_sem_wait_tu [TuLock b] (Some a))|].
      * cbn. apply Pos.ltb_ge in Hlt.
        assert (b < a)%positive by lia.
        replace (b <? a)%positive with true by (symmetry; apply Pos.ltb_lt; assumption).
        reflexivity.
      * intros _. apply keeps_ret.
    + rewrite (release_tu_skip b a) by congruence.
      rewrite !release_tu_head. reflexivity.
Qed.

Lemma keeps_dial_commit (a b : positive) held :
  release (TuLock a) (release (TuLock b) held) = [] ->
  keeps_order held (tu_dial_commit (Some a) (Some b)) [].
Proof.
  intros Hrel. unfold tu_dial_commit.
  eapply keeps_bind; [apply keeps_get_peer|]. intros p.
  eapply keeps_bind; [apply keeps_get_state|]. intros ts.
  destruct (_ || _); keeps_seq; rewrite Hrel; apply keeps_ret.
Qed.

Ltac case_if :=
  match goal with
  | |- keeps_order _ (if ?c then _ else _) _ => destruct c eqn:?
  end.

(** Whatever the world and the arguments, [tu_dial] starts and ends without
    a lock and requests TU locks in increasing order of address. *)
Lemma keeps_tu_dial (tu target : option positive) :
  keeps_order [] (tu_dial tu target) [].
Proof.
  unfold tu_dial. destruct tu as [a|].
  2:{ destruct target as [b|]; cbn [is_null andb].
      - eapply keeps_bind; [apply (keeps_sem_wait_tu [] None); exact I|].
        intros _ w. unfold bind, get_state, load. exact I.
      - eapply keeps_bind; [apply keeps_stderr|]. intros _. apply keeps_ret. }
  cbn [is_null andb].
  eapply keeps_bind; [apply (keeps_sem_wait_tu [] (Some a)); reflexivity|].
  intros _.
  eapply keeps_bind; [apply keeps_get_state|]. intros s.
  case_if.
  { eapply keeps_bind; [apply keeps_send_to_client|]. intros r.
    eapply keeps_bind; [apply keeps_sem_post_tu|]. intros _.
    rewrite release_tu_head. apply keeps_ret. }
  case_if.
  { apply keeps_notify_and_post, keeps_modify. }
  destruct (ptr_eqb (Some a) target) eqn:Heq.
  { apply keeps_notify_and_post, keeps_modify. }
  eapply keeps_bind; [apply keeps_sem_post_tu|]. intros _.
  rewrite release_tu_head.
  destruct target as [b|].
  - cbn in Heq. apply Pos.eqb_neq in Heq.
    destruct (keeps_dial_locks a b Heq) as (held & Hlocks & Hrel).
    eapply keeps_bind; [exact Hlocks|]. intros _.
    apply keeps_dial_commit, Hrel.
  - destruct (state_eqb s TU_DIAL_TONE); discriminate.
Qed.

Lemma register_trace (h : gmap positive TU) x tr br (a : positive) (e : Z)
    m s r e0 f pe :
  h !! a = Some (mkTU m s r e0 f pe) ->
  0 < pbx_mutex x -> 0 < entries_mutex x -> num_entries x < INT_MAX ->
  0 <= e <= PBX_MAX_EXTENSIONS - 1 ->
  pbx_entries x !! Z.to_nat e = Some None ->
  0 < m -> 0 <= f -> r < INT_MAX ->
  wp (pbx_register (Some a) e) (mkWorld h (Some x) tr br)
    (fun r1 w' =>
       r1 = 0 /\
       trace w' = tr ++
         [EWait PbxMutex; EWait EntriesMutex; EWait (TuLock a);
          EWrite f ("ON HOOK " +:+ pretty e +:+ LF) (write_ok br f);
          EPost (TuLock a); EPost EntriesMutex; EPost PbxMutex]).
Proof.
  intros Ha Hpm Hem Hn He Hslot Hm Hf Hr.
  pose proof (lookup_lt_Some _ _ _ Hslot) as Hlt.
  unfold pbx_register. wp_run.
  split; [reflexivity|]. cbn [trace]. rewrite <- !app_assoc. reflexivity.
Qed.

(** C9 (amended): [tu_dial], the pairing path, requests TU locks in
    increasing order of address, in every world and for every pair of
    arguments.  The registry lock [pbx_mutex] is not a leaf lock:
    [pbx_register] holds it across [tu_set_extension] and [pbx_dial] holds it
    across [tu_dial], so a TU lock is requested while it is held. *)
Theorem C9_dial_ordered_registry_not_leaf :
  (forall (tu target : option positive) (w : world),
     match new_events (trace w) (tu_dial tu target w) with
     | Some evs => tu_order_ok [] evs = true
     | None => True
     end) /\
  (forall (w : world) (x : PBX) (a : positive) (t : TU) (e : Z),
     pbx w = Some x ->
     0 < pbx_mutex x -> 0 < entries_mutex x -> num_entries x < INT_MAX ->
     0 <= e <= PBX_MAX_EXTENSIONS - 1 ->
     pbx_entries x !! Z.to_nat e = Some None ->
     heap w !! a = Some t ->
     0 < tu_mutex t -> 0 <= fd t -> references t < INT_MAX ->
     exists w' evs,
       pbx_register (Some a) e w = Ret 0 w' /\
       trace w' = trace w ++ EWait PbxMutex :: EWait EntriesMutex
                               :: EWait (TuLock a) :: evs /\
       leaf_lock_ok [] (drop (List.length (trace w)) (trace w')) = false) /\
  (forall (w : world) (x : PBX) (a : positive) (t : TU),
     pbx w = Some x ->
     0 < pbx_mutex x ->
     heap w !! a = Some t ->
     state t = TU_DIAL_TONE ->
     0 < tu_mutex t -> 0 <= fd t ->
     exists r w' evs,
       pbx_dial (Some a) (-1) w = Ret r w' /\
       trace w' = trace w ++ EWait PbxMutex :: EWait (TuLock a) :: evs /\
       leaf_lock_ok [] (drop (List.length (trace w)) (trace w')) = false).
Proof.
  split; [|split].
  - intros tu target w. pose proof (keeps_tu_dial tu target w) as H.
    destruct (tu_dial tu target w) as [r w' | w' |]; cbn; [| | exact I].
    + destruct H as (evs & -> & Hok & _). rewrite drop_app_length. exact Hok.
    + destruct H as (evs & -> & Hok). rewrite drop_app_length. exact Hok.
  - intros w x a t e Hp Hpm Hem Hn He Hslot Ha Hm Hf Hr.
    destruct w as [h p tr br], t as [m s r e0 f pe]. fields. subst p.
    destruct (wp_elim _ _ _
      (register_trace h x tr br a e m s r e0 f pe Ha Hpm Hem Hn He Hslot Hm Hf Hr))
      as (r1 & w' & E & -> & Ht).
    exists w'. eexists. split; [exact E|]. rewrite Ht.
    split; [reflexivity|]. rewrite drop_app_length. reflexivity.
  - intros w x a t Hp Hpm Ha Hs Hm Hf.
    rewrite (pbx_dial_delegates w x a (-1) None Hp Hpm);
      [| unfold PBX_MAX_EXTENSIONS; lia | left; auto].
    destruct w as [h p tr br], t as [m s r e0 f pe]. fields. subst p s.
    rewrite !(bind_eq _ _ _ _ _ (sem_wait_pbx_mutex_eq h x tr br Hpm)).
    assert (H : wp
      (let* r := tu_dial (Some a) None in sem_post_pbx_mutex ;;; ret (status r))
      (mkWorld h (Some (set_pbx_mutex (pbx_mutex x - 1) x))
         (tr ++ [EWait PbxMutex]) br)
      (fun _ w' =>
         trace w' = tr ++ EWait PbxMutex :: EWait (TuLock a)
           :: [EWrite f ("ERROR" +:+ LF) (write_ok br f);
               EPost (TuLock a); EPost PbxMutex])).
    { apply wp_bind.
      eapply wp_conseq; [apply (dial_null_target _ _ _ _ a m r e0 f pe Ha Hm Hf)|].
      intros r1 w' ->. wp_run. cbn [trace]. rewrite <- !app_assoc. reflexivity. }
    apply wp_elim in H as (r1 & w' & E & Ht).
    exists r1, w'. eexists. split; [exact E|]. rewrite Ht.
    split; [reflexivity|]. rewrite drop_app_length. reflexivity.
Qed.

Lemma C9_dial_ordered_registry_not_leaf_witness :
  tu_order_ok []
    [EWait (TuLock A1); EPost (TuLock A1); EWait (TuLock A1); EWait (TuLock A2);
     EWrite 4 ("RING BACK" +:+ LF) true; EWrite 5 ("RINGING" +:+ LF) true;
     EPost (TuLock A2); EPost (TuLock A1)] = true /\
  (exists w' evs,
     pbx_register (Some A1) 7 three_clients = Ret 0 w' /\
     trace w' = trace three_clients ++ EWait PbxMutex :: EWait EntriesMutex
                                         :: EWait (TuLock A1) :: evs /\
     leaf_lock_ok [] (drop (List.length (trace three_clients)) (trace w')) = false) /\
  (exists r w' evs,
     pbx_dial (Some A1) (-1) dial_tone_world = Ret r w' /\
     trace w' = trace dial_tone_world ++ EWait PbxMutex :: EWait (TuLock A1) :: evs /\
     leaf_lock_ok [] (drop (List.length (trace dial_tone_world)) (trace w')) = false).
Proof.
  split; [|split].
  - exact (proj1 C9_dial_ordered_registry_not_leaf (Some A1) (Some A2) dial_tone_world).
  - apply (proj1 (proj2 C9_dial_ordered_registry_not_leaf) three_clients
             (mkPBX 3 1 1
                (replicate 4 None ++ [Some A1; Some A2; Some A3]
                   ++ replicate 1017 None))
             A1 (mkTU 1 TU_ON_HOOK 1 4 4 None) 7);
      try (vm_compute; reflexivity); cbn; unfold INT_MAX, PBX_MAX_EXTENSIONS; lia.
  - apply (proj2 (proj2 C9_dial_ordered_registry_not_leaf) dial_tone_world
             (mkPBX 3 1 1
                (replicate 4 None ++ [Some A1; Some A2; Some A3]
                   ++ replicate 1017 None))
             A1 (mkTU 1 TU_DIAL_TONE 1 4 4 None));
      try (vm_compute; reflexivity); cbn; lia.
Defined.

(** C9, as stated, fails.  Unit [A2] has a peer with the lower address [A1]:
    answering, chatting and hanging up on [A2] each request [A2]'s lock and
    then [A1]'s.  And registration and dialling request a TU lock while
    [pbx_mutex] is held. *)
Lemma C9_counterexample :
  (exists evs,
     new_events (trace incoming_call_world)
       (tu_pickup (Some A2) incoming_call_world)
       = Some (EWait (TuLock A2) :: EWait (TuLock A1) :: evs) /\
     tu_order_ok [] (EWait (TuLock A2) :: EWait (TuLock A1) :: evs) = false) /\
  (exists evs,
     new_events (trace connected_world)
       (tu_chat (Some A2) (Some "CHAT hi"%string) connected_world)
       = Some (EWait (TuLock A2) :: EWait (TuLock A1) :: evs) /\
     tu_order_ok [] (EWait (TuLock A2) :: EWait (TuLock A1) :: evs) = false) /\
  (exists evs,
     new_events (trace connected_world)
       (tu_hangup (Some A2) connected_world)
       = Some (EWait (TuLock A2) :: EWait (TuLock A1) :: evs) /\
     tu_order_ok [] (EWait (TuLock A2) :: EWait (TuLock A1) :: evs) = false) /\
  (exists evs,
     new_events (trace boot_world) (connect (Some A1) 4 boot_world)
       = Some (EWait PbxMutex :: EWait EntriesMutex :: EWait (TuLock A1) :: evs) /\
     leaf_lock_ok []
       (EWait PbxMutex :: EWait EntriesMutex :: EWait (TuLock A1) :: evs) = false) /\
  (exists evs,
     new_events (trace dial_tone_world) (pbx_dial (Some A1) 5 dial_tone_world)
       = Some (EWait PbxMutex :: EWait (TuLock A1) :: evs) /\
     leaf_lock_ok [] (EWait PbxMutex :: EWait (TuLock A1) :: evs) = false).
Proof.
  repeat split; eexists; (split; [vm_compute; reflexivity | reflexivity]).
Qed.

(** * C strings and numerals *)





Lemma span_app f x y :
  forallb f x = true ->
  match y with c :: _ => f c = false | [] => True end ->
  span f (x ++ y) = List.length x.
Proof.
  intros Hx Hy. induction x as [|c x IH]; cbn in *.
  - destruct y as [|d y]; cbn; [reflexivity|]. rewrite Hy. reflexivity.
  - destruct (f c); cbn in *; [|discriminate]. rewrite IH by exact Hx. reflexivity.
Qed.




Lemma cstr_app x y : forallb not_nul x = true -> cstr (x ++ NUL :: y) = x.
Proof.
  intros Hx. unfold cstr. fold not_nul.
  rewrite (span_app not_nul x (NUL :: y) Hx) by reflexivity.
  rewrite take_app_length. reflexivity.
Qed.


Lemma isdigit_not_nul c : isdigit c = true -> not_nul c = true.
Proof.
  intros H. unfold not_nul. destruct (Ascii.eqb_spec c NUL) as [-> |]; [|reflexivity].
  vm_compute in H. discriminate.
Qed.

Lemma forallb_impl (f g : ascii -> bool) l :
  (forall c, f c = true -> g c = true) -> forallb f l = true -> forallb g l = true.
Proof.
  intros Hfg. induction l as [|c l IH]; cbn; [reflexivity|].
  intros H. apply andb_true_iff in H as [H1 H2].
  rewrite (Hfg _ H1), (IH H2). reflexivity.
Qed.




(** * The command line *)


Lemma to_int_id (z : Z) :
  INT_MIN <= z <= INT_MAX ->
  to_int (Z.max LONG_MIN (Z.min LONG_MAX z)) = z.
Proof.
  unfold INT_MIN, INT_MAX, LONG_MIN, LONG_MAX, to_int. intros H.
  replace (Z.max _ _) with z by lia.
  rewrite Z.mod_small by lia. lia.
Qed.


Example main_default : main ["pbx"%string] = Serve "3000".
Proof. reflexivity. Qed.

Example main_port : main ["pbx"; "-p"; "8080"]%string = Serve "8080".
Proof. vm_compute. reflexivity. Qed.

Example main_low_port :
  exists d, main ["pbx"; "-p"; "80"]%string = Exit EXIT_FAILURE d.
Proof. eexists. vm_compute. reflexivity. Qed.

Example main_bad_port :
  exists d, main ["pbx"; "-p"; "80a0"]%string = Exit EXIT_FAILURE d.
Proof. eexists. vm_compute. reflexivity. Qed.

(** Beyond the range of [int] the number that [main] compares with 1024 is
    the numeral's value reduced modulo [2^32]. *)
Example port_number_wraps :
  port_number "2147483648" = -2147483648 /\
  port_number "4294968320" = 1024.
Proof. split; vm_compute; reflexivity. Qed.

(** * The dial command of a session *)

Lemma token_char_not_nul c : token_char c = true -> not_nul c = true.
Proof. unfold token_char, not_nul. intros H. apply andb_true_iff in H. tauto. Qed.

Lemma token_char_not_sp c : token_char c = true -> Ascii.eqb SP c = false.
Proof.
  unfold token_char. intros H. apply andb_true_iff in H as [H _].
  rewrite Ascii.eqb_sym. destruct (Ascii.eqb c SP); [discriminate | reflexivity].
Qed.

(** [strtok] on a buffer whose bytes from the scan position are spaces, a
    token, and a delimiter or the terminator. *)
Lemma strtok_token (X pre tok post : list ascii) (d : ascii) :
  forallb (Ascii.eqb SP) pre = true ->
  tok <> [] ->
  forallb token_char tok = true ->
  d = SP \/ d = NUL ->
  strtok (X ++ pre ++ tok ++ d :: post) (List.length X) =
    Some (Some (List.length X + List.length pre)%nat,
          X ++ pre ++ tok ++ NUL :: post,
          (List.length X + List.length pre + List.length tok
           + (if Ascii.eqb d SP then 1 else 0))%nat).
Proof.
  intros Hpre Hne Htok Hd.
  destruct tok as [|c tok']; [congruence|]. clear Hne.
  assert (Hc : token_char c = true) by (cbn in Htok; apply andb_true_iff in Htok; tauto).
  assert (Hdt : token_char d = false) by (destruct Hd as [-> | ->]; reflexivity).
  unfold strtok.
  rewrite drop_app_length.
  rewrite (span_app (Ascii.eqb SP) pre ((c :: tok') ++ d :: post) Hpre)
    by (cbn; apply token_char_not_sp, Hc).
  rewrite <- length_app.
  rewrite !(app_assoc X pre).
  set (P := X ++ pre).
  change ((c :: tok') ++ d :: post) with (c :: (tok' ++ d :: post)).
  rewrite (list_lookup_middle P (tok' ++ d :: post) c _ eq_refl).
  apply token_char_not_nul in Hc as Hcn. unfold not_nul in Hcn.
  destruct (Ascii.eqb c NUL); [discriminate|]. clear Hcn.
  rewrite drop_app_length.
  change (c :: tok' ++ d :: post) with ((c :: tok') ++ d :: post).
  rewrite (span_app token_char (c :: tok') (d :: post) Htok) by exact Hdt.
  rewrite <- length_app.
  rewrite !(app_assoc P (c :: tok')).
  set (Q := P ++ c :: tok').
  rewrite (list_lookup_middle Q post d _ eq_refl).
  destruct Hd as [-> | ->]; cbn [Ascii.eqb Bool.eqb SP NUL andb].
  - pose proof (insert_app_r Q (SP :: post) 0 NUL) as Hi.
    rewrite Nat.add_0_r in Hi. rewrite Hi. cbn [list_insert].
    rewrite Nat.add_1_r. reflexivity.
  - rewrite Nat.add_0_r. reflexivity.
Qed.


Lemma at_index_nat (buf : list ascii) (n : nat) :
  at_index buf (Z.of_nat n) = buf !! n.
Proof.
  unfold at_index. replace (Z.of_nat n <? 0) with false by lia.
  rewrite Nat2Z.id. reflexivity.
Qed.



(** The body of the service loop up to the dial branch, for a line that
    starts with the keyword and a space. *)
Lemma parse_command_dial (tail : list ascii) :
  parse_command (bytes "dial" ++ SP :: tail) =
    parse_dial (bytes "dial" ++ NUL :: tail ++ [NUL]) 5.
Proof.
  unfold parse_command.
  pose proof (strtok_token [] [] (bytes "dial") (tail ++ [NUL]) SP
                eq_refl ltac:(discriminate) eq_refl (or_introl eq_refl)) as H.
  cbn [app List.length Nat.add] in H.
  replace ((bytes "dial" ++ SP :: tail) ++ [NUL])
    with (bytes "dial" ++ SP :: tail ++ [NUL])
    by (rewrite <- app_assoc; reflexivity).
  rewrite H. cbn [Ascii.eqb Bool.eqb SP andb Nat.add].
  rewrite drop_0.
  rewrite (cstr_app (bytes "dial") (tail ++ [NUL]) eq_refl).
  reflexivity.
Qed.

Lemma parse_dial_token (n : nat) (tok post : list ascii) (d : ascii) :
  tok <> [] ->
  forallb token_char tok = true ->
  d = SP \/ d = NUL ->
  parse_dial (bytes "dial" ++ NUL :: replicate n SP ++ tok ++ d :: post) 5 =
    let buffer := bytes "dial" ++ NUL :: replicate n SP ++ tok ++ NUL :: post in
    let ext := (5 + n)%nat in
    match crlf_at buffer (Z.of_nat ext) with
    | None => None
    | Some true => Some CmdNone
    | Some false =>
        let '(v, endoff) := strtol (drop ext buffer) in
        let ext_num := to_int v in
        if ext_num =? 0
        then
          match at_index buffer (Z.of_nat ext + Z.of_nat endoff - 1) with
          | None => None
          | Some before =>
              if negb (Ascii.eqb before "0")
              then Some (CmdDial (-1))
              else Some (CmdDial ext_num)
          end
        else Some (CmdDial ext_num)
    end.
Proof.
  intros Hne Htok Hd. unfold parse_dial.
  pose proof (strtok_token (bytes "dial" ++ [NUL]) (replicate n SP) tok post d) as H.
  rewrite <- !app_assoc in H. cbn [app] in H.
  change (List.length (bytes "dial" ++ [NUL])) with 5%nat in H.
  rewrite H; [| | exact Hne | exact Htok | exact Hd].
  - rewrite length_replicate. reflexivity.
  - clear. induction n; [reflexivity | exact IHn].
Qed.

Lemma buffer_at_token (n : nat) (tok post : list ascii) (k : nat) :
  (bytes "dial" ++ NUL :: replicate n SP ++ tok ++ post) !! (5 + n + k)%nat
  = (tok ++ post) !! k.
Proof.
  change (bytes "dial" ++ NUL :: replicate n SP ++ tok ++ post)
    with ((bytes "dial" ++ [NUL]) ++ replicate n SP ++ tok ++ post).
  rewrite app_assoc.
  rewrite lookup_app_r by (rewrite length_app, length_replicate; cbn; lia).
  rewrite length_app, length_replicate. cbn [List.length bytes list_ascii_of_string app].
  f_equal. lia.
Qed.

Lemma buffer_drop_token (n : nat) (tok post : list ascii) :
  drop (5 + n) (bytes "dial" ++ NUL :: replicate n SP ++ tok ++ post)
  = tok ++ post.
Proof.
  change (bytes "dial" ++ NUL :: replicate n SP ++ tok ++ post)
    with ((bytes "dial" ++ [NUL]) ++ replicate n SP ++ tok ++ post).
  rewrite app_assoc.
  replace (5 + n)%nat with (List.length ((bytes "dial" ++ [NUL]) ++ replicate n SP))
    by (rewrite length_app, length_replicate; reflexivity).
  apply drop_app_length.
Qed.


Lemma crlf_at_token (n : nat) (tok post : list ascii) :
  crlf_at (bytes "dial" ++ NUL :: replicate n SP ++ tok ++ post)
    (Z.of_nat (5 + n))
  = match (tok ++ post) !! O with
    | None => None
    | Some c0 =>
        if Ascii.eqb c0 CRc
        then match (tok ++ post) !! 1%nat with
             | None => None
             | Some c1 => Some (Ascii.eqb c1 LFc)
             end
        else Some false
    end.
Proof.
  unfold crlf_at.
  replace (Z.of_nat (5 + n) + 1) with (Z.of_nat (5 + n + 1)) by lia.
  rewrite !at_index_nat.
  rewrite <- (Nat.add_0_r (5 + n)) at 1.
  rewrite !buffer_at_token. reflexivity.
Qed.



(** What the client of the witness sees: nothing for the blank argument, the
    line ERROR for the argument without a number. *)
Example dial_blank_sends_nothing :
  new_events (trace dial_tone_world)
    (service_iteration (Some A1) (bytes "dial " ++ crlf) dial_tone_world)
  = Some [].
Proof. vm_compute. reflexivity. Qed.

Example dial_word_sends_error :
  new_events (trace dial_tone_world)
    (service_iteration (Some A1) (bytes "dial abc" ++ crlf) dial_tone_world)
  = Some [EWait PbxMutex; EWait (TuLock A1); EWrite 4 ("ERROR" +:+ LF) true;
          EPost (TuLock A1); EPost PbxMutex].
Proof. vm_compute. reflexivity. Qed.

(** * The call operations, case by case *)

(** The concrete side conditions of an example, by evaluation. *)
Ltac concrete :=
  solve [ vm_compute; reflexivity
        | vm_compute; repeat split; first [reflexivity | discriminate]
        | discriminate
        | cbn; lia ].

(** The facts about the world that a call leaves, by evaluation. *)
Ltac computed :=
  repeat match goal with |- _ /\ _ => split end;
  first [reflexivity | vm_compute; reflexivity].

(** A call that is shown to return one result in one world equals it. *)
Lemma wp_eq {A} (m : M A) w a w' :
  wp m w (fun r w1 => r = a /\ w1 = w') -> m w = Ret a w'.
Proof. intros H. apply wp_elim in H as (r & w1 & E & -> & ->). exact E. Qed.

(** Taking and releasing a semaphore restores the unit. *)
Lemma insert_mutex_restored (h : gmap positive TU) a m s r e f pe :
  h !! a = Some (mkTU m s r e f pe) ->
  <[a := mkTU (m - 1 + 1) s r e f pe]> h = h.
Proof. intros H. rewrite mutex_restored. apply insert_id. exact H. Qed.

(** X1: [tu_pickup] on a unit that is RINGING answers the call.  Both the
    unit and its peer become CONNECTED, nothing else in the heap or the
    registry changes, each end is sent "CONNECTED <extension of the other
    end>", both semaphores are taken and released, and the call returns 0
    exactly when both writes succeeded. *)
Theorem pickup_answers_call (w : world) (a b : positive) (ta tb : TU) :
  heap w !! a = Some ta ->
  heap w !! b = Some tb ->
  a <> b ->
  state ta = TU_RINGING ->
  peer ta = Some b ->
  peer tb = Some a ->
  0 < tu_mutex ta -> 0 < tu_mutex tb ->
  0 <= fd ta -> 0 <= fd tb ->
  tu_pickup (Some a) w =
    Ret (status2 (if write_ok (broken w) (fd ta) then 0 else -1)
                 (if write_ok (broken w) (fd tb) then 0 else -1))
      (mkWorld
         (<[b := set_state TU_CONNECTED tb]>
            (<[a := set_state TU_CONNECTED ta]> (heap w)))
         (pbx w)
         (trace w ++
            [EWait (TuLock a); EWait (TuLock b);
             EWrite (fd ta) ("CONNECTED " +:+ pretty (ext tb) +:+ LF)
               (write_ok (broken w) (fd ta));
             EWrite (fd tb) ("CONNECTED " +:+ pretty (ext ta) +:+ LF)
               (write_ok (broken w) (fd tb));
             EPost (TuLock a); EPost (TuLock b)])
         (broken w)).
Proof.
  intros Ha Hb Hab Hsa Hpa Hpb Hma Hmb Hfa Hfb.
  destruct w as [h p tr br], ta as [ma sa ra ea fa pa], tb as [mb sb rb eb fb pb].
  fields. subst sa pa pb.
  apply wp_eq. unfold tu_pickup. tu_simpl. wp_run.
  split; [reflexivity|].
  f_equal; [| rewrite <- !app_assoc; reflexivity].
  cbv [set_state]. cbn [state fd ext peer references tu_mutex].
  heap_eq b a.
Qed.

Lemma pickup_answers_call_witness :
  exists w',
    tu_pickup (Some A2) incoming_call_world = Ret 0 w' /\
    heap w' !! A1 = Some (mkTU 1 TU_CONNECTED 2 4 4 (Some A2)) /\
    heap w' !! A2 = Some (mkTU 1 TU_CONNECTED 2 5 5 (Some A1)) /\
    lines_to 4 (drop (List.length (trace incoming_call_world)) (trace w'))
      = ["CONNECTED " +:+ pretty 5 +:+ LF] /\
    lines_to 5 (drop (List.length (trace incoming_call_world)) (trace w'))
      = ["CONNECTED " +:+ pretty 4 +:+ LF].
Proof.
  eexists. split.
  - apply (pickup_answers_call incoming_call_world A2 A1
             (mkTU 1 TU_RINGING 2 5 5 (Some A1))
             (mkTU 1 TU_RING_BACK 2 4 4 (Some A2))); concrete.
  - computed.
Defined.

(** The result of a call is decided by which of its writes succeeded. *)
Ltac done_status :=
  repeat match goal with
  | |- context [write_ok ?br ?f] => destruct (write_ok br f)
  end; reflexivity.

Ltac same_heap :=
  rewrite ?insert_insert_eq; apply insert_mutex_restored; assumption.

(** X2: [tu_pickup] on a unit that is neither ON HOOK nor RINGING changes
    nothing: the heap and the registry are as before, and the unit is sent
    the notification of the state it is in. *)
Theorem pickup_other_states (w : world) (a : positive) (t : TU) (line : string) :
  heap w !! a = Some t ->
  state t <> TU_ON_HOOK ->
  state t <> TU_RINGING ->
  notification (heap w) t = Some line ->
  0 < tu_mutex t ->
  0 <= fd t ->
  tu_pickup (Some a) w =
    Ret (if write_ok (broken w) (fd t) then 0 else -1)
      (mkWorld (heap w) (pbx w)
         (trace w ++
            [EWait (TuLock a);
             EWrite (fd t) line (write_ok (broken w) (fd t));
             EPost (TuLock a)])
         (broken w)).
Proof.
  intros Ha Hs1 Hs2 Hline Hm Hf.
  destruct w as [h p tr br], t as [m s r e f pe].
  unfold notification in Hline. fields.
  apply wp_eq. unfold tu_pickup. tu_simpl.
  destruct s; try congruence.
  4: { destruct pe as [b|]; [|discriminate].
       destruct (h !! b) as [tb|] eqn:Hb; [|discriminate].
       injection Hline as <-.
       destruct (decide (b = a)) as [-> | Hne].
       - rewrite Ha in Hb. injection Hb as <-.
         wp_run. split; [done_status|].
         f_equal; [same_heap | rewrite <- !app_assoc; reflexivity].
       - wp_run. split; [done_status|].
         f_equal; [same_heap | rewrite <- !app_assoc; reflexivity]. }
  all: injection Hline as <-; wp_run; (split; [done_status|]);
    (f_equal; [same_heap | rewrite <- !app_assoc; reflexivity]).
Qed.

Lemma pickup_other_states_witness :
  exists w',
    tu_pickup (Some A1) dial_tone_world = Ret 0 w' /\
    heap w' = heap dial_tone_world /\
    lines_to 4 (drop (List.length (trace dial_tone_world)) (trace w'))
      = ["DIAL TONE" +:+ LF].
Proof.
  eexists. split.
  - apply (pickup_other_states dial_tone_world A1
             (mkTU 1 TU_DIAL_TONE 1 4 4 None) ("DIAL TONE" +:+ LF)); concrete.
  - computed.
Defined.

(** X3: [tu_hangup] on a CONNECTED unit ends the call on both sides, when
    both units hold more than one reference, so that neither is freed.  The
    unit goes ON HOOK and its peer to DIAL TONE, both peer pointers are
    cleared and both reference counts drop by one; the unit is sent
    "ON HOOK <its extension>" and the peer "DIAL TONE". *)
Theorem hangup_connected (w : world) (a b : positive) (ta tb : TU) :
  heap w !! a = Some ta ->
  heap w !! b = Some tb ->
  a <> b ->
  state ta = TU_CONNECTED ->
  peer ta = Some b ->
  0 < tu_mutex ta -> 0 < tu_mutex tb ->
  1 < references ta -> 1 < references tb ->
  0 <= fd ta -> 0 <= fd tb ->
  tu_hangup (Some a) w =
    Ret (status2 (if write_ok (broken w) (fd ta) then 0 else -1)
                 (if write_ok (broken w) (fd tb) then 0 else -1))
      (mkWorld
         (<[a := set_peer None
                   (set_references (references ta - 1) (set_state TU_ON_HOOK ta))]>
            (<[b := set_peer None
                      (set_references (references tb - 1)
                         (set_state TU_DIAL_TONE tb))]> (heap w)))
         (pbx w)
         (trace w ++
            [EWait (TuLock a); EWait (TuLock b);
             EWrite (fd ta) ("ON HOOK " +:+ pretty (ext ta) +:+ LF)
               (write_ok (broken w) (fd ta));
             EWrite (fd tb) ("DIAL TONE" +:+ LF) (write_ok (broken w) (fd tb));
             EPost (TuLock b); EPost (TuLock a)])
         (broken w)).
Proof.
  intros Ha Hb Hab Hsa Hpa Hma Hmb Hra Hrb Hfa Hfb.
  destruct w as [h p tr br], ta as [ma sa ra ea fa pa], tb as [mb sb rb eb fb pb].
  fields. subst sa pa.
  apply wp_eq.
  eapply wp_conseq;
    [exact (hangup_with_peer h p tr br a b _ _ _ _ _ _ _ _ _ _ _
              Ha Hb Hab (or_intror eq_refl) Hma Hmb Hra Hrb Hfa Hfb)|].
  intros r w' [-> ->]. split; reflexivity.
Qed.

Lemma hangup_connected_witness :
  exists w',
    tu_hangup (Some A2) connected_world = Ret 0 w' /\
    heap w' !! A2 = Some (mkTU 1 TU_ON_HOOK 1 5 5 None) /\
    heap w' !! A1 = Some (mkTU 1 TU_DIAL_TONE 1 4 4 None) /\
    lines_to 5 (drop (List.length (trace connected_world)) (trace w'))
      = ["ON HOOK " +:+ pretty 5 +:+ LF] /\
    lines_to 4 (drop (List.length (trace connected_world)) (trace w'))
      = ["DIAL TONE" +:+ LF].
Proof.
  eexists. split.
  - apply (hangup_connected connected_world A2 A1
             (mkTU 1 TU_CONNECTED 2 5 5 (Some A1))
             (mkTU 1 TU_CONNECTED 2 4 4 (Some A2))); concrete.
  - computed.
Defined.

(** X4: [tu_hangup] on a unit that is in no call (ON HOOK, DIAL TONE,
    BUSY SIGNAL or ERROR) puts it ON HOOK, touches no other unit and no
    reference count, and sends it "ON HOOK <its extension>". *)
Theorem hangup_without_peer (w : world) (a : positive) (t : TU) :
  heap w !! a = Some t ->
  in_call (state t) = false ->
  0 < tu_mutex t ->
  0 <= fd t ->
  tu_hangup (Some a) w =
    Ret (if write_ok (broken w) (fd t) then 0 else -1)
      (mkWorld (<[a := set_state TU_ON_HOOK t]> (heap w)) (pbx w)
         (trace w ++
            [EWait (TuLock a);
             EWrite (fd t) ("ON HOOK " +:+ pretty (ext t) +:+ LF)
               (write_ok (broken w) (fd t));
             EPost (TuLock a)])
         (broken w)).
Proof.
  intros Ha Hs Hm Hf.
  destruct w as [h p tr br], t as [m s r e f pe]. fields.
  apply wp_eq. unfold tu_hangup. tu_simpl.
  destruct s; try discriminate; wp_run; (split; [done_status|]);
    (f_equal; [| rewrite <- !app_assoc; reflexivity]);
    cbv [set_state]; cbn [state fd ext peer references tu_mutex];
    rewrite ?insert_insert_eq, mutex_restored; reflexivity.
Qed.

Lemma hangup_without_peer_witness :
  exists w',
    tu_hangup (Some A1) dial_tone_world = Ret 0 w' /\
    heap w' !! A1 = Some (mkTU 1 TU_ON_HOOK 1 4 4 None) /\
    heap w' !! A2 = heap dial_tone_world !! A2 /\
    lines_to 4 (drop (List.length (trace dial_tone_world)) (trace w'))
      = ["ON HOOK " +:+ pretty 4 +:+ LF].
Proof.
  eexists. split.
  - apply (hangup_without_peer dial_tone_world A1
             (mkTU 1 TU_DIAL_TONE 1 4 4 None)); concrete.
  - computed.
Defined.

(** X5: [tu_dial] from a unit that is not in the DIAL TONE state does
    nothing, whatever the target is: the heap and the registry are as
    before, the target is not looked at, and the caller is sent the
    notification of the state it is in. *)
Theorem dial_needs_dial_tone (w : world) (a : positive) (t : TU)
    (target : option positive) (line : string) :
  heap w !! a = Some t ->
  state t <> TU_DIAL_TONE ->
  notification (heap w) t = Some line ->
  0 < tu_mutex t ->
  0 <= fd t ->
  tu_dial (Some a) target w =
    Ret (if write_ok (broken w) (fd t) then 0 else -1)
      (mkWorld (heap w) (pbx w)
         (trace w ++
            [EWait (TuLock a);
             EWrite (fd t) line (write_ok (broken w) (fd t));
             EPost (TuLock a)])
         (broken w)).
Proof.
  intros Ha Hs Hline Hm Hf.
  destruct w as [h p tr br], t as [m s r e f pe].
  unfold notification in Hline. fields.
  apply wp_eq. unfold tu_dial. tu_simpl.
  destruct s; try congruence.
  5: { destruct pe as [b|]; [|discriminate].
       destruct (h !! b) as [tb|] eqn:Hb; [|discriminate].
       injection Hline as <-.
       destruct (decide (b = a)) as [-> | Hne].
       - rewrite Ha in Hb. injection Hb as <-.
         wp_run. split; [done_status|].
         f_equal; [same_heap | rewrite <- !app_assoc; reflexivity].
       - wp_run. split; [done_status|].
         f_equal; [same_heap | rewrite <- !app_assoc; reflexivity]. }
  all: injection Hline as <-; wp_run; (split; [done_status|]);
    (f_equal; [same_heap | rewrite <- !app_assoc; reflexivity]).
Qed.

Lemma dial_needs_dial_tone_witness :
  exists w',
    tu_dial (Some A1) (Some A2) three_clients = Ret 0 w' /\
    heap w' = heap three_clients /\
    lines_to 4 (drop (List.length (trace three_clients)) (trace w'))
      = ["ON HOOK " +:+ pretty 4 +:+ LF] /\
    lines_to 5 (drop (List.length (trace three_clients)) (trace w')) = [].
Proof.
  eexists. split.
  - apply (dial_needs_dial_tone three_clients A1 (mkTU 1 TU_ON_HOOK 1 4 4 None)
             (Some A2) ("ON HOOK " +:+ pretty 4 +:+ LF)); concrete.
  - computed.
Defined.

(** Taking and releasing the registry semaphore restores the registry. *)
Lemma pbx_mutex_restored (x : PBX) :
  set_pbx_mutex (pbx_mutex x - 1 + 1) (set_pbx_mutex (pbx_mutex x - 1) x) = x.
Proof. destruct x. cbv [set_pbx_mutex]. cbn. rewrite mutex_restored. reflexivity. Qed.

(** X6: a unit with a dial tone that dials its own extension gets the busy
    signal: [pbx_dial] moves it to BUSY SIGNAL, sends it "BUSY SIGNAL",
    leaves its reference count and its peer alone, and releases the
    registry semaphore. *)
Theorem dial_own_extension (w : world) (x : PBX) (a : positive) (t : TU) (e : Z) :
  pbx w = Some x ->
  0 < pbx_mutex x ->
  0 <= e <= PBX_MAX_EXTENSIONS - 1 ->
  pbx_entries x !! Z.to_nat e = Some (Some a) ->
  heap w !! a = Some t ->
  state t = TU_DIAL_TONE ->
  0 < tu_mutex t ->
  0 <= fd t ->
  pbx_dial (Some a) e w =
    Ret (if write_ok (broken w) (fd t) then 0 else -1)
      (mkWorld (<[a := set_state TU_BUSY_SIGNAL t]> (heap w)) (pbx w)
         (trace w ++
            [EWait PbxMutex; EWait (TuLock a);
             EWrite (fd t) ("BUSY SIGNAL" +:+ LF) (write_ok (broken w) (fd t));
             EPost (TuLock a); EPost PbxMutex])
         (broken w)).
Proof.
  intros Hp Hpm He Hslot Ha Hs Hm Hf.
  destruct w as [h p tr br], t as [m s r e0 f pe]. fields. subst p s.
  apply wp_eq. unfold pbx_dial. wp_run.
  unfold tu_dial. cbn [ptr_eqb]. rewrite Pos.eqb_refl. tu_simpl. wp_run.
  destruct (write_ok br f); cbn [status Z.eqb negb]; wp_run.
  all: split; [reflexivity|].
  all: rewrite pbx_mutex_restored, <- !app_assoc.
  all: f_equal; cbv [set_state]; cbn [state fd ext peer references tu_mutex];
    rewrite ?insert_insert_eq, mutex_restored; reflexivity.
Qed.

Lemma dial_own_extension_witness :
  exists w',
    pbx_dial (Some A1) 4 dial_tone_world = Ret 0 w' /\
    heap w' !! A1 = Some (mkTU 1 TU_BUSY_SIGNAL 1 4 4 None) /\
    pbx w' = pbx dial_tone_world /\
    lines_to 4 (drop (List.length (trace dial_tone_world)) (trace w'))
      = ["BUSY SIGNAL" +:+ LF].
Proof.
  eexists. split.
  - apply (dial_own_extension dial_tone_world three_registry A1
             (mkTU 1 TU_DIAL_TONE 1 4 4 None) 4); concrete.
  - computed.
Defined.

(** Undefined behaviour after a prefix that returns, and at once. *)
Lemma undef_bind {A B} (m : M A) (k : A -> M B) w :
  wp m w (fun a w' => k a w' = Undefined) -> bind m k w = Undefined.
Proof. unfold wp, bind. destruct (m w); tauto. Qed.

Lemma undef_now {A B} (m : M A) (k : A -> M B) w :
  m w = Undefined -> bind m k w = Undefined.
Proof. intros H. unfold bind. rewrite H. reflexivity. Qed.

(** X7: [tu_chat] between two CONNECTED units, with a message that fits
    the buffer ([strlen] + 2 <= [BUFFER]), delivers the message to the
    peer followed by a newline, sends the sender its own "CONNECTED
    <extension of the peer>" notification, and changes no unit. *)
Theorem chat_delivers (w : world) (a b : positive) (ta tb : TU) (m : string) :
  heap w !! a = Some ta ->
  heap w !! b = Some tb ->
  a <> b ->
  state ta = TU_CONNECTED ->
  peer ta = Some b ->
  state tb = TU_CONNECTED ->
  0 < tu_mutex ta -> 0 < tu_mutex tb ->
  0 <= fd ta -> 0 <= fd tb ->
  Z.of_nat (String.length m) + 2 <= BUFFER ->
  tu_chat (Some a) (Some m) w =
    Ret (status2 (if write_ok (broken w) (fd ta) then 0 else -1)
                 (if write_ok (broken w) (fd tb) then 0 else -1))
      (mkWorld (heap w) (pbx w)
         (trace w ++
            [EWait (TuLock a); EWait (TuLock b);
             EWrite (fd ta) ("CONNECTED " +:+ pretty (ext tb) +:+ LF)
               (write_ok (broken w) (fd ta));
             EWrite (fd tb) (m +:+ LF) (write_ok (broken w) (fd tb));
             EPost (TuLock a); EPost (TuLock b)])
         (broken w)).
Proof.
  intros Ha Hb Hab Hsa Hpa Hsb Hma Hmb Hfa Hfb Hlen.
  destruct w as [h p tr br], ta as [ma sa ra ea fa pa], tb as [mb sb rb eb fb pb].
  fields. subst sa pa sb.
  apply wp_eq. unfold tu_chat. tu_simpl. wp_run.
  split; [reflexivity|].
  f_equal; [| rewrite <- !app_assoc; reflexivity].
  heap_eq a b.
Qed.

Lemma chat_delivers_witness :
  exists w',
    tu_chat (Some A1) (Some "CHAT hi"%string) connected_world = Ret 0 w' /\
    heap w' = heap connected_world /\
    lines_to 5 (drop (List.length (trace connected_world)) (trace w'))
      = ["CHAT hi" +:+ LF] /\
    lines_to 4 (drop (List.length (trace connected_world)) (trace w'))
      = ["CONNECTED " +:+ pretty 5 +:+ LF].
Proof.
  eexists. split.
  - apply (chat_delivers connected_world A1 A2
             (mkTU 1 TU_CONNECTED 2 4 4 (Some A2))
             (mkTU 1 TU_CONNECTED 2 5 5 (Some A1)) "CHAT hi"%string); concrete.
  - computed.
Defined.

(** * The registry and whole sessions *)

(** ** More rules of execution *)

(** [free] of a live unit. *)
Lemma wp_free a h p tr br (Q : unit -> world -> Prop) :
  is_Some (h !! a) -> Q tt (mkWorld (delete a h) p tr br) ->
  wp (free (Some a)) (mkWorld h p tr br) Q.
Proof. intros [t H] HQ. unfold wp, free. simpl. rewrite H. exact HQ. Qed.

(** Normal form of the updated records and of repeated writes to one
    address; it keeps the heap terms of long runs small. *)
Ltac tu_norm :=
  cbv [set_state set_peer set_references set_ext set_tu_mutex
       set_num_entries set_entries_mutex set_pbx_mutex set_pbx_entries];
  cbn [state fd ext peer references tu_mutex
       num_entries entries_mutex pbx_mutex pbx_entries];
  rewrite ?insert_insert_eq.

Ltac wpx_run := repeat (wp_step; tu_simpl; tu_norm).

(** The two-way [return] that follows a call whose result is not used. *)
Lemma wp_if_ret {A} (c : bool) (m : M Z) (x y : A) w (Q : A -> world -> Prop) :
  wp m w (fun _ w' => Q (if c then x else y) w') ->
  wp (if c then m ;;; ret x else m ;;; ret y) w Q.
Proof. destruct c; intros H; apply wp_bind; exact H. Qed.

Lemma entries_mutex_restored (x : PBX) :
  set_entries_mutex (entries_mutex x - 1 + 1) (set_entries_mutex (entries_mutex x - 1) x) = x.
Proof. destruct x. cbv [set_entries_mutex]. cbn. rewrite mutex_restored. reflexivity. Qed.

(** X8: [pbx_register] of a live unit at a vacant extension in range
    succeeds.  The slot holds the unit, [num_entries] grows by one, the
    unit gets the extension, is ON HOOK and has one more reference, it is
    sent "ON HOOK <extension>", and both registry semaphores are released. *)
Theorem register_vacant (w : world) (x : PBX) (a : positive) (t : TU) (e : Z) :
  pbx w = Some x ->
  0 < pbx_mutex x -> 0 < entries_mutex x ->
  num_entries x < INT_MAX ->
  0 <= e <= PBX_MAX_EXTENSIONS - 1 ->
  pbx_entries x !! Z.to_nat e = Some None ->
  heap w !! a = Some t ->
  0 < tu_mutex t ->
  references t < INT_MAX ->
  0 <= fd t ->
  pbx_register (Some a) e w =
    Ret 0
      (mkWorld
         (<[a := set_references (references t + 1)
                   (set_state TU_ON_HOOK (set_ext e t))]> (heap w))
         (Some (set_num_entries (num_entries x + 1)
                  (set_pbx_entries (<[Z.to_nat e := Some a]> (pbx_entries x)) x)))
         (trace w ++
            [EWait PbxMutex; EWait EntriesMutex; EWait (TuLock a);
             EWrite (fd t) ("ON HOOK " +:+ pretty e +:+ LF)
               (write_ok (broken w) (fd t));
             EPost (TuLock a); EPost EntriesMutex; EPost PbxMutex])
         (broken w)).
Proof.
  intros Hp Hpm Hem Hn He Hslot Ha Hm Hr Hf.
  destruct w as [h p tr br], t as [m s r e0 f pe], x as [n em pm l].
  fields. subst p.
  apply wp_eq. unfold pbx_register. wp_run.
  pose proof (lookup_lt_Some _ _ _ Hslot) as Hlt.
  wp_run.
  split; [reflexivity|].
  f_equal.
  - cbv [set_references set_state set_ext]. cbn [state fd ext peer references tu_mutex].
    rewrite !insert_insert_eq, !mutex_restored. reflexivity.
  - cbv [set_num_entries set_pbx_entries]. cbn. rewrite !mutex_restored. reflexivity.
  - rewrite <- !app_assoc. reflexivity.
Qed.

Lemma register_vacant_witness :
  exists w' x',
    pbx_register (Some A1) 4 unplugged_world = Ret 0 w' /\
    heap w' !! A1 = Some (mkTU 1 TU_ON_HOOK 1 4 4 None) /\
    pbx w' = Some x' /\
    pbx_entries x' !! 4%nat = Some (Some A1) /\
    num_entries x' = 1 /\ pbx_mutex x' = 1 /\ entries_mutex x' = 1 /\
    lines_to 4 (drop (List.length (trace unplugged_world)) (trace w'))
      = ["ON HOOK " +:+ pretty 4 +:+ LF].
Proof.
  eexists _, _. split.
  - apply (register_vacant unplugged_world boot_registry A1
             (mkTU 1 TU_ON_HOOK 0 (-1) 4 None) 4); concrete.
  - computed.
Defined.

(** X9: the three ways in which [pbx_register] refuses.  An extension
    outside 0 .. [PBX_MAX_EXTENSIONS] - 1 is refused before the unit is
    looked at; then a [NULL] unit; then an extension whose slot is in use.
    Each time the result is -1, a diagnostic goes to standard error, no
    unit and no slot changes, and no semaphore stays taken. *)
Theorem register_rejected (w : world) (x : PBX) (tu : option positive) (e : Z) :
  pbx w = Some x ->
  0 < pbx_mutex x -> 0 < entries_mutex x ->
  (e < 0 \/ PBX_MAX_EXTENSIONS - 1 < e ->
   pbx_register tu e w =
     Ret (-1)
       (stderr_only w
          ["Not a valid extension, must be between 0 and 1024." +:+ LF])) /\
  (0 <= e <= PBX_MAX_EXTENSIONS - 1 -> tu = None ->
   pbx_register tu e w = Ret (-1) (stderr_only w [null_tu_err])) /\
  (forall a c : positive,
     0 <= e <= PBX_MAX_EXTENSIONS - 1 -> tu = Some a ->
     pbx_entries x !! Z.to_nat e = Some (Some c) ->
     pbx_register tu e w =
       Ret (-1)
         (mkWorld (heap w) (pbx w)
            (trace w ++
               [EWait PbxMutex; EWait EntriesMutex;
                EStderr ("There is already a telephone unit registered at extension "
                         +:+ pretty e +:+ "." +:+ LF);
                EPost EntriesMutex; EPost PbxMutex])
            (broken w))).
Proof.
  intros Hp Hpm Hem.
  destruct w as [h p tr br]. fields. subst p.
  split; [|split].
  - intros He. apply wp_eq. unfold pbx_register. wp_run.
    split; reflexivity.
  - intros He ->. apply wp_eq. unfold pbx_register. wp_run.
    split; reflexivity.
  - intros a c He -> Hslot. destruct x as [n em pm l]. fields.
    apply wp_eq. unfold pbx_register. wp_run.
    split; [reflexivity|].
    rewrite !mutex_restored, <- !app_assoc. reflexivity.
Qed.

Lemma register_rejected_witness :
  pbx_register (Some A1) 1024 three_clients =
    Ret (-1)
      (stderr_only three_clients
         ["Not a valid extension, must be between 0 and 1024." +:+ LF]) /\
  pbx_register None 7 three_clients =
    Ret (-1) (stderr_only three_clients [null_tu_err]) /\
  (exists w',
     pbx_register (Some A1) 5 three_clients = Ret (-1) w' /\
     heap w' = heap three_clients /\ pbx w' = pbx three_clients).
Proof.
  split; [|split].
  - refine (proj1 (register_rejected three_clients three_registry (Some A1)
                     1024 _ _ _) _); [concrete .. | right; concrete].
  - refine (proj1 (proj2 (register_rejected three_clients three_registry None
                            7 _ _ _)) _ _); concrete.
  - eexists. split.
    + refine (proj2 (proj2 (register_rejected three_clients three_registry
                              (Some A1) 5 _ _ _)) A1 A2 _ _ _); concrete.
    + computed.
Defined.

(** X10: [pbx_unregister] of a unit whose extension has an occupied slot
    succeeds: the slot is emptied, [num_entries] drops by one, the unit
    loses one reference and is freed when that was its last one, and both
    registry semaphores are released.  The unit's state is not changed and
    no hang-up is done here. *)
Theorem unregister_registered (w : world) (x : PBX) (a c : positive) (t : TU) :
  pbx w = Some x ->
  0 < pbx_mutex x -> 0 < entries_mutex x ->
  INT_MIN < num_entries x ->
  heap w !! a = Some t ->
  0 < tu_mutex t ->
  INT_MIN < references t ->
  0 <= ext t ->
  pbx_entries x !! Z.to_nat (ext t) = Some (Some c) ->
  pbx_unregister (Some a) w =
    Ret 0
      (mkWorld
         (if references t =? 1
          then delete a (heap w)
          else <[a := set_references (references t - 1) t]> (heap w))
         (Some (set_num_entries (num_entries x - 1)
                  (set_pbx_entries (<[Z.to_nat (ext t) := None]> (pbx_entries x)) x)))
         (trace w ++
            [EWait PbxMutex; EWait EntriesMutex;
             EWait (TuLock a); EPost (TuLock a);
             EPost EntriesMutex; EPost PbxMutex])
         (broken w)).
Proof.
  intros Hp Hpm Hem Hn Ha Hm Hr He Hslot.
  destruct w as [h p tr br], t as [m s r e f pe], x as [n em pm l].
  fields. subst p.
  pose proof (lookup_lt_Some _ _ _ Hslot) as Hlt.
  apply wp_eq. unfold pbx_unregister, tu_extension. wp_run.
  destruct (r =? 1) eqn:Hr1.
  - wp_run. apply wp_free; [lk|]. wp_run.
    split; [reflexivity|]. f_equal.
    + rewrite !delete_insert_eq. reflexivity.
    + rewrite !mutex_restored. reflexivity.
    + rewrite <- !app_assoc. reflexivity.
  - wp_run.
    split; [reflexivity|]. f_equal.
    + rewrite !insert_insert_eq, !mutex_restored. reflexivity.
    + rewrite !mutex_restored. reflexivity.
    + rewrite <- !app_assoc. reflexivity.
Qed.

Lemma unregister_registered_witness :
  exists w' x',
    pbx_unregister (Some A1) three_clients = Ret 0 w' /\
    heap w' !! A1 = None /\
    heap w' !! A2 = heap three_clients !! A2 /\
    pbx w' = Some x' /\
    pbx_entries x' !! 4%nat = Some None /\
    pbx_entries x' !! 5%nat = Some (Some A2) /\
    num_entries x' = 2 /\ pbx_mutex x' = 1 /\ entries_mutex x' = 1.
Proof.
  eexists _, _. split.
  - apply (unregister_registered three_clients three_registry A1 A1
             (mkTU 1 TU_ON_HOOK 1 4 4 None)); concrete.
  - computed.
Defined.

(** [tu_init] at an address that [calloc] may return: one that is not live. *)
Lemma wp_tu_init a f h p tr br (Q : option positive -> world -> Prop) :
  h !! a = None ->
  Q (Some a) (mkWorld (<[a := mkTU 1 TU_ON_HOOK 0 (-1) f None]> h) p tr br) ->
  wp (tu_init (Some a) f) (mkWorld h p tr br) Q.
Proof. intros H HQ. unfold wp, tu_init. simpl. rewrite H. exact HQ. Qed.

(** X11: a session that ends before its client sent anything leaves no
    trace in the shared state.  After the start of [pbx_client_service]
    ([tu_init], [pbx_register]) and its end at end of input ([tu_hangup],
    [pbx_unregister]) on a free descriptor in range, the heap and the
    registry are exactly as before: the unit is freed, the slot is empty
    again, [num_entries] is back, no semaphore is taken. *)
Theorem session_round_trip (w : world) (x : PBX) (a : positive) (connfd : Z) :
  pbx w = Some x ->
  0 < pbx_mutex x -> 0 < entries_mutex x ->
  INT_MIN <= num_entries x < INT_MAX ->
  0 <= connfd <= PBX_MAX_EXTENSIONS - 1 ->
  pbx_entries x !! Z.to_nat connfd = Some None ->
  heap w !! a = None ->
  (connect (Some a) connfd ;;; service_eof (Some a)) w =
    Ret 0
      (mkWorld (heap w) (pbx w)
         (trace w ++
            [EWait PbxMutex; EWait EntriesMutex; EWait (TuLock a);
             EWrite connfd ("ON HOOK " +:+ pretty connfd +:+ LF)
               (write_ok (broken w) connfd);
             EPost (TuLock a); EPost EntriesMutex; EPost PbxMutex;
             EWait (TuLock a);
             EWrite connfd ("ON HOOK " +:+ pretty connfd +:+ LF)
               (write_ok (broken w) connfd);
             EPost (TuLock a);
             EWait PbxMutex; EWait EntriesMutex;
             EWait (TuLock a); EPost (TuLock a);
             EPost EntriesMutex; EPost PbxMutex])
         (broken w)).
Proof.
  intros Hp Hpm Hem Hn He Hslot Ha.
  destruct w as [h p tr br], x as [n em pm l].
  fields. subst p.
  pose proof (lookup_lt_Some _ _ _ Hslot) as Hlt.
  apply wp_eq. unfold connect. apply wp_bind, wp_bind, wp_tu_init; [exact Ha|].
  tu_simpl. unfold pbx_register. wp_run.
  unfold service_eof, tu_hangup. tu_simpl. wp_run.
  unfold pbx_unregister, tu_extension. wp_run.
  eapply wp_read_entry; [lia | cbn; apply list_lookup_insert_eq; exact Hlt |].
  tu_simpl. wp_run. rewrite length_insert. wp_run.
  apply wp_free; [lk|]. wp_run.
  split; [reflexivity|]. f_equal.
  - rewrite !delete_insert_eq. apply delete_id. exact Ha.
  - rewrite !mutex_restored, list_insert_insert_eq.
    rewrite (list_insert_id _ _ _ Hslot).
    replace (n + 1 - 1) with n by lia. reflexivity.
  - rewrite <- !app_assoc. reflexivity.
Qed.

Lemma session_round_trip_witness :
  exists w',
    (connect (Some A1) 4 ;;; service_eof (Some A1)) boot_world = Ret 0 w' /\
    heap w' = heap boot_world /\ pbx w' = pbx boot_world /\
    lines_to 4 (drop (List.length (trace boot_world)) (trace w'))
      = ["ON HOOK " +:+ pretty 4 +:+ LF; "ON HOOK " +:+ pretty 4 +:+ LF].
Proof.
  eexists. split.
  - apply (session_round_trip boot_world boot_registry A1 4); concrete.
  - computed.
Defined.

(** X12: when [pbx_register] refuses the new unit, because the descriptor
    is not an extension in range or because its slot is in use,
    [pbx_client_service] returns at once and the unit that [tu_init]
    made stays in the heap: unregistered, with no reference, not freed.
    The registry is unchanged. *)
Theorem connect_refused (w : world) (x : PBX) (a : positive) (connfd : Z) :
  pbx w = Some x ->
  0 < pbx_mutex x -> 0 < entries_mutex x ->
  heap w !! a = None ->
  (connfd < 0 \/ PBX_MAX_EXTENSIONS - 1 < connfd ->
   connect (Some a) connfd w =
     Ret (-1)
       (mkWorld (<[a := mkTU 1 TU_ON_HOOK 0 (-1) connfd None]> (heap w)) (pbx w)
          (trace w ++
             [EStderr ("Not a valid extension, must be between 0 and 1024." +:+ LF);
              EStderr ("Failed to successfully regester telephone unit on PBX.  Client ID:"
                       +:+ pretty connfd +:+ LF)])
          (broken w))) /\
  (forall c : positive,
     0 <= connfd <= PBX_MAX_EXTENSIONS - 1 ->
     pbx_entries x !! Z.to_nat connfd = Some (Some c) ->
     connect (Some a) connfd w =
       Ret (-1)
         (mkWorld (<[a := mkTU 1 TU_ON_HOOK 0 (-1) connfd None]> (heap w)) (pbx w)
            (trace w ++
               [EWait PbxMutex; EWait EntriesMutex;
                EStderr ("There is already a telephone unit registered at extension "
                         +:+ pretty connfd +:+ "." +:+ LF);
                EPost EntriesMutex; EPost PbxMutex;
                EStderr ("Failed to successfully regester telephone unit on PBX.  Client ID:"
                         +:+ pretty connfd +:+ LF)])
            (broken w))).
Proof.
  intros Hp Hpm Hem Ha.
  destruct w as [h p tr br], x as [n em pm l]. fields. subst p.
  split.
  - intros He. apply wp_eq. unfold connect.
    apply wp_bind, wp_tu_init; [exact Ha|].
    tu_simpl. unfold pbx_register. wp_run.
    split; [reflexivity|]. rewrite <- !app_assoc. reflexivity.
  - intros c He Hslot. apply wp_eq. unfold connect.
    apply wp_bind, wp_tu_init; [exact Ha|].
    tu_simpl. unfold pbx_register. wp_run.
    split; [reflexivity|]. rewrite !mutex_restored, <- !app_assoc. reflexivity.
Qed.

Lemma connect_refused_witness :
  (exists w',
     connect (Some 4%positive) 1024 three_clients = Ret (-1) w' /\
     heap w' !! 4%positive = Some (mkTU 1 TU_ON_HOOK 0 (-1) 1024 None) /\
     pbx w' = pbx three_clients) /\
  (exists w',
     connect (Some 4%positive) 5 three_clients = Ret (-1) w' /\
     heap w' !! 4%positive = Some (mkTU 1 TU_ON_HOOK 0 (-1) 5 None) /\
     pbx w' = pbx three_clients).
Proof.
  split; eexists; split.
  - refine (proj1 (connect_refused three_clients three_registry 4%positive
                     1024 _ _ _ _) _); [concrete .. | right; concrete].
  - computed.
  - refine (proj2 (connect_refused three_clients three_registry 4%positive
                     5 _ _ _ _) A2 _ _); concrete.
  - computed.
Defined.

(** X13: [pbx_dial] checks only the upper bound of the extension.  With an
    extension below -1 it takes the registry semaphore and reads
    [pbx_entries] at a negative index, outside the table: undefined
    behaviour. *)
Theorem dial_negative_extension (w : world) (x : PBX) (a : positive) (e : Z) :
  pbx w = Some x ->
  0 < pbx_mutex x ->
  e < -1 ->
  pbx_dial (Some a) e w = Undefined.
Proof.
  intros Hp Hpm He.
  destruct w as [h p tr br]. fields. subst p.
  unfold pbx_dial.
  apply undef_bind. wp_run.
  replace (PBX_MAX_EXTENSIONS - 1 <? e) with false
    by (unfold PBX_MAX_EXTENSIONS; lia).
  apply undef_bind. wp_run.
  apply undef_now.
  replace (negb (e =? -1)) with true by lia.
  apply undef_now. unfold read_entry.
  apply undef_bind. wp_run.
  replace ((0 <=? e) && _) with false by lia.
  reflexivity.
Qed.

Lemma dial_negative_extension_witness :
  pbx_dial (Some A1) (-5) dial_tone_world = Undefined.
Proof.
  apply (dial_negative_extension dial_tone_world three_registry A1 (-5));
    concrete.
Defined.

(** X14: [pbx_dial] from a unit with a dial tone and a null peer to the
    extension of another unit that is ON HOOK starts a call.  The caller goes to
    RING BACK and the callee to RINGING, each becomes the peer of the
    other and gains one reference, the caller is sent "RING BACK" and the
    callee "RINGING", and the registry is unchanged with its semaphore
    released. *)
Theorem dial_rings_extension (w : world) (x : PBX) (a b : positive)
    (ta tb : TU) (e : Z) :
  pbx w = Some x ->
  0 < pbx_mutex x ->
  0 <= e <= PBX_MAX_EXTENSIONS - 1 ->
  pbx_entries x !! Z.to_nat e = Some (Some b) ->
  heap w !! a = Some ta ->
  heap w !! b = Some tb ->
  a <> b ->
  state ta = TU_DIAL_TONE -> peer ta = None ->
  state tb = TU_ON_HOOK ->
  0 < tu_mutex ta -> 0 < tu_mutex tb ->
  references ta < INT_MAX -> references tb < INT_MAX ->
  0 <= fd ta -> 0 <= fd tb ->
  pbx_dial (Some a) e w =
    Ret (status2 (if write_ok (broken w) (fd ta) then 0 else -1)
                 (if write_ok (broken w) (fd tb) then 0 else -1))
      (mkWorld
         (<[a := set_peer (Some b)
                   (set_references (references ta + 1) (set_state TU_RING_BACK ta))]>
            (<[b := set_peer (Some a)
                      (set_references (references tb + 1)
                         (set_state TU_RINGING tb))]> (heap w)))
         (pbx w)
         (trace w ++
            [EWait PbxMutex; EWait (TuLock a); EPost (TuLock a)]
            ++ dial_lock_events a b
            ++ [EWrite (fd ta) ("RING BACK" +:+ LF) (write_ok (broken w) (fd ta));
                EWrite (fd tb) ("RINGING" +:+ LF) (write_ok (broken w) (fd tb));
                EPost (TuLock b); EPost (TuLock a); EPost PbxMutex])
         (broken w)).
Proof.
  intros Hp Hpm He Hslot Ha Hb Hab Hsa Hpa Hsb Hma Hmb Hra Hrb Hfa Hfb.
  destruct w as [h p tr br], ta as [ma sa ra ea fa pa], tb as [mb sb rb eb fb pb].
  fields. subst p sa pa sb.
  assert (Hne : (a =? b)%positive = false) by (apply Pos.eqb_neq; exact Hab).
  apply wp_eq. unfold pbx_dial. wp_run.
  unfold tu_dial, tu_dial_locks, tu_dial_commit, dial_lock_events.
  cbn [ptr_eqb ptr_lt]. rewrite Hne. tu_simpl.
  destruct (a <? b)%positive eqn:Hlt; wp_run.
  all: destruct (write_ok br fa), (write_ok br fb);
    cbn [status2 Z.eqb andb negb]; wp_run.
  all: split; [reflexivity|].
  all: rewrite pbx_mutex_restored.
  all: f_equal; [heap_eq a b | rewrite <- !app_assoc; reflexivity].
Qed.

Lemma dial_rings_extension_witness :
  exists w',
    pbx_dial (Some A1) 5 dial_tone_world = Ret 0 w' /\
    heap w' !! A1 = Some (mkTU 1 TU_RING_BACK 2 4 4 (Some A2)) /\
    heap w' !! A2 = Some (mkTU 1 TU_RINGING 2 5 5 (Some A1)) /\
    pbx w' = pbx dial_tone_world /\
    lines_to 4 (drop (List.length (trace dial_tone_world)) (trace w'))
      = ["RING BACK" +:+ LF] /\
    lines_to 5 (drop (List.length (trace dial_tone_world)) (trace w'))
      = ["RINGING" +:+ LF].
Proof.
  eexists. split.
  - apply (dial_rings_extension dial_tone_world three_registry A1 A2
             (mkTU 1 TU_DIAL_TONE 1 4 4 None)
             (mkTU 1 TU_ON_HOOK 1 5 5 None) 5); concrete.
  - computed.
Defined.

(** ** A whole call *)

(** A run of session calls, each of which returns. *)
Lemma run_ops_wp (ops : list session_op) (w : world) (Q : world -> Prop) :
  wp_ops ops w Q -> exists w', run_ops ops w = Some w' /\ Q w'.
Proof.
  revert w. induction ops as [|o ops IH]; intros w H; cbn in *.
  - eauto.
  - apply wp_elim in H as (r & w1 & E & H). rewrite E. apply IH. exact H.
Qed.

(** The lines that a client receives, event by event. *)
Lemma lines_to_write_eq f buf ok evs :
  lines_to f (EWrite f buf ok :: evs) = buf :: lines_to f evs.
Proof. unfold lines_to. cbn. rewrite Z.eqb_refl. reflexivity. Qed.

Lemma lines_to_write_ne f f' buf ok evs :
  f' <> f -> lines_to f (EWrite f' buf ok :: evs) = lines_to f evs.
Proof.
  intros H. unfold lines_to. cbn.
  replace (f' =? f) with false by lia. reflexivity.
Qed.

Lemma lines_to_wait f l evs : lines_to f (EWait l :: evs) = lines_to f evs.
Proof. reflexivity. Qed.

Lemma lines_to_post f l evs : lines_to f (EPost l :: evs) = lines_to f evs.
Proof. reflexivity. Qed.

Ltac lines :=
  repeat first
    [ rewrite lines_to_write_eq
    | rewrite lines_to_write_ne by congruence
    | rewrite lines_to_wait
    | rewrite lines_to_post ].

(** X15: a whole call between two registered units that are on hook, with
    null peers and different descriptors: the
    caller picks up and dials the callee's extension, the callee picks up
    and then hangs up.  Every step returns; afterwards the callee is as it
    was before the call, the caller differs only in having a dial tone,
    the registry is unchanged, and each client received exactly the lines
    of the protocol, in order. *)
Theorem completed_call (w : world) (x : PBX) (a b : positive) (ta tb : TU) :
  pbx w = Some x ->
  0 < pbx_mutex x ->
  0 <= ext tb <= PBX_MAX_EXTENSIONS - 1 ->
  pbx_entries x !! Z.to_nat (ext tb) = Some (Some b) ->
  heap w !! a = Some ta ->
  heap w !! b = Some tb ->
  a <> b ->
  state ta = TU_ON_HOOK -> peer ta = None ->
  state tb = TU_ON_HOOK -> peer tb = None ->
  0 < tu_mutex ta -> 0 < tu_mutex tb ->
  0 < references ta < INT_MAX -> 0 < references tb < INT_MAX ->
  0 <= fd ta -> 0 <= fd tb -> fd ta <> fd tb ->
  exists w',
    run_ops [OpPickup a; OpDial a (ext tb); OpPickup b; OpHangup b] w = Some w' /\
    heap w' = <[a := set_state TU_DIAL_TONE ta]> (heap w) /\
    pbx w' = pbx w /\
    lines_to (fd ta) (drop (List.length (trace w)) (trace w')) =
      ["DIAL TONE" +:+ LF; "RING BACK" +:+ LF;
       "CONNECTED " +:+ pretty (ext tb) +:+ LF; "DIAL TONE" +:+ LF] /\
    lines_to (fd tb) (drop (List.length (trace w)) (trace w')) =
      ["RINGING" +:+ LF; "CONNECTED " +:+ pretty (ext ta) +:+ LF;
       "ON HOOK " +:+ pretty (ext tb) +:+ LF].
Proof.
  intros Hp Hpm He Hslot Ha Hb Hab Hsa Hpa Hsb Hpb Hma Hmb Hra Hrb Hfa Hfb Hfab.
  destruct w as [h p tr br], ta as [ma sa ra ea fa pa], tb as [mb sb rb eb fb pb].
  fields. subst p sa pa sb pb.
  assert (Hne : (a =? b)%positive = false) by (apply Pos.eqb_neq; exact Hab).
  apply run_ops_wp. cbn [wp_ops exec].
  unfold tu_pickup at 1. tu_simpl. wpx_run.
  unfold pbx_dial. wpx_run.
  unfold tu_dial, tu_dial_locks, tu_dial_commit.
  cbn [ptr_eqb ptr_lt]. rewrite Hne. tu_simpl.
  destruct (a <? b)%positive eqn:Hlt; wpx_run.
  all: apply wp_if_ret; wpx_run.
  all: unfold tu_pickup; tu_simpl; wpx_run.
  all: unfold tu_hangup; tu_simpl; wpx_run.
  all: cbn [heap pbx trace].
  all: rewrite !mutex_restored.
  all: split; [heap_eq a b|].
  all: split; [destruct x; reflexivity|].
  all: rewrite <- !app_assoc, drop_app_length.
  all: cbn [app]; split; lines; reflexivity.
Qed.

Lemma completed_call_witness :
  exists w',
    run_ops [OpPickup A1; OpDial A1 5; OpPickup A2; OpHangup A2] three_clients
      = Some w' /\
    heap w' = <[A1 := mkTU 1 TU_DIAL_TONE 1 4 4 None]> (heap three_clients) /\
    pbx w' = pbx three_clients /\
    lines_to 4 (drop (List.length (trace three_clients)) (trace w')) =
      ["DIAL TONE" +:+ LF; "RING BACK" +:+ LF;
       "CONNECTED " +:+ pretty 5 +:+ LF; "DIAL TONE" +:+ LF] /\
    lines_to 5 (drop (List.length (trace three_clients)) (trace w')) =
      ["RINGING" +:+ LF; "CONNECTED " +:+ pretty 4 +:+ LF;
       "ON HOOK " +:+ pretty 5 +:+ LF].
Proof.
  apply (completed_call three_clients three_registry A1 A2
           (mkTU 1 TU_ON_HOOK 1 4 4 None) (mkTU 1 TU_ON_HOOK 1 5 5 None));
    concrete.
Defined.

(** * References, extensions and descriptors *)

(** X16: [tu_ref] followed by [tu_unref] gives back the world it started
    from, with one exception: a unit whose count was 0, as [tu_init]
    leaves it, is freed by the pair. *)
Theorem ref_then_unref (w : world) (a : positive) (t : TU) :
  heap w !! a = Some t ->
  INT_MIN <= references t < INT_MAX ->
  (tu_ref (Some a) ;;; tu_unref (Some a)) w =
    Ret tt
      (mkWorld (if references t =? 0 then delete a (heap w) else heap w)
         (pbx w) (trace w) (broken w)).
Proof.
  intros Ha Hr. destruct w as [h p tr br], t as [m s r e f pe]. fields.
  apply wp_eq. wp_run.
  destruct (r =? 0) eqn:Hr0.
  - wp_run. apply wp_free; [lk|]. split; [reflexivity|].
    f_equal. rewrite !delete_insert_eq. reflexivity.
  - wp_run. split; [reflexivity|].
    f_equal. rewrite !insert_insert_eq.
    replace (r + 1 - 1) with r by lia. apply insert_id. exact Ha.
Qed.

Lemma ref_then_unref_witness :
  (exists w',
     (tu_ref (Some A1) ;;; tu_unref (Some A1)) three_clients = Ret tt w' /\
     heap w' = heap three_clients /\ pbx w' = pbx three_clients /\
     trace w' = trace three_clients) /\
  (exists w',
     (tu_ref (Some A1) ;;; tu_unref (Some A1)) unplugged_world = Ret tt w' /\
     heap w' !! A1 = None).
Proof.
  split; eexists; split.
  - apply (ref_then_unref three_clients A1 (mkTU 1 TU_ON_HOOK 1 4 4 None));
      concrete.
  - computed.
  - apply (ref_then_unref unplugged_world A1 (mkTU 1 TU_ON_HOOK 0 (-1) 4 None));
      concrete.
  - computed.
Defined.

(** X17: [tu_extension] after [tu_set_extension] with an extension in
    range returns that extension; setting it also puts the unit ON HOOK
    and sends it "ON HOOK <extension>".  An extension out of range is
    refused with -1 and a diagnostic, and changes nothing. *)
Theorem extension_set_then_get (w : world) (a : positive) (t : TU) (e : Z) :
  heap w !! a = Some t ->
  0 < tu_mutex t ->
  0 <= fd t ->
  (0 <= e <= PBX_MAX_EXTENSIONS - 1 ->
   (tu_set_extension (Some a) e ;;; tu_extension (Some a)) w =
     Ret e
       (mkWorld (<[a := set_state TU_ON_HOOK (set_ext e t)]> (heap w)) (pbx w)
          (trace w ++
             [EWait (TuLock a);
              EWrite (fd t) ("ON HOOK " +:+ pretty e +:+ LF)
                (write_ok (broken w) (fd t));
              EPost (TuLock a);
              EWait (TuLock a); EPost (TuLock a)])
          (broken w))) /\
  (e < 0 \/ PBX_MAX_EXTENSIONS - 1 < e ->
   tu_set_extension (Some a) e w =
     Ret (-1)
       (stderr_only w
          ["Not a valid extension, must be between 0 and 1024." +:+ LF])).
Proof.
  intros Ha Hm Hf. destruct w as [h p tr br], t as [m s r e0 f pe]. fields.
  split; intros He.
  - apply wp_eq. unfold tu_extension. tu_simpl. wp_run.
    split; [reflexivity|]. f_equal.
    + cbv [set_state set_ext]. cbn [state fd ext peer references tu_mutex].
      rewrite !insert_insert_eq, !mutex_restored. reflexivity.
    + rewrite <- !app_assoc. reflexivity.
  - apply wp_eq. wp_run. split; reflexivity.
Qed.

Lemma extension_set_then_get_witness :
  (exists w',
     (tu_set_extension (Some A1) 7 ;;; tu_extension (Some A1)) dial_tone_world
       = Ret 7 w' /\
     heap w' !! A1 = Some (mkTU 1 TU_ON_HOOK 1 7 4 None) /\
     lines_to 4 (drop (List.length (trace dial_tone_world)) (trace w'))
       = ["ON HOOK " +:+ pretty 7 +:+ LF]) /\
  tu_set_extension (Some A1) 1024 dial_tone_world =
    Ret (-1)
      (stderr_only dial_tone_world
         ["Not a valid extension, must be between 0 and 1024." +:+ LF]).
Proof.
  split; [eexists; split|].
  - refine (proj1 (extension_set_then_get dial_tone_world A1
                     (mkTU 1 TU_DIAL_TONE 1 4 4 None) 7 _ _ _) _); concrete.
  - computed.
  - refine (proj2 (extension_set_then_get dial_tone_world A1
                     (mkTU 1 TU_DIAL_TONE 1 4 4 None) 1024 _ _ _) _);
      [concrete .. | right; concrete].
Defined.

(** X18: the unit that [tu_init] makes for a descriptor: [tu_fileno]
    returns the descriptor, and [tu_extension] returns -1 with the
    diagnostic "Invalid extension detected: -1", because the unit has no
    extension until it is registered.  The unit is ON HOOK with no
    reference and no peer, and its semaphore is free. *)
Theorem fresh_unit (w : world) (a : positive) (connfd : Z) :
  heap w !! a = None ->
  0 <= connfd ->
  (tu_init (Some a) connfd ;;; tu_fileno (Some a)) w =
    Ret connfd
      (mkWorld (<[a := mkTU 1 TU_ON_HOOK 0 (-1) connfd None]> (heap w)) (pbx w)
         (trace w ++ [EWait (TuLock a); EPost (TuLock a)]) (broken w)) /\
  (tu_init (Some a) connfd ;;; tu_extension (Some a)) w =
    Ret (-1)
      (mkWorld (<[a := mkTU 1 TU_ON_HOOK 0 (-1) connfd None]> (heap w)) (pbx w)
         (trace w ++
            [EWait (TuLock a); EPost (TuLock a);
             EStderr ("Invalid extension detected: -1" +:+ LF)])
         (broken w)).
Proof.
  intros Ha Hf. destruct w as [h p tr br]. fields.
  split.
  - apply wp_eq. apply wp_bind, wp_tu_init; [exact Ha|].
    unfold tu_fileno. tu_simpl. wp_run.
    split; [reflexivity|]. f_equal.
    + rewrite !insert_insert_eq. reflexivity.
    + rewrite <- !app_assoc. reflexivity.
  - apply wp_eq. apply wp_bind, wp_tu_init; [exact Ha|].
    unfold tu_extension. tu_simpl. wp_run.
    split; [reflexivity|]. f_equal.
    + rewrite !insert_insert_eq. reflexivity.
    + rewrite <- !app_assoc. reflexivity.
Qed.

Lemma fresh_unit_witness :
  (tu_init (Some A1) 4 ;;; tu_fileno (Some A1)) boot_world =
    Ret 4
      (mkWorld (<[A1 := mkTU 1 TU_ON_HOOK 0 (-1) 4 None]> (heap boot_world))
         (pbx boot_world)
         (trace boot_world ++ [EWait (TuLock A1); EPost (TuLock A1)])
         (broken boot_world)) /\
  (tu_init (Some A1) 4 ;;; tu_extension (Some A1)) boot_world =
    Ret (-1)
      (mkWorld (<[A1 := mkTU 1 TU_ON_HOOK 0 (-1) 4 None]> (heap boot_world))
         (pbx boot_world)
         (trace boot_world ++
            [EWait (TuLock A1); EPost (TuLock A1);
             EStderr ("Invalid extension detected: -1" +:+ LF)])
         (broken boot_world)).
Proof.
  apply (fresh_unit boot_world A1 4); concrete.
Defined.

(** * The lines of a session: pickup, hangup and dial *)

(** ** The first token of a line *)

(** What follows the first token in the buffer, once the terminating NUL is
    there: a space or a NUL. *)
Lemma token_end_split (rest : list ascii) :
  token_end rest = true ->
  exists d post, rest ++ [NUL] = d :: post /\ (d = SP \/ d = NUL).
Proof.
  destruct rest as [|c r]; cbn.
  - exists NUL, []. auto.
  - intros H. exists c, (r ++ [NUL]). split; [reflexivity|].
    unfold token_char in H.
    destruct (Ascii.eqb_spec c SP) as [-> |]; [left; reflexivity|].
    destruct (Ascii.eqb_spec c NUL) as [-> |]; [right; reflexivity|].
    discriminate.
Qed.

Lemma forallb_sp_replicate n : forallb (Ascii.eqb SP) (replicate n SP) = true.
Proof. induction n; [reflexivity | exact IHn]. Qed.

Lemma drop_replicate_app {A} n (c : A) (l : list A) :
  drop n (replicate n c ++ l) = l.
Proof.
  rewrite <- (length_replicate n c) at 1. apply drop_app_length.
Qed.

(** The service loop up to the choice of the command, for a buffer that
    holds [n] spaces, a token, and the byte that ends it. *)
(** The dispatch of the service loop on a buffer that holds [n] spaces, a
    token [tok] and a delimiter [d]: [strtok] skips the spaces and replaces
    the delimiter by NUL, and the tests of the loop follow in the order of
    the source. *)
Lemma parse_command_token (input : list ascii) (n : nat) (tok post : list ascii)
    (d : ascii) :
  input ++ [NUL] = replicate n SP ++ tok ++ d :: post ->
  tok <> [] ->
  forallb token_char tok = true ->
  d = SP \/ d = NUL ->
  parse_command input =
    let buffer := replicate n SP ++ tok ++ NUL :: post in
    let command_len := Z.of_nat (List.length tok) in
    if (command_len - 2 =? 6) && list_ascii_eqb (take 6 tok) (bytes "pickup")
    then Some CmdPickup
    else if (command_len - 2 =? 6) && list_ascii_eqb (take 6 tok) (bytes "hangup")
    then Some CmdHangup
    else if (command_len =? 4) && list_ascii_eqb tok (bytes "dial")
    then parse_dial buffer
           (n + List.length tok + (if Ascii.eqb d SP then 1 else 0))%nat
    else parse_chat (Z.of_nat (List.length input)) buffer
           (cstr (input ++ [NUL]) ++ [NUL]) n.
Proof.
  intros E Hne Htok Hd. unfold parse_command. rewrite E.
  pose proof (strtok_token [] (replicate n SP) tok post d
                (forallb_sp_replicate n) Hne Htok Hd) as H.
  cbn [app List.length Nat.add] in H. rewrite length_replicate in H.
  rewrite H. cbv zeta.
  rewrite drop_replicate_app. unfold strncmp_eq, strcmp_eq.
  rewrite (cstr_app tok post (forallb_impl _ _ _ token_char_not_nul Htok)).
  reflexivity.
Qed.

(** X19: how the service loop recognises "pickup" and "hangup".  After any
    number of leading spaces, a first token that consists of the keyword
    and any two further bytes (not only CR LF) is taken as the command,
    and whatever follows the token on the line is ignored. *)
Theorem pickup_and_hangup_lines (n : nat) (x y : ascii) (rest : list ascii)
    (teleunit : option positive) (w : world) :
  token_char x = true ->
  token_char y = true ->
  token_end rest = true ->
  service_iteration teleunit
    (replicate n SP ++ bytes "pickup" ++ x :: y :: rest) w
  = (tu_pickup teleunit ;;; ret false) w /\
  service_iteration teleunit
    (replicate n SP ++ bytes "hangup" ++ x :: y :: rest) w
  = (tu_hangup teleunit ;;; ret false) w.
Proof.
  intros Hx Hy Hrest.
  destruct (token_end_split rest Hrest) as (d & post & E & Hd).
  split; unfold service_iteration.
  - rewrite (parse_command_token _ n (bytes "pickup" ++ [x; y]) post d);
      [reflexivity | | discriminate | | exact Hd].
    + rewrite <- !app_assoc. cbn [app]. rewrite <- E. reflexivity.
    + cbn. rewrite Hx, Hy. reflexivity.
  - rewrite (parse_command_token _ n (bytes "hangup" ++ [x; y]) post d);
      [reflexivity | | discriminate | | exact Hd].
    + rewrite <- !app_assoc. cbn [app]. rewrite <- E. reflexivity.
    + cbn. rewrite Hx, Hy. reflexivity.
Qed.

Lemma pickup_and_hangup_lines_witness :
  service_iteration (Some A1) (bytes "pickup" ++ crlf) three_clients
    = (tu_pickup (Some A1) ;;; ret false) three_clients /\
  service_iteration (Some A1) (bytes "  hangupXY now" ++ crlf) dial_tone_world
    = (tu_hangup (Some A1) ;;; ret false) dial_tone_world.
Proof.
  split.
  - refine (proj1 (pickup_and_hangup_lines 0%nat CRc LFc [] (Some A1)
                     three_clients _ _ _)); concrete.
  - refine (proj2 (pickup_and_hangup_lines 2%nat "X"%char "Y"%char
                     (bytes " now" ++ crlf) (Some A1) dial_tone_world _ _ _));
      concrete.
Defined.

(** ** Decimal numbers *)
Lemma digit_val_range c : isdigit c = true -> 0 <= digit_val c <= 9.
Proof. unfold isdigit, digit_val. cbv zeta. lia. Qed.

Lemma digit_zero c : isdigit c = true -> digit_val c = 0 -> c = "0"%char.
Proof.
  unfold isdigit, digit_val. cbv zeta. intros _ H.
  rewrite <- (ascii_N_embedding c).
  replace (N_of_ascii c) with 48%N by lia. reflexivity.
Qed.

Lemma decimal_acc ds acc :
  forallb isdigit ds = true -> 0 <= acc ->
  acc <= fold_left (fun acc c => acc * 10 + digit_val c) ds acc.
Proof.
  revert acc. induction ds as [|c ds IH]; intros acc H Hacc;
    cbn [fold_left forallb] in *; [lia|].
  apply andb_true_iff in H as [Hc Hds].
  pose proof (digit_val_range c Hc).
  specialize (IH (acc * 10 + digit_val c) Hds). lia.
Qed.

Lemma decimal_zero ds acc :
  forallb isdigit ds = true -> 0 <= acc ->
  fold_left (fun acc c => acc * 10 + digit_val c) ds acc = 0 ->
  forallb (Ascii.eqb "0") ds = true.
Proof.
  revert acc. induction ds as [|c ds IH]; intros acc H Hacc Hz;
    cbn [fold_left forallb] in *; [reflexivity|].
  apply andb_true_iff in H as [Hc Hds].
  pose proof (digit_val_range c Hc) as Hr.
  pose proof (decimal_acc ds (acc * 10 + digit_val c) Hds ltac:(lia)) as Hle.
  rewrite (IH (acc * 10 + digit_val c) Hds ltac:(lia) Hz).
  rewrite (digit_zero c Hc) by lia. reflexivity.
Qed.

Lemma decimal_nonneg ds : forallb isdigit ds = true -> 0 <= decimal ds.
Proof. intros H. apply (decimal_acc ds 0 H). lia. Qed.

Lemma isdigit_not_space c : isdigit c = true -> isspace c = false.
Proof. unfold isdigit, isspace. cbv zeta. lia. Qed.

Lemma isdigit_not_sign c :
  isdigit c = true -> Ascii.eqb c "-" = false /\ Ascii.eqb c "+" = false.
Proof.
  intros H. split.
  - destruct (Ascii.eqb_spec c "-") as [-> |]; [discriminate | reflexivity].
  - destruct (Ascii.eqb_spec c "+") as [-> |]; [discriminate | reflexivity].
Qed.

(** [strtol] on a signed run of digits that a byte other than a digit
    follows. *)
(** [strtol] on an optional minus sign and digits: the number, clamped to
    [long], and the position after the last digit. *)
Lemma strtol_digits (neg : bool) (ds rest : list ascii) :
  ds <> [] ->
  forallb isdigit ds = true ->
  forallb not_nul rest = true ->
  match rest with c :: _ => isdigit c = false | [] => True end ->
  strtol (sign_bytes neg ++ ds ++ rest ++ [NUL]) =
    (Z.max LONG_MIN (Z.min LONG_MAX (if neg then - decimal ds else decimal ds)),
     (List.length (sign_bytes neg) + List.length ds)%nat).
Proof.
  intros Hne Hds Hrest Hc.
  destruct ds as [|c0 ds']; [congruence|].
  assert (Hc0 : isdigit c0 = true) by (cbn in Hds; apply andb_true_iff in Hds; tauto).
  destruct (isdigit_not_sign c0 Hc0) as [Hm Hp].
  pose proof (isdigit_not_space c0 Hc0) as Hsp.
  unfold strtol.
  replace (sign_bytes neg ++ (c0 :: ds') ++ rest ++ [NUL])
    with ((sign_bytes neg ++ (c0 :: ds') ++ rest) ++ NUL :: [])
    by (rewrite <- !app_assoc; reflexivity).
  rewrite cstr_app.
  2:{ rewrite !forallb_app, Hrest, (forallb_impl _ _ _ isdigit_not_nul Hds).
      destruct neg; reflexivity. }
  destruct neg; cbn [sign_bytes app span isspace].
  - change (isspace "-") with false. cbv iota. cbn [drop Ascii.eqb Bool.eqb].
    cbv iota.
    change (c0 :: ds' ++ rest) with ((c0 :: ds') ++ rest).
    rewrite (span_app isdigit (c0 :: ds') rest Hds Hc).
    rewrite take_app_length. reflexivity.
  - rewrite Hsp. cbn [drop]. rewrite Hm, Hp. cbn [drop].
    change (c0 :: ds' ++ rest) with ((c0 :: ds') ++ rest).
    rewrite (span_app isdigit (c0 :: ds') rest Hds Hc).
    rewrite take_app_length. reflexivity.
Qed.

Lemma all_zero_lookup ds k c :
  forallb (Ascii.eqb "0") ds = true -> ds !! k = Some c -> c = "0"%char.
Proof.
  revert k. induction ds as [|c0 ds IH]; intros k H Hk; [discriminate|].
  cbn in H. apply andb_true_iff in H as [H0 Hds].
  destruct k as [|k]; cbn in Hk.
  - injection Hk as <-. symmetry. apply Ascii.eqb_eq. exact H0.
  - exact (IH k Hds Hk).
Qed.

(** X20: a line "dial", one or more spaces, an optional minus sign, decimal
    digits, CR LF calls [pbx_dial] with the number the digits denote,
    negated after a minus sign, when the number fits an [int]. *)
Theorem dial_number_line (n : nat) (neg : bool) (ds : list ascii)
    (teleunit : option positive) (w : world) :
  ds <> [] ->
  forallb isdigit ds = true ->
  decimal ds <= INT_MAX ->
  service_iteration teleunit
    (bytes "dial" ++ replicate (S n) SP ++ sign_bytes neg ++ ds ++ crlf) w
  = (pbx_dial teleunit (if neg then - decimal ds else decimal ds) ;;; ret false) w.
Proof.
  intros Hne Hds Hmax. unfold service_iteration.
  cbn [replicate app]. rewrite parse_command_dial.
  set (tok := sign_bytes neg ++ ds ++ crlf).
  replace ((replicate n SP ++ tok) ++ [NUL])
    with (replicate n SP ++ tok ++ NUL :: [])
    by (rewrite <- !app_assoc; reflexivity).
  assert (Hdtok : forallb token_char ds = true).
  { apply (forallb_impl isdigit); [|exact Hds].
    intros c Hc. unfold token_char.
    destruct (Ascii.eqb_spec c SP) as [-> |]; [discriminate|].
    destruct (Ascii.eqb_spec c NUL) as [-> |]; [discriminate | reflexivity]. }
  assert (Htok : forallb token_char tok = true).
  { unfold tok. rewrite !forallb_app, Hdtok. destruct neg; reflexivity. }
  assert (Hnil : tok <> []).
  { unfold tok. intros H. apply (f_equal List.length) in H.
    rewrite !length_app in H. cbn in H. lia. }
  rewrite parse_dial_token; [| exact Hnil | exact Htok | right; reflexivity].
  cbv zeta. rewrite crlf_at_token.
  destruct ds as [|c0 ds']; [congruence|].
  assert (Hc0 : isdigit c0 = true) by (cbn in Hds; apply andb_true_iff in Hds; tauto).
  assert (Hcr : match (tok ++ [NUL]) !! O with
                | None => None
                | Some c =>
                    if Ascii.eqb c CRc
                    then match (tok ++ [NUL]) !! 1%nat with
                         | None => None
                         | Some c1 => Some (Ascii.eqb c1 LFc)
                         end
                    else Some false
                end = Some false).
  { unfold tok. destruct neg; cbn; [reflexivity|].
    destruct (Ascii.eqb_spec c0 CRc) as [-> |]; [discriminate | reflexivity]. }
  rewrite Hcr, buffer_drop_token.
  unfold tok at 1. rewrite <- !app_assoc.
  rewrite (strtol_digits neg (c0 :: ds') crlf Hne Hds eq_refl eq_refl).
  pose proof (decimal_nonneg _ Hds) as Hnn.
  rewrite to_int_id by (unfold INT_MIN, INT_MAX in *; destruct neg; lia).
  set (v := if neg then - decimal (c0 :: ds') else decimal (c0 :: ds')).
  destruct (v =? 0) eqn:Hv; [|reflexivity].
  assert (Hz : decimal (c0 :: ds') = 0) by (unfold v in Hv; destruct neg; lia).
  pose proof (decimal_zero (c0 :: ds') 0 Hds ltac:(lia) Hz) as Hall.
  replace (Z.of_nat (5 + n)
           + Z.of_nat (List.length (sign_bytes neg) + List.length (c0 :: ds')) - 1)
    with (Z.of_nat (5 + n + (List.length (sign_bytes neg) + List.length ds')))
    by (cbn [List.length]; lia).
  rewrite at_index_nat, buffer_at_token.
  unfold tok. rewrite <- !app_assoc, lookup_app_r by lia.
  replace (List.length (sign_bytes neg) + List.length ds' - List.length (sign_bytes neg))%nat
    with (List.length ds') by lia.
  change (c0 :: ds') with ([c0] ++ ds') at 1.
  assert (Hlast : exists c, (c0 :: ds') !! List.length ds' = Some c).
  { apply lookup_lt_is_Some. cbn. lia. }
  destruct Hlast as (c & Hlast).
  rewrite <- !app_assoc.
  change ([c0] ++ ds' ++ crlf ++ [NUL]) with ((c0 :: ds') ++ crlf ++ [NUL]).
  rewrite lookup_app_l by (cbn; lia).
  rewrite Hlast, (all_zero_lookup _ _ _ Hall Hlast).
  reflexivity.
Qed.

Lemma dial_number_line_witness :
  service_iteration (Some A1) (bytes "dial 5" ++ crlf) dial_tone_world
    = (pbx_dial (Some A1) 5 ;;; ret false) dial_tone_world /\
  service_iteration (Some A1) (bytes "dial   -12" ++ crlf) dial_tone_world
    = (pbx_dial (Some A1) (-12) ;;; ret false) dial_tone_world.
Proof.
  split.
  - apply (dial_number_line 0%nat false (bytes "5") (Some A1) dial_tone_world);
      concrete.
  - apply (dial_number_line 2%nat true (bytes "12") (Some A1) dial_tone_world);
      concrete.
Defined.

(** * The lines of a session: chat *)

(** ** The end of a chat line *)
Lemma crlf_at_end (A : list ascii) (post : list ascii) :
  crlf_at (A ++ crlf ++ post) (Z.of_nat (List.length A)) = Some true.
Proof.
  unfold crlf_at.
  replace (Z.of_nat (List.length A) + 1) with (Z.of_nat (List.length A + 1)) by lia.
  rewrite !at_index_nat.
  rewrite lookup_app_r by lia. rewrite Nat.sub_diag. cbn.
  rewrite lookup_app_r by lia.
  replace (List.length A + 1 - List.length A)%nat with 1%nat by lia.
  reflexivity.
Qed.

Lemma insert_at_end (A post : list ascii) (c d : ascii) :
  <[List.length A := d]> (A ++ c :: post) = A ++ d :: post.
Proof.
  pose proof (insert_app_r A (c :: post) 0 d) as H.
  rewrite Nat.add_0_r in H. exact H.
Qed.

(** X21: a line "chat", one or more spaces, a text without NUL bytes,
    CR LF calls [tu_chat] once with "CHAT " followed by the text: the
    keyword is put in upper case, the run of spaces after it becomes one
    space, and the line end is cut off. *)
Theorem chat_line (n : nat) (text : list ascii)
    (teleunit : option positive) (w : world) :
  forallb not_nul text = true ->
  match text with c :: _ => Ascii.eqb SP c = false | [] => True end ->
  service_iteration teleunit
    (bytes "chat" ++ replicate (S n) SP ++ text ++ crlf) w
  = (tu_chat teleunit (Some (string_of_list_ascii (bytes "CHAT " ++ text))) ;;;
     ret false) w.
Proof.
  intros Hnn Hsp. unfold service_iteration.
  set (input := bytes "chat" ++ replicate (S n) SP ++ text ++ crlf).
  assert (Hin : forallb not_nul input = true).
  { unfold input. rewrite !forallb_app, Hnn.
    rewrite (forallb_impl (Ascii.eqb SP) not_nul (replicate (S n) SP)).
    - reflexivity.
    - intros c Hc. apply Ascii.eqb_eq in Hc as <-. reflexivity.
    - apply forallb_sp_replicate. }
  rewrite (parse_command_token input 0 (bytes "chat")
             (replicate n SP ++ text ++ crlf ++ [NUL]) SP);
    [| unfold input; rewrite <- !app_assoc; reflexivity
     | discriminate | reflexivity | left; reflexivity].
  cbv zeta.
  change ((Z.of_nat (List.length (bytes "chat")) - 2 =? 6)
          && list_ascii_eqb (take 6 (bytes "chat")) (bytes "pickup")) with false.
  change ((Z.of_nat (List.length (bytes "chat")) - 2 =? 6)
          && list_ascii_eqb (take 6 (bytes "chat")) (bytes "hangup")) with false.
  change ((Z.of_nat (List.length (bytes "chat")) =? 4)
          && list_ascii_eqb (bytes "chat") (bytes "dial")) with false.
  cbv iota.
  rewrite (cstr_app input [] Hin).
  unfold parse_chat. cbn [replicate app]. rewrite !drop_0.
  set (post := replicate n SP ++ text ++ crlf ++ [NUL]).
  rewrite !(cstr_app (bytes "chat") post eq_refl).
  change (Z.of_nat 0 + Z.of_nat (List.length (bytes "chat")) - 2) with 2.
  change (crlf_at (bytes "chat" ++ _) 2) with (Some false).
  cbv iota. unfold strcmp_eq.
  rewrite ?(cstr_app (bytes "chat") post eq_refl).
  change ((Z.of_nat (List.length (bytes "chat"))
           =? Z.of_nat (List.length (tu_command_names TU_CHAT_CMD)))
          && list_ascii_eqb (bytes "chat") (tu_command_names TU_CHAT_CMD))
    with true.
  cbv iota.
  set (A := bytes "chat" ++ replicate (S n) SP ++ text).
  assert (EA : input = A ++ crlf)
    by (unfold input, A; rewrite <- !app_assoc; reflexivity).
  assert (Elen : Z.of_nat (List.length input) - 2 = Z.of_nat (List.length A))
    by (rewrite EA, length_app; cbn; lia).
  rewrite Elen, Nat2Z.id, EA, <- app_assoc, crlf_at_end.
  cbn [crlf app]. rewrite insert_at_end.
  unfold A. rewrite <- !app_assoc.
  change (drop 4 (bytes "chat" ++ ?x)) with x.
  rewrite (span_app (Ascii.eqb SP) (replicate (S n) SP)
             (text ++ NUL :: LFc :: [NUL]) (forallb_sp_replicate (S n))).
  2:{ destruct text; [reflexivity | exact Hsp]. }
  rewrite length_replicate, drop_replicate_app.
  rewrite (cstr_app text _ Hnn).
  reflexivity.
Qed.

Lemma chat_line_witness :
  service_iteration (Some A1) (bytes "chat   hi there" ++ crlf) connected_world
    = (tu_chat (Some A1) (Some "CHAT hi there"%string) ;;; ret false)
        connected_world.
Proof.
  apply (chat_line 2%nat (bytes "hi there") (Some A1) connected_world); concrete.
Defined.

Lemma string_of_list_ascii_inj (x y : list ascii) :
  string_of_list_ascii x = string_of_list_ascii y -> x = y.
Proof.
  intros H. apply (f_equal list_ascii_of_string) in H.
  rewrite !list_ascii_of_string_of_list_ascii in H. exact H.
Qed.

Lemma list_ascii_eqb_eq (x y : list ascii) : list_ascii_eqb x y = true -> x = y.
Proof.
  unfold list_ascii_eqb. intros H. apply String.eqb_eq in H.
  exact (string_of_list_ascii_inj _ _ H).
Qed.

(** ** The inner loop of a chat *)

(** A message that does not fit the buffer of [send_to_client]. *)
Lemma chat_overflow (w : world) (a b : positive) (ta tb : TU) (m : string) :
  heap w !! a = Some ta ->
  heap w !! b = Some tb ->
  a <> b ->
  state ta = TU_CONNECTED ->
  peer ta = Some b ->
  state tb = TU_CONNECTED ->
  0 < tu_mutex ta -> 0 < tu_mutex tb ->
  0 <= fd ta -> 0 <= fd tb ->
  BUFFER < Z.of_nat (String.length m) + 2 ->
  tu_chat (Some a) (Some m) w = Undefined.
Proof.
  intros Ha Hb Hab Hsa Hpa Hsb Hma Hmb Hfa Hfb Hlen.
  destruct w as [h p tr br], ta as [ma sa ra ea fa pa], tb as [mb sb rb eb fb pb].
  fields. subst sa pa sb.
  unfold tu_chat. tu_simpl.
  do 7 (apply undef_bind; wp_run).
  apply undef_now.
  unfold send_to_client. apply undef_bind. wp_run.
  replace (fb <? 0) with false by lia.
  apply undef_now. tu_simpl.
  replace (Z.of_nat (String.length m) + 2 <=? BUFFER) with false by lia.
  reflexivity.
Qed.

Lemma length_string_of_list_ascii (l : list ascii) :
  String.length (string_of_list_ascii l) = List.length l.
Proof. induction l as [|c l IH]; cbn; [reflexivity | f_equal; exact IH]. Qed.

Lemma crlf_at_last_two (pre : list ascii) (c0 c1 : ascii) (post : list ascii) :
  crlf_at (pre ++ c0 :: c1 :: post) (Z.of_nat (List.length pre))
  = Some (Ascii.eqb c0 CRc && Ascii.eqb c1 LFc).
Proof.
  unfold crlf_at.
  replace (Z.of_nat (List.length pre) + 1) with (Z.of_nat (List.length pre + 1))
    by lia.
  rewrite !at_index_nat.
  rewrite lookup_app_r by lia. rewrite Nat.sub_diag. cbn [lookup list_lookup].
  rewrite lookup_app_r by lia.
  replace (List.length pre + 1 - List.length pre)%nat with 1%nat by lia.
  cbn [lookup list_lookup].
  destruct (Ascii.eqb c0 CRc); reflexivity.
Qed.

(** A chunk that does not end the line. *)
Lemma chat_continuation_open (teleunit : option positive) (w : world)
    (pre : list ascii) (c0 c1 : ascii) :
  forallb not_nul (pre ++ [c0; c1]) = true ->
  Ascii.eqb c0 CRc && Ascii.eqb c1 LFc = false ->
  chat_continuation teleunit (pre ++ [c0; c1]) w
  = (tu_chat teleunit (Some (string_of_list_ascii (pre ++ [c0; c1]))) ;;;
     ret true) w.
Proof.
  intros Hnn Hc. unfold chat_continuation.
  replace (Z.of_nat (List.length (pre ++ [c0; c1])) - 2)
    with (Z.of_nat (List.length pre)) by (rewrite length_app; cbn; lia).
  rewrite crlf_at_last_two, Hc. cbn [negb].
  rewrite (cstr_app (pre ++ [c0; c1]) [] Hnn). reflexivity.
Qed.

(** X22: the inner loop of a chat.  A chunk that ends in CR LF is sent
    without the line end and ends the loop; a chunk of two bytes or more
    that does not end in CR LF is sent whole and the loop goes on.  Neither
    gets the "CHAT " prefix.  A chunk of fewer than two bytes, which
    includes end of input and a failed [read], makes the loop read the
    buffer before its start: undefined behaviour. *)
Theorem chat_continuation_chunks (teleunit : option positive) (w : world) :
  (forall text : list ascii,
     forallb not_nul text = true ->
     chat_continuation teleunit (text ++ crlf) w
     = (tu_chat teleunit (Some (string_of_list_ascii text)) ;;; ret false) w) /\
  (forall (pre : list ascii) (c0 c1 : ascii),
     forallb not_nul (pre ++ [c0; c1]) = true ->
     Ascii.eqb c0 CRc && Ascii.eqb c1 LFc = false ->
     chat_continuation teleunit (pre ++ [c0; c1]) w
     = (tu_chat teleunit (Some (string_of_list_ascii (pre ++ [c0; c1]))) ;;;
        ret true) w) /\
  (forall input : list ascii,
     (List.length input < 2)%nat ->
     chat_continuation teleunit input w = Undefined).
Proof.
  split; [|split].
  - intros text Hnn. unfold chat_continuation.
    replace (Z.of_nat (List.length (text ++ crlf)) - 2)
      with (Z.of_nat (List.length text)) by (rewrite length_app; cbn; lia).
    pose proof (crlf_at_end text []) as H. rewrite app_nil_r in H. rewrite H.
    rewrite Nat2Z.id. unfold crlf. cbn [negb]. rewrite insert_at_end.
    rewrite (cstr_app text [LFc] Hnn). reflexivity.
  - intros pre c0 c1 Hnn Hc. apply chat_continuation_open; assumption.
  - intros input Hlen. unfold chat_continuation.
    destruct input as [|c [|c' r]]; [reflexivity | reflexivity | cbn in Hlen; lia].
Qed.

Lemma chat_continuation_chunks_witness :
  chat_continuation (Some A1) (bytes "there" ++ crlf) connected_world
    = (tu_chat (Some A1) (Some "there"%string) ;;; ret false) connected_world /\
  chat_continuation (Some A1) (bytes "and more") connected_world
    = (tu_chat (Some A1) (Some "and more"%string) ;;; ret true)
        connected_world /\
  chat_continuation (Some A1) [] connected_world = Undefined.
Proof.
  destruct (chat_continuation_chunks (Some A1) connected_world)
    as (H1 & H2 & H3).
  split; [|split].
  - apply (H1 (bytes "there")); concrete.
  - apply (H2 (bytes "and mo") "r"%char "e"%char); concrete.
  - apply (H3 []); concrete.
Defined.

(** X23: between two CONNECTED units, [tu_chat] with a message longer than
    [BUFFER] - 2 bytes overruns the array in which [send_to_client]
    formats the line: undefined behaviour.  The inner loop of a chat gets
    there on its own: a chunk of [BUFFER] - 1 bytes, the most that its
    [read] returns, that does not end in CR LF is such a message. *)
Theorem chat_chunk_overflow (w : world) (a b : positive) (ta tb : TU) :
  heap w !! a = Some ta ->
  heap w !! b = Some tb ->
  a <> b ->
  state ta = TU_CONNECTED ->
  peer ta = Some b ->
  state tb = TU_CONNECTED ->
  0 < tu_mutex ta -> 0 < tu_mutex tb ->
  0 <= fd ta -> 0 <= fd tb ->
  (forall m : string,
     BUFFER < Z.of_nat (String.length m) + 2 ->
     tu_chat (Some a) (Some m) w = Undefined) /\
  (forall (pre : list ascii) (c0 c1 : ascii),
     forallb not_nul (pre ++ [c0; c1]) = true ->
     Ascii.eqb c0 CRc && Ascii.eqb c1 LFc = false ->
     Z.of_nat (List.length (pre ++ [c0; c1])) = BUFFER - 1 ->
     chat_continuation (Some a) (pre ++ [c0; c1]) w = Undefined).
Proof.
  intros Ha Hb Hab Hsa Hpa Hsb Hma Hmb Hfa Hfb. split.
  - intros m Hlen.
    exact (chat_overflow w a b ta tb m Ha Hb Hab Hsa Hpa Hsb Hma Hmb Hfa Hfb Hlen).
  - intros pre c0 c1 Hnn Hc Hlen.
    rewrite chat_continuation_open by assumption.
    apply undef_now.
    apply (chat_overflow w a b ta tb _ Ha Hb Hab Hsa Hpa Hsb Hma Hmb Hfa Hfb).
    rewrite length_string_of_list_ascii. lia.
Qed.

Lemma chat_chunk_overflow_witness :
  tu_chat (Some A1) (Some (string_of_list_ascii full_chunk)) connected_world
    = Undefined /\
  chat_continuation (Some A1) full_chunk connected_world = Undefined.
Proof.
  split.
  - refine (proj1 (chat_chunk_overflow connected_world A1 A2
                     (mkTU 1 TU_CONNECTED 2 4 4 (Some A2))
                     (mkTU 1 TU_CONNECTED 2 5 5 (Some A1))
                     _ _ _ _ _ _ _ _ _ _)
              (string_of_list_ascii full_chunk) _); concrete.
  - refine (proj2 (chat_chunk_overflow connected_world A1 A2
                     (mkTU 1 TU_CONNECTED 2 4 4 (Some A2))
                     (mkTU 1 TU_CONNECTED 2 5 5 (Some A1))
                     _ _ _ _ _ _ _ _ _ _)
              (replicate (Z.to_nat (BUFFER - 3)) "x"%char) "x"%char "x"%char
              _ _ _); concrete.
Defined.

(** * The lines of a session: what is no command *)

(** ** Tokens that are no keyword *)
Lemma list_ascii_eqb_refl (x : list ascii) : list_ascii_eqb x x = true.
Proof. unfold list_ascii_eqb. apply String.eqb_refl. Qed.

Lemma crlf_at_Some (buf : list ascii) (i : nat) :
  (i + 1 < List.length buf)%nat ->
  exists s, crlf_at buf (Z.of_nat i) = Some s.
Proof.
  intros H. unfold crlf_at.
  replace (Z.of_nat i + 1) with (Z.of_nat (i + 1)) by lia.
  rewrite !at_index_nat.
  destruct (lookup_lt_is_Some_2 buf i ltac:(lia)) as [c0 ->].
  destruct (lookup_lt_is_Some_2 buf (i + 1) H) as [c1 ->].
  destruct (Ascii.eqb c0 CRc); eauto.
Qed.

(** X24: lines that are no command.  A first token that starts with none
    of the four keywords, for instance a keyword in upper case, and that is
    not a single byte at the very start of the buffer, is dropped in
    silence: nothing is sent and nothing changes; so is a line of spaces
    only.  A first token of a single byte at the
    start of the buffer makes the chat test read the byte before the
    buffer: undefined behaviour. *)
Theorem unknown_command_ignored :
  (forall (n : nat) (tok rest : list ascii) (teleunit : option positive)
          (w : world),
     tok <> [] ->
     forallb token_char tok = true ->
     token_end rest = true ->
     (2 <= n + List.length tok)%nat ->
     keyword_prefix tok = false ->
     service_iteration teleunit (replicate n SP ++ tok ++ rest) w = Ret false w) /\
  (forall (n : nat) (teleunit : option positive) (w : world),
     service_iteration teleunit (replicate (S n) SP) w = Ret false w) /\
  (forall (c : ascii) (rest : list ascii) (teleunit : option positive)
          (w : world),
     token_char c = true ->
     token_end rest = true ->
     service_iteration teleunit (c :: rest) w = Undefined).
Proof.
  split; [|split].
  - intros n tok rest teleunit w Hne Htok Hrest Hlen Hkw.
    destruct (token_end_split rest Hrest) as (d & post & E & Hd).
    unfold keyword_prefix in Hkw. cbn [existsb] in Hkw.
    apply orb_false_iff in Hkw as [Hk1 Hkw].
    apply orb_false_iff in Hkw as [Hk2 Hkw].
    apply orb_false_iff in Hkw as [Hk3 Hkw].
    apply orb_false_iff in Hkw as [Hk4 _].
    change (List.length (tu_command_names TU_PICKUP_CMD)) with 6%nat in Hk1.
    change (List.length (tu_command_names TU_HANGUP_CMD)) with 6%nat in Hk2.
    change (List.length (tu_command_names TU_DIAL_CMD)) with 4%nat in Hk3.
    change (List.length (tu_command_names TU_CHAT_CMD)) with 4%nat in Hk4.
    assert (Hnn : forallb not_nul tok = true)
      by exact (forallb_impl _ _ _ token_char_not_nul Htok).
    unfold service_iteration.
    rewrite (parse_command_token _ n tok post d);
      [| rewrite <- !app_assoc, E; reflexivity
       | exact Hne | exact Htok | exact Hd].
    cbv zeta.
    change (tu_command_names TU_PICKUP_CMD) with (bytes "pickup") in Hk1.
    change (tu_command_names TU_HANGUP_CMD) with (bytes "hangup") in Hk2.
    rewrite Hk1, Hk2, !andb_false_r.
    assert (Hdial : list_ascii_eqb tok (bytes "dial") = false).
    { destruct (list_ascii_eqb tok (bytes "dial")) eqn:Ed; [|reflexivity].
      apply list_ascii_eqb_eq in Ed. subst tok. discriminate Hk3. }
    rewrite Hdial, andb_false_r.
    unfold parse_chat. rewrite drop_replicate_app.
    rewrite (cstr_app tok post Hnn).
    set (buffer := replicate n SP ++ tok ++ NUL :: post).
    replace (Z.of_nat n + Z.of_nat (List.length tok) - 2)
      with (Z.of_nat (n + List.length tok - 2)) by lia.
    destruct (crlf_at_Some buffer (n + List.length tok - 2)) as [strip Hs].
    { unfold buffer. rewrite !length_app, length_replicate. cbn. lia. }
    rewrite Hs.
    assert (Hno : ((if strip
                    then Z.of_nat (List.length tok) - 2
                    else Z.of_nat (List.length tok))
                   =? Z.of_nat (List.length (tu_command_names TU_CHAT_CMD)))
                  && strcmp_eq
                       (drop n (if strip
                                then <[Z.to_nat (Z.of_nat (n + List.length tok - 2)) := NUL]>
                                       buffer
                                else buffer))
                       (tu_command_names TU_CHAT_CMD) = false).
    { change (tu_command_names TU_CHAT_CMD) with (bytes "chat") in *.
      change (Z.of_nat (List.length (bytes "chat"))) with 4.
      unfold strcmp_eq. destruct strip.
      - destruct (Z.of_nat (List.length tok) - 2 =? 4) eqn:E6; [|reflexivity].
        cbn [andb]. rewrite Nat2Z.id.
        replace (n + List.length tok - 2)%nat with (n + 4)%nat by lia.
        assert (Et : tok = take 4 tok ++ drop 4 tok) by (symmetry; apply take_drop).
        destruct (drop 4 tok) as [|c r] eqn:Edrop.
        { apply (f_equal List.length) in Edrop. rewrite length_drop in Edrop.
          cbn in Edrop. lia. }
        unfold buffer. rewrite Et, <- !app_assoc.
        rewrite app_assoc.
        replace (n + 4)%nat with (List.length (replicate n SP ++ take 4 tok))
          by (rewrite length_app, length_replicate, length_take; lia).
        cbn [app]. rewrite insert_at_end, <- app_assoc, drop_replicate_app.
        rewrite cstr_app.
        + exact Hk4.
        + rewrite <- (take_drop 4 tok), forallb_app in Hnn.
          apply andb_true_iff in Hnn. tauto.
      - unfold buffer. rewrite drop_replicate_app, (cstr_app tok post Hnn).
        destruct (list_ascii_eqb tok (bytes "chat")) eqn:Ec;
          [|apply andb_false_r].
        apply list_ascii_eqb_eq in Ec. subst tok. discriminate Hk4. }
    rewrite Hno. reflexivity.
  - intros n teleunit w. unfold service_iteration, parse_command, strtok.
    rewrite drop_0.
    rewrite (span_app (Ascii.eqb SP) (replicate (S n) SP) [NUL]
               (forallb_sp_replicate (S n)) eq_refl).
    rewrite length_replicate. cbn [Nat.add].
    erewrite (list_lookup_middle (replicate (S n) SP) [] NUL);
      [|rewrite length_replicate; reflexivity].
    reflexivity.
  - intros c rest teleunit w Hc Hrest.
    destruct (token_end_split rest Hrest) as (d & post & E & Hd).
    unfold service_iteration.
    rewrite (parse_command_token (c :: rest) 0 [c] post d);
      [| cbn [replicate app]; rewrite <- E; reflexivity
       | discriminate | cbn; rewrite Hc; reflexivity | exact Hd].
    cbv zeta. cbn [List.length Z.of_nat Pos.of_succ_nat Z.sub Z.add Z.opp
                   Z.pos_sub Z.eqb andb].
    unfold parse_chat. cbn [replicate app drop].
    change (c :: NUL :: post) with ([c] ++ NUL :: post).
    rewrite (cstr_app [c] post)
      by (cbn; rewrite (token_char_not_nul c Hc); reflexivity).
    reflexivity.
Qed.

Lemma unknown_command_ignored_witness :
  service_iteration (Some A1) (bytes "PICKUP" ++ crlf) three_clients
    = Ret false three_clients /\
  service_iteration (Some A1) (bytes "   ") three_clients
    = Ret false three_clients /\
  service_iteration (Some A1) (bytes "x") three_clients = Undefined.
Proof.
  destruct unknown_command_ignored as (H1 & H2 & H3).
  split; [|split].
  - apply (H1 0%nat (bytes "PICKUP" ++ crlf) [] (Some A1) three_clients);
      concrete.
  - apply (H2 2%nat).
  - apply (H3 "x"%char []); concrete.
Defined.

(** * Partial correctness: what holds whenever a call returns *)





Lemma wpp_undefined {A} w (Q : A -> world -> Prop) : wpp undefined w Q.
Proof. exact I. Qed.




Lemma wpp_load_null h p tr br (Q : TU -> world -> Prop) :
  wpp (load None) (mkWorld h p tr br) Q.
Proof. exact I. Qed.






Lemma wpp_sem_wait_null h p tr br (Q : Z -> world -> Prop) :
  wpp (sem_wait_tu None) (mkWorld h p tr br) Q.
Proof. exact I. Qed.


Lemma wpp_sem_post_null h p tr br (Q : Z -> world -> Prop) :
  wpp (sem_post_tu None) (mkWorld h p tr br) Q.
Proof. exact I. Qed.





(** * Invariants of the call operations *)



















(** A heap that differs from [h] at [a] only. *)
(** A heap that is given by its lookups. *)
Lemma heap_one (h h' : gmap positive TU) a t' :
  h' !! a = Some t' ->
  (forall k, k <> a -> h' !! k = h !! k) ->
  h' = <[a := t']> h.
Proof.
  intros Ha Hk. apply map_eq. intros k.
  destruct (decide (k = a)) as [-> | Hne].
  - rewrite lookup_insert_eq. exact Ha.
  - rewrite lookup_insert_ne by congruence. apply Hk, Hne.
Qed.





















(** * Invariants of the running server *)































(** ** From start-up *)











